(** * NYC bike-share pipeline: station registry, trip cleaning, enrichment
    and demand signatures

  A shallow embedding of three scripts of the repository

    - [src/data/make_dataset.py]        (station registry, trip normaliser)
    - [src/data/enrich_trips.py]        (weather and day/night joins)
    - [src/models/create_signatures.py] (hourly demand signatures)

  A pandas [DataFrame] is a list of rows (a record per row), a nullable
  cell is an [option] ([None] is NaN / NaT), a Python [dict] is a [gmap].
  Timestamps are pandas [datetime64[ns]] values: an integer number of
  nanoseconds since the epoch, naive local time.  The float64 cells of the
  signature matrix are IEEE binary64 numbers ([spec_float] at precision 53). *)

From Stdlib Require Import ZArith QArith Bool String List Lia.
From Stdlib Require Import SpecFloat.
From stdpp Require Import gmap strings list sorting.

Local Open Scope Z_scope.

(** ** Time *)

Module Datetime.

(** [datetime64[ns]]: nanoseconds since 1970-01-01T00:00:00. *)
Definition Timestamp := Z.

Definition ns_per_second : Z := 1000000000.
Definition ns_per_hour : Z := 3600 * ns_per_second.
Definition ns_per_day : Z := 24 * ns_per_hour.

(** [Timedelta.total_seconds()], as an exact rational number of seconds. *)
Definition total_seconds (delta : Z) : Q := Qmake delta 1000000000.

(** [Series.dt.round(freq)] for a frequency of [unit] nanoseconds.  pandas
    rounds to the nearest multiple and breaks ties towards the even
    multiple:
<<
    quotient, remainder = np.divmod(values, unit)
    mask = (remainder > unit // 2) | ((remainder == unit // 2) & (quotient % 2))
    quotient[mask] += 1
    return quotient * unit
>>  *)
Definition round_nsint64 (unit value : Z) : Z :=
  let quotient := value / unit in
  let remainder := value mod unit in
  let mask := (unit / 2 <? remainder)
              || ((remainder =? unit / 2) && Z.odd quotient) in
  (if mask then quotient + 1 else quotient) * unit.

(** [.dt.round('h')] *)
Definition dt_round_h (t : Timestamp) : Timestamp := round_nsint64 ns_per_hour t.

(** [.dt.date]: the calendar day, as a day number since the epoch. *)
Definition dt_date (t : Timestamp) : Z := t / ns_per_day.

(** [.dt.hour] *)
Definition dt_hour (t : Timestamp) : Z := (t mod ns_per_day) / ns_per_hour.

(** [.dt.dayofweek]: Monday is 0; day 0 of the epoch was a Thursday. *)
Definition dt_dayofweek (t : Timestamp) : Z := (dt_date t + 3) mod 7.

(** A wall-clock time on a given day number. *)
Definition at_time (day h m s : Z) : Timestamp :=
  day * ns_per_day + h * ns_per_hour + m * (60 * ns_per_second) + s * ns_per_second.

(** Day number of 2025-01-01. *)
Definition day_2025_01_01 : Z := 20089.

End Datetime.

Export Datetime.

(** ** Nullable cells *)

(** [Series.fillna(other)]: a null cell takes the value of [other] at the
  same row; a present cell is kept. *)
Definition fillna {A} (cell other : option A) : option A :=
  match cell with
  | Some v => Some v
  | None => other
  end.

(** [Series.map(d)] for a dict [d] whose values may themselves be NaN: a key
  that is null or absent from the dict maps to NaN. *)
Definition series_map {A} (d : gmap Z (option A)) (key : option Z) : option A :=
  match key with
  | Some k => match d !! k with
              | Some v => v
              | None => None
              end
  | None => None
  end.

(** Element-wise [==] on two nullable numeric columns: NaN equals nothing. *)
Definition eq_cells (a b : option Z) : bool :=
  match a, b with
  | Some x, Some y => x =? y
  | _, _ => false
  end.

(** ** Raw trips ([make_dataset.py]) *)

(** One row of a raw trip file after the casts of section 1 of the loop
  ([pd.to_datetime(errors='coerce')], [pd.to_numeric(errors='coerce')]):
  an unparseable timestamp is NaT, an unparseable station id is NaN. *)
Record Trip := mkTrip {
  ride_id : string;
  rideable_type : string;
  member_casual : string;
  started_at : option Timestamp;
  ended_at : option Timestamp;
  start_station_id : option Z;
  start_station_name : option string;
  start_lat : option Q;
  start_lng : option Q;
  end_station_id : option Z;
  end_station_name : option string;
  end_lat : option Q;
  end_lng : option Q
}.

Module Normalizer.

(** [df['trip_duration'] = (df['ended_at'] - df['started_at']).dt.total_seconds()] *)
Definition trip_duration (r : Trip) : option Q :=
  match ended_at r, started_at r with
  | Some e, Some s => Some (total_seconds (e - s))
  | _, _ => None
  end.

(** [df.dropna(subset=['started_at', 'ended_at'])] *)
Definition has_dates (r : Trip) : bool :=
  match started_at r, ended_at r with
  | Some _, Some _ => true
  | _, _ => false
  end.

(** Comparison of a nullable float cell with a constant: NaN compares false. *)
Definition lt_const (d : option Q) (c : Z) : bool :=
  match d with
  | Some q => negb (Qle_bool (inject_Z c) q)
  | None => false
  end.

Definition gt_const (d : option Q) (c : Z) : bool :=
  match d with
  | Some q => negb (Qle_bool q (inject_Z c))
  | None => false
  end.

(** [invalid_mask]: duration < 3 min, > 3 h, or same origin and destination. *)
Definition invalid_mask (r : Trip) : bool :=
  lt_const (trip_duration r) 180
  || gt_const (trip_duration r) 10800
  || eq_cells (start_station_id r) (end_station_id r).

(** Section 4 of the loop: the six [fillna(... .map(...))] assignments. *)
Definition impute (map_names : gmap Z (option string))
                  (map_lat map_lng : gmap Z (option Q)) (r : Trip) : Trip :=
  {| ride_id := ride_id r;
     rideable_type := rideable_type r;
     member_casual := member_casual r;
     started_at := started_at r;
     ended_at := ended_at r;
     start_station_id := start_station_id r;
     start_station_name :=
       fillna (start_station_name r) (series_map map_names (start_station_id r));
     start_lat := fillna (start_lat r) (series_map map_lat (start_station_id r));
     start_lng := fillna (start_lng r) (series_map map_lng (start_station_id r));
     end_station_id := end_station_id r;
     end_station_name :=
       fillna (end_station_name r) (series_map map_names (end_station_id r));
     end_lat := fillna (end_lat r) (series_map map_lat (end_station_id r));
     end_lng := fillna (end_lng r) (series_map map_lng (end_station_id r)) |}.

(** [df.dropna(subset=['start_station_id', 'end_station_id'])] *)
Definition has_station_ids (r : Trip) : bool :=
  match start_station_id r, end_station_id r with
  | Some _, Some _ => true
  | _, _ => false
  end.

(** The validity filter of section 3: corrupted dates are dropped, then the
    rows of the mask. *)
Definition valid_trips (df : list Trip) : list Trip :=
  filter (λ r, negb (invalid_mask r) = true)
         (filter (λ r, has_dates r = true) df).

(** The body of the phase 2 loop for one file: the frame written to parquet. *)
Definition process_file (map_names : gmap Z (option string))
                        (map_lat map_lng : gmap Z (option Q))
                        (df : list Trip) : list Trip :=
  filter (λ r, has_station_ids r = true)
         (impute map_names map_lat map_lng <$> valid_trips df).

(** The statistics printed for one file. *)
Record Stats := mkStats {
  initial_rows : Z;
  num_invalid : Z;
  rows_no_id : Z;
  final_rows : Z;
  dropped_rows : Z
}.

(** The counters of the phase 2 loop: [len(df)] on entry, [invalid_mask.sum()],
    the rows lost by the last [dropna], [len(df)] at the end, and
    [initial_rows - final_rows]. *)
Definition process_file_stats (map_names : gmap Z (option string))
                              (map_lat map_lng : gmap Z (option Q))
                              (df : list Trip) : Stats :=
  let with_dates := filter (λ r, has_dates r = true) df in
  let imputed := impute map_names map_lat map_lng <$> valid_trips df in
  let final := filter (λ r, has_station_ids r = true) imputed in
  {| initial_rows := Z.of_nat (length df);
     num_invalid :=
       Z.of_nat (length (filter (λ r, invalid_mask r = true) with_dates));
     rows_no_id := Z.of_nat (length imputed) - Z.of_nat (length final);
     final_rows := Z.of_nat (length final);
     dropped_rows := Z.of_nat (length df) - Z.of_nat (length final) |}.

End Normalizer.

(** ** Station registry (phase 1 of [make_dataset.py]) *)

Module Registry.

(** A row of the station frames: the four renamed columns. *)
Record StationRow := mkStationRow {
  station_id : option Z;
  station_name : option string;
  lat : option Q;
  lng : option Q
}.

(** [df_temp[cols_start].rename(...)] and [df_temp[cols_end].rename(...)] *)
Definition start_stations (df_temp : list Trip) : list StationRow :=
  (λ t, mkStationRow (start_station_id t) (start_station_name t)
                     (start_lat t) (start_lng t)) <$> df_temp.

Definition end_stations (df_temp : list Trip) : list StationRow :=
  (λ t, mkStationRow (end_station_id t) (end_station_name t)
                     (end_lat t) (end_lng t)) <$> df_temp.

(** [combined_stations.dropna(subset=['station_id'])] *)
Definition dropna_station_id (df : list StationRow) : list StationRow :=
  filter (λ r, is_Some (station_id r)) df.

(** The order [sort_values('station_name')] sorts by: strings by code point,
    NaN names last ([na_position='last']). *)
Definition name_leb (a b : option string) : bool :=
  match a, b with
  | Some x, Some y => String.leb x y
  | Some _, None => true
  | None, Some _ => false
  | None, None => true
  end.

Definition name_le (a b : StationRow) : Prop :=
  name_leb (station_name a) (station_name b) = true.

#[global] Instance name_le_dec a b : Decision (name_le a b).
Proof. unfold name_le. apply _. Defined.

(** What [sort_values('station_name')] guarantees.  Its default
    [kind='quicksort'] is not a stable sort: the result is a rearrangement of
    the rows in which names ascend, and rows with equal names come in an
    order the caller cannot rely on. *)
Definition sorts_by_name (sort_values : list StationRow → list StationRow) : Prop :=
  ∀ df, Sorted name_le (sort_values df) ∧ sort_values df ≡ₚ df.

(** One sort with that guarantee. *)
Definition merge_sort_values (df : list StationRow) : list StationRow :=
  merge_sort name_le df.

(** [drop_duplicates(subset=['station_id'], keep='first')] *)
Fixpoint drop_duplicates_from (seen : list (option Z)) (df : list StationRow)
  : list StationRow :=
  match df with
  | [] => []
  | r :: df' =>
      if bool_decide (station_id r ∈ seen)
      then drop_duplicates_from seen df'
      else r :: drop_duplicates_from (station_id r :: seen) df'
  end.

Definition drop_duplicates (df : list StationRow) : list StationRow :=
  drop_duplicates_from [] df.

(** [GroupBy.first()]: per column, the first entry of the group that is not
    null (pandas skips NA entries; NaN if the group has none). *)
Definition first_valid {A} (cells : list (option A)) : option A :=
  head (omap id cells).

(** The group of one key, rows in frame order. *)
Definition group (key : Z) (df : list StationRow) : list StationRow :=
  filter (λ r, station_id r = Some key) df.

(** Group keys, ascending ([sort=True]); null keys form no group. *)
Definition group_keys (df : list StationRow) : list Z :=
  merge_sort Z.le (remove_dups (omap station_id df)).

(** [df_stations.groupby('station_id', as_index=False).first()] *)
Definition groupby_first (df : list StationRow) : list StationRow :=
  (λ key, let g := group key df in
          mkStationRow (Some key)
                       (first_valid (station_name <$> g))
                       (first_valid (lat <$> g))
                       (first_valid (lng <$> g))) <$> group_keys df.

(** The whole first row of a group: what a "first record per id" would be. *)
Definition first_record (key : Z) (df : list StationRow) : option StationRow :=
  head (group key df).

(** [df.set_index('station_id')[col].to_dict()] *)
Definition to_dict {A} (col : StationRow → option A) (df : list StationRow)
  : gmap Z (option A) :=
  list_to_map (omap (λ r, (λ k, (k, col r)) <$> station_id r) df).

(** [combined_stations] of a file once the rows without an id are dropped:
    every station observation of the file, trip starts before trip ends. *)
Definition observations (df_temp : list Trip) : list StationRow :=
  dropna_station_id (start_stations df_temp ++ end_stations df_temp).

Section Scan.

Variable sort_values : list StationRow → list StationRow.

(** The body of the phase 1 loop for one file. *)
Definition scan_file (df_temp : list Trip) : list StationRow :=
  drop_duplicates (sort_values (observations df_temp)).

(** [stations_list] after the loop, concatenated. *)
Definition concat_stations (csv_files : list (list Trip)) : list StationRow :=
  concat (scan_file <$> csv_files).

(** [df_stations], the station master file. *)
Definition df_stations (csv_files : list (list Trip)) : list StationRow :=
  groupby_first (concat_stations csv_files).

Definition map_names csv_files := to_dict station_name (df_stations csv_files).
Definition map_lat csv_files := to_dict lat (df_stations csv_files).
Definition map_lng csv_files := to_dict lng (df_stations csv_files).

End Scan.

End Registry.

(** ** The whole of [make_dataset.py] *)

Module MakeDataset.

Section Run.

Variable sort_values : list Registry.StationRow → list Registry.StationRow.

(** Phase 2: every file is read again and cleaned against the three dicts
    of phase 1; one frame is written per file, in the order of [csv_files]. *)
Definition phase2 (csv_files : list (list Trip)) : list (list Trip) :=
  Normalizer.process_file (Registry.map_names sort_values csv_files)
                          (Registry.map_lat sort_values csv_files)
                          (Registry.map_lng sort_values csv_files)
    <$> csv_files.

(** The script: it stops at once when there is no file ([if not csv_files:
    exit()]), and otherwise writes the station master file and the cleaned
    frames. *)
Definition main (csv_files : list (list Trip))
  : option (list Registry.StationRow * list (list Trip)) :=
  match csv_files with
  | [] => None
  | _ => Some (Registry.df_stations sort_values csv_files, phase2 csv_files)
  end.

End Run.

End MakeDataset.

(** ** Temporal enrichment ([enrich_trips.py]) *)

Module Enrich.

(** The five measured columns of [df_weather]; a cell may be null. *)
Record Weather := mkWeather {
  temperature_c : option Q;
  precipitation_mm : option Q;
  wind_speed_kmh : option Q;
  relative_humidity : option Q;
  cloud_cover : option Q
}.

Definition null_weather : Weather := mkWeather None None None None None.

(** A row of [df_weather]: the index [time] and the measurements. *)
Record WeatherRow := mkWeatherRow { time : Timestamp; observed : Weather }.

(** A row of [df_sun]. *)
Record SunRow := mkSunRow {
  date_key : Z;
  sunrise : Timestamp;
  sunset : Timestamp
}.

(** [get_sun_cycles]: one row per day of [pd.date_range('2025-01-01',
    '2025-12-31', freq='D')]; [sun] stands for the astral calculator. *)
Definition get_sun_cycles (sun : Z → Timestamp * Timestamp) : list SunRow :=
  (λ date, mkSunRow date (fst (sun date)) (snd (sun date)))
    <$> seqZ day_2025_01_01 365.

(** A row of a monthly parquet file once the station name and coordinate
    columns are dropped. *)
Record CleanTrip := mkCleanTrip {
  ride_id : string;
  rideable_type : string;
  member_casual : string;
  started_at : Timestamp;
  ended_at : Timestamp;
  start_station_id : Z;
  end_station_id : Z;
  trip_duration : Q
}.

(** [left.merge(right, how='left')] on one key: every left row is kept, in
    order, once per right row with its key, and once with nulls when no right
    row has it. *)
Definition merge_left {L R : Type} (left_on : L → Z) (right_on : R → Z)
    (left : list L) (right : list R) : list (L * option R) :=
  left ≫= (λ l,
    match filter (λ r, right_on r = left_on l) right with
    | [] => [(l, None)]
    | matches => (λ r, (l, Some r)) <$> matches
    end).

(** What the right-hand columns of a merged row are for a left key: a right
    row with that key, or nulls when the right frame has none. *)
Definition match_of {R : Type} (right_on : R → Z) (right : list R) (key : Z)
    (o : option R) : Prop :=
  match o with
  | Some r => r ∈ right ∧ right_on r = key
  | None => ∀ r, r ∈ right → right_on r ≠ key
  end.

(** Comparison of a timestamp with a nullable one: NaT compares false. *)
Definition ge_cell (t : Timestamp) (c : option Timestamp) : bool :=
  match c with
  | Some x => x <=? t
  | None => false
  end.

Definition le_cell (t : Timestamp) (c : option Timestamp) : bool :=
  match c with
  | Some x => t <=? x
  | None => false
  end.

(** The frame after both merges, before the auxiliary columns are removed. *)
Record MergedRow := mkMergedRow {
  m_trip : CleanTrip;
  m_temp_time : Timestamp;
  m_weather : option WeatherRow;
  m_temp_date : Z;
  m_sun : option SunRow
}.

Definition merged (df_weather : list WeatherRow) (df_sun : list SunRow)
    (df_month : list CleanTrip) : list MergedRow :=
  let with_temp_time := (λ t, (t, dt_round_h (started_at t))) <$> df_month in
  let with_weather := merge_left snd time with_temp_time df_weather in
  let with_temp_date :=
    (λ tw, (tw, dt_date (started_at (fst (fst tw))))) <$> with_weather in
  let with_sun := merge_left snd date_key with_temp_date df_sun in
  (λ row, let '(((t, temp_time), w), temp_date, s) := row in
          mkMergedRow t temp_time w temp_date s) <$> with_sun.

(** [(started_at >= sunrise) & (started_at <= sunset)], then [astype(int)]. *)
Definition is_day_of (row : MergedRow) : Z :=
  Z.b2z (ge_cell (started_at (m_trip row)) (sunrise <$> m_sun row)
         && le_cell (started_at (m_trip row)) (sunset <$> m_sun row)).

(** [dt.dayofweek.isin([5, 6]).astype(int)] *)
Definition is_weekend_of (t : Timestamp) : Z :=
  Z.b2z (bool_decide (dt_dayofweek t ∈ [5; 6])).

(** A row of the enriched monthly file. *)
Record EnrichedTrip := mkEnrichedTrip {
  trip : CleanTrip;
  weather : Weather;
  is_day : Z;
  is_weekend : Z
}.

Definition finish (row : MergedRow) : EnrichedTrip :=
  {| trip := m_trip row;
     weather := from_option observed null_weather (m_weather row);
     is_day := is_day_of row;
     is_weekend := is_weekend_of (started_at (m_trip row)) |}.

(** The body of the month loop. *)
Definition enrich_month (df_weather : list WeatherRow) (df_sun : list SunRow)
    (df_month : list CleanTrip) : list EnrichedTrip :=
  finish <$> merged df_weather df_sun df_month.

(** The character ['-']. *)
Definition dash : Ascii.ascii := Ascii.ascii_of_nat 45.

(** [s.split('-')[0]]: the characters before the first dash, all of [s]
    when it has none. *)
Fixpoint before_dash (s : string) : string :=
  match s with
  | EmptyString => EmptyString
  | String c s' =>
      if Ascii.eqb c dash then EmptyString else String c (before_dash s')
  end.

(** The order Python's [sorted] puts strings in. *)
Definition string_le (a b : string) : Prop := String.leb a b = true.

#[global] Instance string_le_dec a b : Decision (string_le a b).
Proof. unfold string_le. apply _. Defined.

(** [months]: the sorted set of the month labels of the file names (files
    are named by their basename). *)
Definition months (all_files : list string) : list string :=
  merge_sort string_le (remove_dups (before_dash <$> all_files)).

(** [month_files]: the files whose name starts with the label. *)
Definition month_files (all_files : list string) (month : string)
  : list string :=
  filter (λ f, String.prefix month f = true) all_files.

(** The month loop: [pd.read_parquet(month_files)] reads and concatenates
    the files of the month, which are then enriched together; [read_parquet]
    stands for the content of a file once the station columns are dropped. *)
Definition enrich_all (df_weather : list WeatherRow) (df_sun : list SunRow)
    (read_parquet : string → list CleanTrip) (all_files : list string)
  : list (string * list EnrichedTrip) :=
  (λ month, (month, enrich_month df_weather df_sun
                      (concat (read_parquet <$> month_files all_files month))))
    <$> months all_files.

End Enrich.

(** ** Demand signatures ([create_signatures.py]) *)

Module Signatures.

(** *** float64 *)

Definition float := spec_float.

Definition prec : Z := 53.
Definition emax : Z := 1024.

Definition fadd : float → float → float := SFadd prec emax.
Definition fsub : float → float → float := SFsub prec emax.
Definition fmul : float → float → float := SFmul prec emax.
Definition fdiv : float → float → float := SFdiv prec emax.
Definition fltb : float → float → bool := SFltb.

(** Conversion of an int64 to float64, rounding to nearest even. *)
Definition of_int (n : Z) : float := binary_normalize prec emax n 0 false.

Definition f0 : float := S754_zero false.
Definition f1 : float := of_int 1.

(** [np.finfo(np.float64).eps], 2^-52. *)
Definition eps : float := S754_finite false 4503599627370496 (-104).

(** Zero or a positive finite number: neither NaN, nor infinite, nor
    negative, nor the negative zero. *)
Definition finite_nonneg (x : float) : Prop :=
  match x with
  | S754_zero false => True
  | S754_finite false _ _ => True
  | _ => False
  end.


(** A cell of a row that is zero except at its peak. *)
Definition zero_or (peak x : float) : Prop := x = f0 ∨ x = peak.

(** [np.min] and [np.max] along an axis without NaN. *)
Definition fmin (a b : float) : float := if fltb b a then b else a.
Definition fmax (a b : float) : float := if fltb a b then b else a.

Definition np_min (xs : list float) : float :=
  match xs with
  | [] => S754_nan
  | x :: xs' => foldl fmin x xs'
  end.

Definition np_max (xs : list float) : float :=
  match xs with
  | [] => S754_nan
  | x :: xs' => foldl fmax x xs'
  end.

(** *** [MinMaxScaler] with its default [feature_range=(0, 1)], on one
    feature (one column of [pivot.T], that is one station) *)

(** [_handle_zeros_in_scale]: a range below [10 * eps] is replaced by 1. *)
Definition handle_zeros_in_scale (scale : float) : float :=
  if fltb scale (fmul (of_int 10) eps) then f1 else scale.

(** [fit]: [scale_] and [min_] of the feature. *)
Definition scale_ (xs : list float) : float :=
  let data_range := fsub (np_max xs) (np_min xs) in
  fdiv (of_int (1 - 0)) (handle_zeros_in_scale data_range).

Definition min_ (xs : list float) : float :=
  fsub (of_int 0) (fmul (np_min xs) (scale_ xs)).

(** [transform]: [X *= self.scale_; X += self.min_]. *)
Definition fit_transform (xs : list float) : list float :=
  (λ x, fadd (fmul x (scale_ xs)) (min_ xs)) <$> xs.

(** *** The frames *)

(** The three columns read from the enriched files. *)
Record Row := mkRow {
  start_station_id : option Z;
  started_at : Timestamp;
  is_weekend : Z
}.

Definition hour (r : Row) : Z := dt_hour (started_at r).

(** [df_all]: the files concatenated, rows without a station dropped. *)
Definition df_all (files : list (list Row)) : list Row :=
  filter (λ r, is_Some (start_station_id r)) (concat files).

(** [df_all[df_all['is_weekend'] == is_weekend]] *)
Definition subset_of (is_weekend_flag : Z) (df : list Row) : list Row :=
  filter (λ r, is_weekend r = is_weekend_flag) df.

(** [groupby(['start_station_id', 'hour']).size().reset_index(name='count')]:
    one row per observed (station, hour) pair, with its number of trips. *)
Definition group_size (station h : Z) (subset : list Row) : nat :=
  length (filter (λ r, start_station_id r = Some station ∧ hour r = h) subset).

Definition observed_pairs (subset : list Row) : list (Z * Z) :=
  remove_dups (omap (λ r, (λ s, (s, hour r)) <$> start_station_id r) subset).

Definition hourly_counts (subset : list Row) : list (Z * Z * nat) :=
  (λ p, (p, group_size (fst p) (snd p) subset)) <$> observed_pairs subset.

(** A frame indexed by station with one column per hour label. *)
Record Frame := mkFrame {
  index : list Z;
  columns : list Z;
  cell : Z → Z → option float
}.

(** [hourly_counts.pivot(index='start_station_id', columns='hour',
    values='count')]: a (station, hour) pair without a row is NaN. *)
Definition pivot (counts : list (Z * Z * nat)) : Frame :=
  {| index := merge_sort Z.le (remove_dups ((λ c, fst (fst c)) <$> counts));
     columns := merge_sort Z.le (remove_dups ((λ c, snd (fst c)) <$> counts));
     cell := λ station h,
       (λ c, of_int (Z.of_nat (snd c)))
         <$> head (filter (λ c, fst c = (station, h)) counts) |}.

(** [.fillna(0)] *)
Definition fillna_0 (f : Frame) : Frame :=
  {| index := index f;
     columns := columns f;
     cell := λ station h, Some (default f0 (cell f station h)) |}.

(** [if h not in pivot.columns: pivot[h] = 0], a new last column. *)
Definition ensure_column (f : Frame) (h : Z) : Frame :=
  if bool_decide (h ∈ columns f) then f
  else {| index := index f;
          columns := columns f ++ [h];
          cell := λ station h', if bool_decide (h' = h) then Some (of_int 0)
                                else cell f station h' |}.

(** [for h in range(24): ...] *)
Definition ensure_hours (f : Frame) : Frame :=
  foldl ensure_column f (seqZ 0 24).

(** [pivot[sorted(pivot.columns)]] *)
Definition sort_columns (f : Frame) : Frame :=
  {| index := index f;
     columns := merge_sort Z.le (columns f);
     cell := cell f |}.

(** [pivot.values], row by row; a null cell is NaN. *)
Definition values_of (f : Frame) (station : Z) : list float :=
  (λ h, default S754_nan (cell f station h)) <$> columns f.

(** The pivot handed to the scaler, for one partition. *)
Definition pivot_of (is_weekend_flag : Z) (files : list (list Row)) : Frame :=
  let subset := subset_of is_weekend_flag (df_all files) in
  sort_columns (ensure_hours (fillna_0 (pivot (hourly_counts subset)))).

(** [normalized_values = scaler.fit_transform(pivot.T).T], row by row: each
    station is one feature of [pivot.T].  [MinMaxScaler.fit] raises
    [ValueError] on an array without features, which is what [pivot.T] is
    when the partition has no trip with a start station; [None] stands for
    that exception. *)
Definition normalized_values (p : Frame) : option (list (list float)) :=
  match index p with
  | [] => None
  | _ => Some ((λ station, fit_transform (values_of p station)) <$> index p)
  end.

(** [df_signature = pd.DataFrame(normalized_values, index=pivot.index, ...)]
    for one pass of the loop; its 24 columns are labelled [h_00] to [h_23]
    by position.  There is no frame when the scaler raised. *)
Definition df_signature (is_weekend_flag : Z) (files : list (list Row))
  : option (list (Z * list float)) :=
  let p := pivot_of is_weekend_flag files in
  zip (index p) <$> normalized_values p.

(** The count vector of a station: its trips in each of the 24 hours. *)
Definition count_row (is_weekend_flag : Z) (files : list (list Row))
    (station : Z) : list float :=
  (λ h, of_int (Z.of_nat
     (group_size station h (subset_of is_weekend_flag (df_all files)))))
    <$> seqZ 0 24.

(** What a call of [generate_signatures] leaves on disk: [None] for a file
    that was not written. *)
Record Written := mkWritten {
  signatures_weekday : option (list (Z * list float));
  signatures_weekend : option (list (Z * list float))
}.

(** [generate_signatures()].  [pd.concat] raises on an empty list of files.
    The loop handles the weekday partition first: an exception in that pass
    ends the call before any file is written, and an exception in the
    weekend pass leaves the weekday file alone on disk. *)
Definition generate_signatures (files : list (list Row)) : Written :=
  match files with
  | [] => mkWritten None None
  | _ =>
      match df_signature 0 files with
      | None => mkWritten None None
      | Some weekday => mkWritten (Some weekday) (df_signature 1 files)
      end
  end.

End Signatures.

(** ** Example inputs *)

Module Examples.

(** A trip between two different stations lasting [seconds] seconds. *)
Definition trip_lasting (seconds : Z) : Trip :=
  {| ride_id := "A1"; rideable_type := "classic_bike"; member_casual := "member";
     started_at := Some (at_time day_2025_01_01 9 0 0);
     ended_at := Some (at_time day_2025_01_01 9 0 0 + seconds * ns_per_second);
     start_station_id := Some 5329; start_station_name := Some "W 21 St";
     start_lat := Some (40 # 1)%Q; start_lng := Some (-74 # 1)%Q;
     end_station_id := Some 6140; end_station_name := None;
     end_lat := None; end_lng := Some (-73 # 1)%Q |}.

(** A trip whose six station attributes are all present. *)
Definition complete_trip : Trip :=
  {| ride_id := "B2"; rideable_type := "electric_bike"; member_casual := "casual";
     started_at := Some (at_time day_2025_01_01 9 0 0);
     ended_at := Some (at_time day_2025_01_01 9 20 0);
     start_station_id := Some 5329; start_station_name := Some "W 21 St";
     start_lat := Some (40 # 1)%Q; start_lng := Some (-74 # 1)%Q;
     end_station_id := Some 6140; end_station_name := Some "Broadway";
     end_lat := Some (41 # 1)%Q; end_lng := Some (-73 # 1)%Q |}.

(** Registry dicts that disagree with [complete_trip] on every attribute. *)
Definition other_names : gmap Z (option string) :=
  {[ 5329 := Some "Renamed"; 6140 := Some "Moved" ]}.
Definition other_coords : gmap Z (option Q) :=
  {[ 5329 := Some (1 # 1)%Q; 6140 := Some (2 # 1)%Q ]}.

(** A cleaned ten-minute trip starting at [t]. *)
Definition clean_trip_at (t : Timestamp) : Enrich.CleanTrip :=
  {| Enrich.ride_id := "C3"; Enrich.rideable_type := "classic_bike";
     Enrich.member_casual := "member";
     Enrich.started_at := t; Enrich.ended_at := t + 600 * ns_per_second;
     Enrich.start_station_id := 5329; Enrich.end_station_id := 6140;
     Enrich.trip_duration := (600 # 1)%Q |}.

Definition weather_at (temperature : Q) : Enrich.Weather :=
  Enrich.mkWeather (Some temperature) (Some (0 # 1)%Q) (Some (12 # 1)%Q)
                   (Some (55 # 1)%Q) (Some (80 # 1)%Q).

(** Hourly observations of 2025-01-01 at 14:00 and 15:00. *)
Definition weather_afternoon : list Enrich.WeatherRow :=
  [ Enrich.mkWeatherRow (at_time day_2025_01_01 14 0 0) (weather_at (4 # 1)%Q);
    Enrich.mkWeatherRow (at_time day_2025_01_01 15 0 0) (weather_at (3 # 1)%Q) ].

(** Sunrise 07:20 and sunset 16:39 on 2025-01-01, and nothing else. *)
Definition sun_new_year : list Enrich.SunRow :=
  [ Enrich.mkSunRow day_2025_01_01 (at_time day_2025_01_01 7 20 0)
                    (at_time day_2025_01_01 16 39 0) ].

(** A raw trip between two stations, with the given station attributes. *)
Definition trip_between (sid : Z) (sname : option string) (slat slng : option Q)
    (eid : Z) (ename : option string) (elat elng : option Q) : Trip :=
  {| ride_id := "D4"; rideable_type := "classic_bike"; member_casual := "member";
     started_at := Some (at_time day_2025_01_01 9 0 0);
     ended_at := Some (at_time day_2025_01_01 9 10 0);
     start_station_id := Some sid; start_station_name := sname;
     start_lat := slat; start_lng := slng;
     end_station_id := Some eid; end_station_name := ename;
     end_lat := elat; end_lng := elng |}.

(** Two files that both mention station 72: the first without its name, the
    second with its name and with other coordinates. *)
Definition file_a : list Trip :=
  [ trip_between 72 None (Some (4076 # 100)%Q) (Some (-7399 # 100)%Q)
                 79 (Some "Franklin St") (Some (4071 # 100)%Q) (Some (-7400 # 100)%Q) ].

Definition file_b : list Trip :=
  [ trip_between 72 (Some "W 52 St") (Some (4077 # 100)%Q) (Some (-7398 # 100)%Q)
                 79 (Some "Franklin St") (Some (4071 # 100)%Q) (Some (-7400 # 100)%Q) ].

(** One file in which station 72 is seen under two names, the later trip
    carrying the alphabetically earlier one. *)
Definition file_two_names : list Trip :=
  [ trip_between 72 (Some "W 52 St") (Some (4076 # 100)%Q) (Some (-7399 # 100)%Q)
                 79 (Some "Franklin St") (Some (4071 # 100)%Q) (Some (-7400 # 100)%Q);
    trip_between 72 (Some "11 Ave") (Some (4077 # 100)%Q) (Some (-7398 # 100)%Q)
                 79 None None None ].

(** A weekday trip from station 7 starting ten minutes past hour [h]. *)
Definition weekday_trip_at (h : Z) : Signatures.Row :=
  Signatures.mkRow (Some 7) (at_time day_2025_01_01 h 10 0) 0.

(** A trip from station 7 on Saturday 2025-01-04. *)
Definition weekend_trip_at (h : Z) : Signatures.Row :=
  Signatures.mkRow (Some 7) (at_time (day_2025_01_01 + 3) h 10 0) 1.

(** Station 7 with 49 weekday trips, all between 08:00 and 09:00. *)
Definition files_49_at_eight : list (list Signatures.Row) :=
  [ replicate 49 (weekday_trip_at 8) ].

(** Station 7 with one weekday trip in every hour and five more, six in
    all, between 08:00 and 09:00. *)
Definition files_busy_all_day : list (list Signatures.Row) :=
  [ weekday_trip_at <$> seqZ 0 24; replicate 5 (weekday_trip_at 8) ].

(** Station 7 with two weekday trips in every hour. *)
Definition files_two_every_hour : list (list Signatures.Row) :=
  [ weekday_trip_at <$> seqZ 0 24; weekday_trip_at <$> seqZ 0 24 ].

(** Station 7 with two weekday trips between 08:00 and 09:00 and one
    between 09:00 and 10:00. *)
Definition files_morning : list (list Signatures.Row) :=
  [ [weekday_trip_at 8; weekday_trip_at 8; weekday_trip_at 9] ].

End Examples.

(** * Properties *)

(** ** Lists *)

Section ListFacts.

Lemma filter_none {A} (P : A → Prop) `{∀ x, Decision (P x)} (l : list A) :
  (∀ x, x ∈ l → ¬ P x) → filter P l = [].
Proof.
  induction l as [|x l IH]; intros Hall; [done|].
  rewrite filter_cons_False by (apply Hall; left).
  apply IH. intros y Hy. apply Hall. by right.
Qed.

(** With unique keys, at most one row has a given key. *)
Lemma filter_unique_key {R K : Type} `{EqDecision K} (key_of : R → K)
    (rows : list R) (k : K) :
  NoDup (key_of <$> rows) →
  (length (filter (λ r, key_of r = k) rows) ≤ 1)%nat.
Proof.
  induction rows as [|r rows IH]; intros Hnd; [simpl; lia|].
  rewrite fmap_cons in Hnd. apply NoDup_cons in Hnd as [Hnotin Hnd].
  rewrite filter_cons. case_decide as Hk.
  - assert (filter (λ r, key_of r = k) rows = []) as ->; [|simpl; lia].
    apply filter_none. intros r' Hr' Hk'.
    apply Hnotin. apply list_elem_of_fmap. exists r'. split; [congruence|done].
  - by apply IH.
Qed.

Lemma NoDup_fmap_elem_inj {A K} (f : A → K) (l : list A) (x y : A) :
  NoDup (f <$> l) → x ∈ l → y ∈ l → f x = f y → x = y.
Proof.
  induction l as [|a l IH]; intros Hnd Hx Hy Hf; [by apply elem_of_nil in Hx|].
  rewrite fmap_cons in Hnd. apply NoDup_cons in Hnd as [Hnotin Hnd].
  apply elem_of_cons in Hx as [-> | Hx]; apply elem_of_cons in Hy as [-> | Hy].
  - done.
  - exfalso. apply Hnotin. apply list_elem_of_fmap. by exists y.
  - exfalso. apply Hnotin. apply list_elem_of_fmap. by exists x.
  - by apply IH.
Qed.

(** The rows with the key of a row of the list, when keys are unique. *)
Lemma filter_key_singleton {R K : Type} `{EqDecision K} (key_of : R → K)
    (rows : list R) (r : R) :
  NoDup (key_of <$> rows) → r ∈ rows →
  filter (λ r', key_of r' = key_of r) rows = [r].
Proof.
  intros Hnd Hr.
  pose proof (filter_unique_key key_of rows (key_of r) Hnd) as Hlen.
  assert (r ∈ filter (λ r', key_of r' = key_of r) rows) as Hin
    by by apply list_elem_of_filter.
  destruct (filter (λ r', key_of r' = key_of r) rows) as [|r0 [|r1 rs]];
    simpl in *; [by apply elem_of_nil in Hin | | lia].
  by apply list_elem_of_singleton in Hin as ->.
Qed.

Lemma fmap_fmap_pointwise {A B B' C} (f : B → C) (g : A → B)
    (f' : B' → C) (g' : A → B') (l : list A) :
  (∀ x, f (g x) = f' (g' x)) → f <$> (g <$> l) = f' <$> (g' <$> l).
Proof.
  intros Hfg. induction l as [|x l IH]; [done|].
  by rewrite !fmap_cons, Hfg, IH.
Qed.

Lemma fmap_fmap_one {A B C} (f : B → C) (g : A → B) (h : A → C) (l : list A) :
  (∀ x, f (g x) = h x) → f <$> (g <$> l) = h <$> l.
Proof.
  intros Hfg. induction l as [|x l IH]; [done|].
  by rewrite !fmap_cons, Hfg, IH.
Qed.

Lemma fmap_fmap_id {A B} (f : B → A) (g : A → B) (l : list A) :
  (∀ x, f (g x) = x) → f <$> (g <$> l) = l.
Proof.
  intros Hfg. induction l as [|x l IH]; [done|].
  by rewrite !fmap_cons, Hfg, IH.
Qed.

Lemma fmap_pointwise {A B} (f g : A → B) (l : list A) :
  (∀ x, x ∈ l → f x = g x) → f <$> l = g <$> l.
Proof.
  induction l as [|x l IH]; intros Hfg; [done|].
  rewrite !fmap_cons, Hfg by left. f_equal. apply IH.
  intros y Hy. apply Hfg. by right.
Qed.

Lemma filter_concat {A} (P : A → Prop) `{∀ x, Decision (P x)}
    (ls : list (list A)) :
  filter P (concat ls) = concat (filter P <$> ls).
Proof.
  induction ls as [|l ls IH]; [done|].
  simpl. by rewrite filter_app, IH.
Qed.

Lemma elem_of_concat {A} (x : A) (ls : list (list A)) :
  x ∈ concat ls ↔ ∃ l, x ∈ l ∧ l ∈ ls.
Proof.
  induction ls as [|l0 ls IH]; simpl.
  - split; [by intros ?%elem_of_nil | by intros (? & _ & ?%elem_of_nil)].
  - rewrite elem_of_app, IH. split.
    + intros [Hx | (l & Hx & Hl)]; [exists l0 | exists l];
        (split; [done|]); [by left | by right].
    + intros (l & Hx & [-> | Hl]%elem_of_cons); [by left | right; by exists l].
Qed.

End ListFacts.

(** ** Trip normaliser *)

Section NormalizerFacts.

Import Normalizer.

Lemma lt_const_false (d : Q) (c : Z) :
  lt_const (Some d) c = false ↔ (inject_Z c <= d)%Q.
Proof.
  unfold lt_const. rewrite negb_false_iff. apply Qle_bool_iff.
Qed.

Lemma gt_const_false (d : Q) (c : Z) :
  gt_const (Some d) c = false ↔ (d <= inject_Z c)%Q.
Proof.
  unfold gt_const. rewrite negb_false_iff. apply Qle_bool_iff.
Qed.

Lemma has_dates_duration (r : Trip) :
  has_dates r = true ↔ is_Some (trip_duration r).
Proof.
  unfold has_dates, trip_duration.
  destruct (started_at r), (ended_at r); simpl; split;
    first [ done | intros [? ?]; done | eauto ].
Qed.

(** A row is kept by the validity filter exactly when it is in the file, has
    both dates, a duration of at least 180 s and at most 10800 s, and
    station ids that do not compare equal. *)
Lemma valid_trips_spec (df : list Trip) (r : Trip) :
  r ∈ valid_trips df ↔
  r ∈ df ∧ ∃ d, trip_duration r = Some d
              ∧ (inject_Z 180 <= d)%Q ∧ (d <= inject_Z 10800)%Q
              ∧ eq_cells (start_station_id r) (end_station_id r) = false.
Proof.
  unfold valid_trips. rewrite !list_elem_of_filter, negb_true_iff.
  unfold invalid_mask. rewrite !orb_false_iff, has_dates_duration.
  split.
  - intros ([[Hlt Hgt] Heq] & [d Hd] & Hin). split; [done|].
    exists d. rewrite Hd in Hlt, Hgt.
    apply lt_const_false in Hlt. apply gt_const_false in Hgt. done.
  - intros (Hin & d & Hd & Hlo & Hhi & Heq).
    rewrite Hd. split_and!; try done.
    + by apply lt_const_false.
    + by apply gt_const_false.
Qed.

(** C1 (as the code has it): a row survives the validity filter only if its
    duration is at least 180 s and at most 10800 s, both bounds included, and
    its two station ids differ; a trip between different stations lasting
    exactly 180, 10799 or 10800 seconds is kept. *)
Theorem C1_validity_window_inclusive :
  (∀ (df : list Trip) (r : Trip),
     r ∈ valid_trips df →
     ∃ d, trip_duration r = Some d
          ∧ (inject_Z 180 <= d)%Q ∧ (d <= inject_Z 10800)%Q
          ∧ eq_cells (start_station_id r) (end_station_id r) = false)
  ∧ (∀ (r : Trip) (d : Q),
       trip_duration r = Some d →
       (d == inject_Z 180 ∨ d == inject_Z 10799 ∨ d == inject_Z 10800)%Q →
       eq_cells (start_station_id r) (end_station_id r) = false →
       valid_trips [r] = [r]).
Proof.
  split.
  - intros df r Hr. by apply valid_trips_spec in Hr as [_ ?].
  - intros r d Hd Hcase Hne.
    assert (r ∈ valid_trips [r]) as Hin.
    { apply valid_trips_spec. split; [by left|].
      exists d. split_and!; try done.
      - destruct Hcase as [-> | [-> | ->]]; rewrite <- Zle_Qle; lia.
      - destruct Hcase as [-> | [-> | ->]]; rewrite <- Zle_Qle; lia. }
    unfold valid_trips in *.
    apply list_elem_of_filter in Hin as [Hmask Hin].
    apply list_elem_of_filter in Hin as [Hdates _].
    rewrite (filter_cons_True _ r []) by done.
    rewrite (filter_cons_True _ r _) by done.
    done.
Qed.

Lemma C1_validity_window_inclusive_witness :
  valid_trips [Examples.trip_lasting 10799] = [Examples.trip_lasting 10799].
Proof.
  apply (proj2 C1_validity_window_inclusive (Examples.trip_lasting 10799)
               (total_seconds (10799 * ns_per_second))).
  - reflexivity.
  - right; left. reflexivity.
  - reflexivity.
Defined.

(** A trip of exactly 10800 seconds between two different stations passes
    the validity filter, although 10800 is not strictly below 10800. *)
Lemma C1_duration_10800_is_kept :
  valid_trips [Examples.trip_lasting 10800] = [Examples.trip_lasting 10800]
  ∧ ∃ d, trip_duration (Examples.trip_lasting 10800) = Some d
         ∧ (d == inject_Z 10800)%Q ∧ ¬ (d < inject_Z 10800)%Q.
Proof.
  split.
  - vm_compute. reflexivity.
  - exists (total_seconds (10800 * ns_per_second)). split_and!.
    + reflexivity.
    + reflexivity.
    + intros H. vm_compute in H. discriminate H.
Qed.

Lemma fillna_present {A} (v : A) (other : option A) :
  fillna (Some v) other = Some v.
Proof. reflexivity. Qed.

Lemma fillna_idemp {A} (cell other : option A) :
  fillna (fillna cell other) other = fillna cell other.
Proof. by destruct cell, other. Qed.

(** C5: imputation keeps every station attribute that is present and gives a
    null one the registry's value for the row's station id; a row whose six
    station attributes are all present comes out unchanged; imputing twice is
    imputing once. *)
Theorem C5_impute_only_fills_nulls
    (map_names : gmap Z (option string)) (map_lat map_lng : gmap Z (option Q))
    (r : Trip) :
  let r' := impute map_names map_lat map_lng r in
  ((∀ v, start_station_name r = Some v → start_station_name r' = Some v)
   ∧ (∀ v, start_lat r = Some v → start_lat r' = Some v)
   ∧ (∀ v, start_lng r = Some v → start_lng r' = Some v)
   ∧ (∀ v, end_station_name r = Some v → end_station_name r' = Some v)
   ∧ (∀ v, end_lat r = Some v → end_lat r' = Some v)
   ∧ (∀ v, end_lng r = Some v → end_lng r' = Some v))
  ∧ ((start_station_name r = None →
        start_station_name r' = series_map map_names (start_station_id r))
     ∧ (start_lat r = None → start_lat r' = series_map map_lat (start_station_id r))
     ∧ (start_lng r = None → start_lng r' = series_map map_lng (start_station_id r))
     ∧ (end_station_name r = None →
          end_station_name r' = series_map map_names (end_station_id r))
     ∧ (end_lat r = None → end_lat r' = series_map map_lat (end_station_id r))
     ∧ (end_lng r = None → end_lng r' = series_map map_lng (end_station_id r)))
  ∧ (is_Some (start_station_name r) → is_Some (start_lat r) →
     is_Some (start_lng r) → is_Some (end_station_name r) →
     is_Some (end_lat r) → is_Some (end_lng r) → r' = r)
  ∧ impute map_names map_lat map_lng r' = r'.
Proof.
  destruct r as [rid rt mc sa ea sid sname slat slng eid ename elat elng].
  simpl. split_and!.
  - by intros v ->.
  - by intros v ->.
  - by intros v ->.
  - by intros v ->.
  - by intros v ->.
  - by intros v ->.
  - by intros ->.
  - by intros ->.
  - by intros ->.
  - by intros ->.
  - by intros ->.
  - by intros ->.
  - by intros [? ->] [? ->] [? ->] [? ->] [? ->] [? ->].
  - unfold impute; simpl. by rewrite !fillna_idemp.
Qed.

Lemma C5_impute_only_fills_nulls_witness :
  impute Examples.other_names Examples.other_coords Examples.other_coords
         Examples.complete_trip = Examples.complete_trip.
Proof.
  apply (C5_impute_only_fills_nulls Examples.other_names Examples.other_coords
           Examples.other_coords Examples.complete_trip);
    simpl; eauto.
Defined.

End NormalizerFacts.

(** ** Temporal enrichment *)

Section EnrichFacts.

Import Enrich.

Lemma ns_per_hour_eq : ns_per_hour = 3600000000000.
Proof. reflexivity. Qed.

(** The rounding picks a whole number of hours, at most half an hour away
    from the timestamp, and the even one when both neighbours are that far. *)
Lemma dt_round_h_nearest_even (t : Timestamp) :
  ∃ q, dt_round_h t = q * ns_per_hour
       ∧ Z.abs (t - dt_round_h t) ≤ ns_per_hour / 2
       ∧ (Z.abs (t - dt_round_h t) = ns_per_hour / 2 → Z.even q = true).
Proof.
  unfold dt_round_h, round_nsint64. rewrite ns_per_hour_eq.
  change (3600000000000 / 2) with 1800000000000.
  pose proof (Z.div_mod t 3600000000000 ltac:(lia)) as Hdm.
  pose proof (Z.mod_pos_bound t 3600000000000 ltac:(lia)) as Hb.
  set (q := t / 3600000000000) in *. set (r := t mod 3600000000000) in *.
  destruct (Z.ltb_spec 1800000000000 r) as [Hlt | Hge]; simpl.
  - exists (q + 1). split_and!; [done | lia | lia].
  - destruct (Z.eqb_spec r 1800000000000) as [Heq | Hne]; simpl.
    + destruct (Z.odd q) eqn:Hodd.
      * exists (q + 1). split_and!; [done | lia |].
        intros _. rewrite Z.even_add, <- Z.negb_odd, Hodd. reflexivity.
      * exists q. split_and!; [done | lia |].
        intros _. by rewrite <- Z.negb_odd, Hodd.
    + exists q. split_and!; [done | lia | lia].
Qed.

(** An exact half hour goes to the even neighbouring hour. *)
Lemma dt_round_h_half (q : Z) :
  dt_round_h (q * ns_per_hour + ns_per_hour / 2)
  = (if Z.even q then q else q + 1) * ns_per_hour.
Proof.
  unfold dt_round_h, round_nsint64. rewrite ns_per_hour_eq.
  change (3600000000000 / 2) with 1800000000000.
  assert ((q * 3600000000000 + 1800000000000) / 3600000000000 = q) as ->.
  { symmetry. apply (Z.div_unique _ _ q 1800000000000); lia. }
  assert ((q * 3600000000000 + 1800000000000) mod 3600000000000
          = 1800000000000) as ->.
  { symmetry. apply (Z.mod_unique _ _ q 1800000000000); lia. }
  rewrite Z.ltb_irrefl, Z.eqb_refl. simpl.
  rewrite <- Z.negb_odd. by destruct (Z.odd q).
Qed.

(** *** Left merges *)

Lemma merge_left_elem {L R : Type} (left_on : L → Z) (right_on : R → Z)
    (left : list L) (right : list R) (l : L) (o : option R) :
  (l, o) ∈ merge_left left_on right_on left right ↔
  l ∈ left ∧ match o with
             | Some r => r ∈ right ∧ right_on r = left_on l
             | None => ∀ r, r ∈ right → right_on r ≠ left_on l
             end.
Proof.
  unfold merge_left. rewrite list_elem_of_bind. split.
  - intros (l' & Hin & Hl').
    destruct (filter (λ r, right_on r = left_on l') right) as [|r0 rs] eqn:Hf.
    + apply list_elem_of_singleton in Hin. simplify_eq. split; [done|].
      intros r Hr Hk.
      assert (r ∈ filter (λ r, right_on r = left_on l') right) as Hrf
        by by apply list_elem_of_filter.
      rewrite Hf in Hrf. by apply elem_of_nil in Hrf.
    + apply list_elem_of_fmap in Hin as (r & Heq & Hr). simplify_eq.
      split; [done|]. rewrite <- Hf in Hr.
      by apply list_elem_of_filter in Hr as [? ?].
  - intros [Hl Ho]. exists l. split; [|done].
    destruct (filter (λ r, right_on r = left_on l) right) as [|r0 rs] eqn:Hf.
    + destruct o as [r|]; [|by apply list_elem_of_singleton].
      destruct Ho as [Hr Hk].
      assert (r ∈ filter (λ r, right_on r = left_on l) right) as Hrf
        by by apply list_elem_of_filter.
      rewrite Hf in Hrf. by apply elem_of_nil in Hrf.
    + destruct o as [r|].
      * destruct Ho as [Hr Hk]. apply list_elem_of_fmap. exists r.
        split; [done|]. rewrite <- Hf. by apply list_elem_of_filter.
      * exfalso. apply (Ho r0); [|].
        -- assert (r0 ∈ filter (λ r, right_on r = left_on l) right) as Hrf
             by (rewrite Hf; left).
           by apply list_elem_of_filter in Hrf as [? ?].
        -- assert (r0 ∈ filter (λ r, right_on r = left_on l) right) as Hrf
             by (rewrite Hf; left).
           by apply list_elem_of_filter in Hrf as [? ?].
Qed.

(** A left merge against unique keys keeps the left rows one for one. *)
Lemma merge_left_fst {L R : Type} (left_on : L → Z) (right_on : R → Z)
    (left : list L) (right : list R) :
  NoDup (right_on <$> right) →
  fst <$> merge_left left_on right_on left right = left.
Proof.
  intros Hnd. unfold merge_left.
  induction left as [|l left IH]; [done|].
  rewrite bind_cons, fmap_app, IH. clear IH.
  pose proof (filter_unique_key right_on right (left_on l) Hnd) as Hlen.
  destruct (filter (λ r, right_on r = left_on l) right) as [|r0 [|r1 rs]];
    simpl in *; [done | done | lia].
Qed.

(** A left merge never loses a left row, whatever the right keys. *)
Lemma merge_left_keeps {L R : Type} (left_on : L → Z) (right_on : R → Z)
    (left : list L) (right : list R) (l : L) :
  l ∈ left → ∃ o, (l, o) ∈ merge_left left_on right_on left right.
Proof.
  intros Hl.
  destruct (filter (λ r, right_on r = left_on l) right) as [|r0 rs] eqn:Hf.
  - exists None. apply merge_left_elem. split; [done|]. intros r Hr Hk.
    assert (r ∈ filter (λ r, right_on r = left_on l) right) as Hrf
      by by apply list_elem_of_filter.
    rewrite Hf in Hrf. by apply elem_of_nil in Hrf.
  - exists (Some r0). apply merge_left_elem. split; [done|].
    assert (r0 ∈ filter (λ r, right_on r = left_on l) right) as Hrf
      by (rewrite Hf; left).
    by apply list_elem_of_filter in Hrf as [? ?].
Qed.

(** *** The merged frame *)

Lemma merged_elem (df_weather : list WeatherRow) (df_sun : list SunRow)
    (df_month : list CleanTrip) (row : MergedRow) :
  row ∈ merged df_weather df_sun df_month →
  m_trip row ∈ df_month
  ∧ m_temp_time row = dt_round_h (started_at (m_trip row))
  ∧ m_temp_date row = dt_date (started_at (m_trip row))
  ∧ match_of time df_weather (m_temp_time row) (m_weather row)
  ∧ match_of date_key df_sun (m_temp_date row) (m_sun row).
Proof.
  unfold merged. intros Hrow.
  apply list_elem_of_fmap in Hrow as ([[[[t tt] w] td] s] & -> & Hin).
  apply merge_left_elem in Hin as [Hin Hs]. simpl in Hs.
  apply list_elem_of_fmap in Hin as (tw & Heq & Hin). simplify_eq.
  apply merge_left_elem in Hin as [Hin Hw]. simpl in Hw.
  apply list_elem_of_fmap in Hin as (t' & Heq & Hin). simplify_eq.
  simpl. by split_and!.
Qed.

Lemma merged_trips (df_weather : list WeatherRow) (df_sun : list SunRow)
    (df_month : list CleanTrip) :
  NoDup (time <$> df_weather) → NoDup (date_key <$> df_sun) →
  m_trip <$> merged df_weather df_sun df_month = df_month.
Proof.
  intros Hw Hs. unfold merged.
  rewrite (fmap_fmap_pointwise m_trip _ (λ x, fst (fst (fst x))) fst)
    by (by intros [[[[? ?] ?] ?] ?]).
  rewrite merge_left_fst by done.
  rewrite (fmap_fmap_pointwise _ _ fst fst) by done.
  rewrite merge_left_fst by done.
  by apply fmap_fmap_id.
Qed.

Lemma get_sun_cycles_keys (sun : Z → Timestamp * Timestamp) :
  date_key <$> get_sun_cycles sun = seqZ day_2025_01_01 365.
Proof.
  unfold get_sun_cycles. by apply fmap_fmap_id.
Qed.

(** The solar table the script builds has one row per date. *)
Lemma get_sun_cycles_NoDup (sun : Z → Timestamp * Timestamp) :
  NoDup (date_key <$> get_sun_cycles sun).
Proof. rewrite get_sun_cycles_keys. apply NoDup_seqZ. Qed.

Lemma enrich_month_elem (df_weather : list WeatherRow) (df_sun : list SunRow)
    (df_month : list CleanTrip) (e : EnrichedTrip) :
  e ∈ enrich_month df_weather df_sun df_month →
  ∃ row, row ∈ merged df_weather df_sun df_month ∧ e = finish row.
Proof.
  unfold enrich_month. intros He.
  apply list_elem_of_fmap in He as (row & -> & Hrow). by exists row.
Qed.

(** C3 (as the code has it): the weather lookup key of a trip is its start
    rounded to the nearest whole hour, at most half an hour away, and a start
    at an exact half hour goes to the even one of its two neighbouring hours
    (13:30 and 14:30 both look up 14:00); the weather columns of the row are
    those of an observation at that key, or null when there is none. *)
Theorem C3_weather_key_rounds_half_to_even :
  (∀ t : Timestamp,
     ∃ q, dt_round_h t = q * ns_per_hour
          ∧ Z.abs (t - dt_round_h t) ≤ ns_per_hour / 2
          ∧ (Z.abs (t - dt_round_h t) = ns_per_hour / 2 → Z.even q = true))
  ∧ (∀ q : Z,
       dt_round_h (q * ns_per_hour + ns_per_hour / 2)
       = (if Z.even q then q else q + 1) * ns_per_hour)
  ∧ (∀ df_weather df_sun df_month row,
       row ∈ merged df_weather df_sun df_month →
       m_temp_time row = dt_round_h (started_at (m_trip row))
       ∧ match_of time df_weather (m_temp_time row) (m_weather row)).
Proof.
  split_and!.
  - apply dt_round_h_nearest_even.
  - apply dt_round_h_half.
  - intros df_weather df_sun df_month row Hrow.
    by apply merged_elem in Hrow as (_ & ? & _ & ? & _).
Qed.

Lemma C3_weather_key_rounds_half_to_even_witness :
  dt_round_h (at_time day_2025_01_01 13 30 0) = at_time day_2025_01_01 14 0 0.
Proof.
  pose proof (proj1 (proj2 C3_weather_key_rounds_half_to_even)
                (day_2025_01_01 * 24 + 13)) as H.
  exact H.
Defined.

(** A trip starting at 14:30:00 is looked up at 14:00, not at 15:00, and
    receives the 14:00 observation. *)
Lemma C3_half_past_two_looks_up_two :
  dt_round_h (at_time day_2025_01_01 14 30 0) = at_time day_2025_01_01 14 0 0
  ∧ dt_round_h (at_time day_2025_01_01 14 30 0) ≠ at_time day_2025_01_01 15 0 0
  ∧ weather <$> enrich_month Examples.weather_afternoon Examples.sun_new_year
                  [Examples.clean_trip_at (at_time day_2025_01_01 14 30 0)]
    = [Examples.weather_at (4 # 1)%Q].
Proof.
  split_and!.
  - vm_compute. reflexivity.
  - vm_compute. discriminate.
  - vm_compute. reflexivity.
Qed.

(** C6: against a weather table with one row per hour and a solar table
    with one row per date, the enriched frame has exactly the input trips, one
    row each and in order; a trip without an observation at its rounded hour
    has null weather columns.  Whatever the tables hold, every input trip is
    emitted, also one whose start date has no solar row. *)
Theorem C6_left_joins_keep_every_trip
    (df_weather : list WeatherRow) (df_sun : list SunRow)
    (df_month : list CleanTrip) :
  (∀ t, t ∈ df_month →
        ∃ e, e ∈ enrich_month df_weather df_sun df_month ∧ trip e = t)
  ∧ (∀ e, e ∈ enrich_month df_weather df_sun df_month →
          (∀ w, w ∈ df_weather → time w ≠ dt_round_h (started_at (trip e))) →
          weather e = null_weather)
  ∧ (NoDup (time <$> df_weather) → NoDup (date_key <$> df_sun) →
     trip <$> enrich_month df_weather df_sun df_month = df_month
     ∧ length (enrich_month df_weather df_sun df_month) = length df_month).
Proof.
  split_and!.
  - intros t Ht. unfold enrich_month, merged.
    pose proof (list_elem_of_fmap_2 (λ t, (t, dt_round_h (started_at t))) _ _ Ht)
      as H1.
    apply (merge_left_keeps snd time _ df_weather) in H1 as [w H1].
    pose proof (list_elem_of_fmap_2
      (λ tw : CleanTrip * Timestamp * option WeatherRow,
         (tw, dt_date (started_at (fst (fst tw))))) _ _ H1) as H2.
    apply (merge_left_keeps snd date_key _ df_sun) in H2 as [s H2].
    exists (finish (mkMergedRow t (dt_round_h (started_at t)) w
                                (dt_date (started_at t)) s)).
    split; [|done].
    apply list_elem_of_fmap. eexists. split; [reflexivity|].
    apply list_elem_of_fmap. eexists. split; [|exact H2]. reflexivity.
  - intros e He Hnone. apply enrich_month_elem in He as (row & Hrow & ->).
    apply merged_elem in Hrow as (_ & Htt & _ & Hw & _). simpl in *.
    destruct (m_weather row) as [w|]; [|done].
    destruct Hw as [Hin Hk]. exfalso. apply (Hnone w Hin). congruence.
  - intros Hw Hs.
    assert (trip <$> enrich_month df_weather df_sun df_month = df_month) as Heq.
    { unfold enrich_month.
      rewrite (fmap_fmap_pointwise trip finish m_trip id) by done.
      rewrite list_fmap_id. by apply merged_trips. }
    split; [done|]. by rewrite <- Heq at 2; rewrite length_fmap.
Qed.

Lemma C6_left_joins_keep_every_trip_witness :
  trip <$> enrich_month Examples.weather_afternoon Examples.sun_new_year
             [Examples.clean_trip_at (at_time day_2025_01_01 14 30 0);
              Examples.clean_trip_at (at_time (day_2025_01_01 + 1) 3 10 0)]
  = [Examples.clean_trip_at (at_time day_2025_01_01 14 30 0);
     Examples.clean_trip_at (at_time (day_2025_01_01 + 1) 3 10 0)]
  ∧ length (enrich_month Examples.weather_afternoon Examples.sun_new_year
             [Examples.clean_trip_at (at_time day_2025_01_01 14 30 0);
              Examples.clean_trip_at (at_time (day_2025_01_01 + 1) 3 10 0)])
    = 2%nat.
Proof.
  apply (proj2 (proj2 (C6_left_joins_keep_every_trip
           Examples.weather_afternoon Examples.sun_new_year
           [Examples.clean_trip_at (at_time day_2025_01_01 14 30 0);
            Examples.clean_trip_at (at_time (day_2025_01_01 + 1) 3 10 0)]))).
  - apply (bool_decide_unpack _). vm_compute. exact I.
  - apply (bool_decide_unpack _). vm_compute. exact I.
Defined.

(** C7: with one solar row per date, a trip whose start date has a solar
    row gets [is_day = 1] exactly when sunrise <= started_at <= sunset, both
    ends included. *)
Theorem C7_is_day_inclusive
    (df_weather : list WeatherRow) (df_sun : list SunRow)
    (df_month : list CleanTrip) (e : EnrichedTrip) (s : SunRow) :
  NoDup (date_key <$> df_sun) →
  e ∈ enrich_month df_weather df_sun df_month →
  s ∈ df_sun →
  date_key s = dt_date (started_at (trip e)) →
  is_day e = 1 ↔ sunrise s ≤ started_at (trip e) ≤ sunset s.
Proof.
  intros Hnd He Hs Hkey. apply enrich_month_elem in He as (row & Hrow & ->).
  apply merged_elem in Hrow as (_ & _ & Htd & _ & Hsun). simpl in *.
  unfold is_day_of. destruct (m_sun row) as [s'|]; simpl in *.
  - destruct Hsun as [Hs' Hk'].
    assert (s' = s) as -> by (eapply NoDup_fmap_elem_inj; eauto; congruence).
    destruct (Z.leb_spec (sunrise s) (started_at (m_trip row)));
      destruct (Z.leb_spec (started_at (m_trip row)) (sunset s));
      simpl; split; intros; try lia; done.
  - exfalso. apply (Hsun s Hs). congruence.
Qed.

Lemma C7_is_day_inclusive_witness :
  is_day (finish (mkMergedRow
            (Examples.clean_trip_at (at_time day_2025_01_01 16 39 0))
            (at_time day_2025_01_01 17 0 0) None day_2025_01_01
            (Some (Enrich.mkSunRow day_2025_01_01 (at_time day_2025_01_01 7 20 0)
                     (at_time day_2025_01_01 16 39 0))))) = 1.
Proof.
  apply (C7_is_day_inclusive [] Examples.sun_new_year
           [Examples.clean_trip_at (at_time day_2025_01_01 16 39 0)] _
           (Enrich.mkSunRow day_2025_01_01 (at_time day_2025_01_01 7 20 0)
                            (at_time day_2025_01_01 16 39 0))).
  - apply (bool_decide_unpack _). vm_compute. exact I.
  - vm_compute. left.
  - vm_compute. left.
  - vm_compute. reflexivity.
  - vm_compute. split; discriminate.
Defined.

(** C9: [is_day] is 0 or 1 on every enriched row, and it is 0 on a row
    whose start date has no solar row. *)
Theorem C9_is_day_is_a_bit
    (df_weather : list WeatherRow) (df_sun : list SunRow)
    (df_month : list CleanTrip) (e : EnrichedTrip) :
  e ∈ enrich_month df_weather df_sun df_month →
  (is_day e = 0 ∨ is_day e = 1)
  ∧ ((∀ s, s ∈ df_sun → date_key s ≠ dt_date (started_at (trip e))) →
     is_day e = 0).
Proof.
  intros He. apply enrich_month_elem in He as (row & Hrow & ->).
  apply merged_elem in Hrow as (_ & _ & Htd & _ & Hsun). simpl in *.
  unfold is_day_of. split.
  - destruct (ge_cell _ _ && le_cell _ _); simpl; auto.
  - intros Hnone. destruct (m_sun row) as [s'|]; simpl in *; [|done].
    destruct Hsun as [Hs' Hk']. exfalso. apply (Hnone s' Hs'). congruence.
Qed.

Lemma C9_is_day_is_a_bit_witness :
  is_day (finish (mkMergedRow
            (Examples.clean_trip_at (at_time (day_2025_01_01 + 1) 12 0 0))
            (at_time (day_2025_01_01 + 1) 12 0 0) None (day_2025_01_01 + 1)
            None)) = 0.
Proof.
  apply (C9_is_day_is_a_bit [] Examples.sun_new_year
           [Examples.clean_trip_at (at_time (day_2025_01_01 + 1) 12 0 0)] _).
  - vm_compute. left.
  - intros s Hs. apply list_elem_of_singleton in Hs as ->.
    vm_compute. discriminate.
Defined.

End EnrichFacts.

(** ** Station registry *)

Section RegistryFacts.

Import Registry.

(** *** The order on names *)

Lemma ascii_compare_lt_trans (a b c : Ascii.ascii) :
  Ascii.compare a b = Lt → Ascii.compare b c = Lt → Ascii.compare a c = Lt.
Proof.
  unfold Ascii.compare. rewrite !N.compare_lt_iff. apply N.lt_trans.
Qed.

Lemma string_compare_trans (s1 s2 s3 : string) :
  String.compare s1 s2 ≠ Gt → String.compare s2 s3 ≠ Gt →
  String.compare s1 s3 ≠ Gt.
Proof.
  revert s2 s3. induction s1 as [|a s1 IH]; intros [|b s2] [|c s3]; simpl;
    try done.
  destruct (Ascii.compare a b) eqn:Hab; [| |done].
  - apply Ascii.compare_eq_iff in Hab as ->.
    destruct (Ascii.compare b c) eqn:Hbc; [|done|done].
    intros. by eapply IH.
  - destruct (Ascii.compare b c) eqn:Hbc; [| |done].
    + apply Ascii.compare_eq_iff in Hbc as <-. by rewrite Hab.
    + by rewrite (ascii_compare_lt_trans a b c).
Qed.

Lemma string_leb_trans (s1 s2 s3 : string) :
  String.leb s1 s2 = true → String.leb s2 s3 = true → String.leb s1 s3 = true.
Proof.
  unfold String.leb. intros H12 H23.
  pose proof (string_compare_trans s1 s2 s3) as H.
  destruct (String.compare s1 s2), (String.compare s2 s3),
    (String.compare s1 s3); try done; exfalso; by apply H.
Qed.

Lemma string_leb_refl (s : string) : String.leb s s = true.
Proof. by destruct (String.leb_total s s). Qed.

Lemma name_leb_refl (a : option string) : name_leb a a = true.
Proof. destruct a; [apply string_leb_refl | done]. Qed.

Lemma name_leb_trans (a b c : option string) :
  name_leb a b = true → name_leb b c = true → name_leb a c = true.
Proof.
  destruct a, b, c; simpl; try done. apply string_leb_trans.
Qed.

Lemma name_leb_antisym (a b : option string) :
  name_leb a b = true → name_leb b a = true → a = b.
Proof.
  destruct a, b; simpl; try done.
  intros H1 H2. f_equal. by apply String.leb_antisym.
Qed.

Lemma name_leb_total (a b : option string) :
  name_leb a b = true ∨ name_leb b a = true.
Proof. destruct a, b; simpl; auto. apply String.leb_total. Qed.

#[local] Instance name_le_trans : Transitive name_le.
Proof. intros a b c. unfold name_le. apply name_leb_trans. Qed.

#[local] Instance name_le_total : Total name_le.
Proof. intros a b. unfold name_le. apply name_leb_total. Qed.

(** The merge sort is one of the sorts [sort_values] may be. *)
Lemma merge_sort_values_sorts : sorts_by_name merge_sort_values.
Proof.
  intros df. unfold merge_sort_values. split.
  - apply Sorted_merge_sort, _.
  - apply merge_sort_Permutation.
Qed.

(** *** [drop_duplicates] keeps the first row of each id *)

Lemma drop_duplicates_from_elem (seen : list (option Z)) (df : list StationRow)
    (r : StationRow) :
  r ∈ drop_duplicates_from seen df ↔
  (station_id r ∉ seen)
  ∧ ∃ before after, df = before ++ r :: after
       ∧ ∀ r', r' ∈ before → station_id r' ≠ station_id r.
Proof.
  revert seen. induction df as [|r0 df IH]; intros seen; simpl.
  - split; [by intros ?%elem_of_nil|].
    intros (_ & [|? ?] & after & Heq & _); discriminate Heq.
  - case_bool_decide as Hseen.
    + rewrite IH. split.
      * intros (Hr & before & after & -> & Hbefore). split; [done|].
        exists (r0 :: before), after. split; [done|].
        intros r' [-> | Hr']%elem_of_cons; [congruence | by apply Hbefore].
      * intros (Hr & [|r1 before] & after & Heq & Hbefore);
          simpl in Heq; simplify_eq; [done|].
        split; [done|]. exists before, after. split; [done|].
        intros r' Hr'. apply Hbefore. by right.
    + rewrite elem_of_cons, IH. split.
      * intros [-> | (Hr & before & after & -> & Hbefore)].
        -- split; [done|]. exists [], df. split; [done|].
           by intros ? ?%elem_of_nil.
        -- apply not_elem_of_cons in Hr as [Hne Hr]. split; [done|].
           exists (r0 :: before), after. split; [done|].
           intros r' [-> | Hr']%elem_of_cons; [congruence | by apply Hbefore].
      * intros (Hr & [|r1 before] & after & Heq & Hbefore);
          simpl in Heq; simplify_eq; [by left|].
        right. split.
        -- apply not_elem_of_cons. split; [|done].
           intros Heq. apply (Hbefore r1); [by left | done].
        -- exists before, after. split; [done|].
           intros r' Hr'. apply Hbefore. by right.
Qed.

Lemma drop_duplicates_from_NoDup (seen : list (option Z)) (df : list StationRow) :
  NoDup (station_id <$> drop_duplicates_from seen df).
Proof.
  revert seen. induction df as [|r0 df IH]; intros seen; simpl.
  - constructor.
  - case_bool_decide as Hseen; [apply IH|].
    rewrite fmap_cons. apply NoDup_cons. split; [|apply IH].
    intros (r & Heq & Hr)%list_elem_of_fmap.
    apply drop_duplicates_from_elem in Hr as [Hr _].
    apply Hr. rewrite <- Heq. by left.
Qed.

Lemma drop_duplicates_from_covers (seen : list (option Z))
    (df : list StationRow) (r' : StationRow) :
  r' ∈ df → station_id r' ∉ seen →
  ∃ r, r ∈ drop_duplicates_from seen df ∧ station_id r = station_id r'.
Proof.
  revert seen. induction df as [|r0 df IH]; intros seen Hin Hseen;
    [by apply elem_of_nil in Hin|].
  simpl. apply elem_of_cons in Hin as [-> | Hin].
  - rewrite bool_decide_eq_false_2 by done. exists r0. split; [by left | done].
  - case_bool_decide as Hseen0; [by apply IH|].
    destruct (decide (station_id r0 = station_id r')) as [Heq | Hne].
    + exists r0. split; [by left | done].
    + destruct (IH (station_id r0 :: seen) Hin) as (r & Hr & Hid).
      { apply not_elem_of_cons. split; [congruence | done]. }
      exists r. split; [by right | done].
Qed.

(** *** One file *)

(** The station observations of a file that carry an id. *)
Lemma scan_file_unfold (sort_values : list StationRow → list StationRow)
    (df_temp : list Trip) :
  scan_file sort_values df_temp
  = drop_duplicates (sort_values (observations df_temp)).
Proof. reflexivity. Qed.

Lemma sorted_tail_le (before after : list StationRow) (r r' : StationRow) :
  Sorted name_le (before ++ r :: after) → r' ∈ after → name_le r r'.
Proof.
  intros Hs Hr'. apply Sorted_StronglySorted in Hs; [|apply _].
  apply StronglySorted_app_1_r in Hs.
  apply StronglySorted_inv in Hs as [_ Hall].
  rewrite Forall_forall in Hall. by apply Hall.
Qed.

Section OneFile.

Variable sort_values : list StationRow → list StationRow.
Hypothesis sort_values_sorts : sorts_by_name sort_values.
Variable df_temp : list Trip.

Lemma scan_file_observed (r : StationRow) :
  r ∈ scan_file sort_values df_temp → r ∈ observations df_temp.
Proof.
  rewrite scan_file_unfold. unfold drop_duplicates.
  intros (_ & before & after & Heq & _)%drop_duplicates_from_elem.
  destruct (sort_values_sorts (observations df_temp)) as [_ Hperm].
  rewrite <- Hperm. rewrite Heq.
  apply elem_of_app. right. by left.
Qed.

Lemma scan_file_least_name (r r' : StationRow) :
  r ∈ scan_file sort_values df_temp → r' ∈ observations df_temp →
  station_id r' = station_id r → name_le r r'.
Proof.
  rewrite scan_file_unfold. unfold drop_duplicates.
  intros (_ & before & after & Heq & Hbefore)%drop_duplicates_from_elem Hr' Hid.
  destruct (sort_values_sorts (observations df_temp)) as [Hsorted Hperm].
  rewrite <- Hperm, Heq in Hr'. rewrite Heq in Hsorted.
  apply elem_of_app in Hr' as [Hr' | Hr'].
  - by apply Hbefore in Hr'.
  - apply elem_of_cons in Hr' as [-> | Hr'].
    + unfold name_le. apply name_leb_refl.
    + by eapply sorted_tail_le.
Qed.

Lemma scan_file_NoDup : NoDup (station_id <$> scan_file sort_values df_temp).
Proof. apply drop_duplicates_from_NoDup. Qed.

Lemma scan_file_covers (r' : StationRow) :
  r' ∈ observations df_temp →
  ∃ r, r ∈ scan_file sort_values df_temp ∧ station_id r = station_id r'.
Proof.
  intros Hr'. rewrite scan_file_unfold. unfold drop_duplicates.
  apply drop_duplicates_from_covers; [|apply not_elem_of_nil].
  destruct (sort_values_sorts (observations df_temp)) as [_ Hperm].
  by rewrite Hperm.
Qed.

Lemma scan_file_one_per_id (r1 r2 : StationRow) :
  r1 ∈ scan_file sort_values df_temp → r2 ∈ scan_file sort_values df_temp →
  station_id r1 = station_id r2 → r1 = r2.
Proof. apply NoDup_fmap_elem_inj, scan_file_NoDup. Qed.

Lemma scan_file_group (key : Z) :
  (group key (scan_file sort_values df_temp) = []
   ∧ ∀ r', r' ∈ observations df_temp → station_id r' ≠ Some key)
  ∨ (∃ r, group key (scan_file sort_values df_temp) = [r]
          ∧ r ∈ scan_file sort_values df_temp ∧ station_id r = Some key).
Proof.
  destruct (decide (Some key ∈ station_id <$> observations df_temp)) as [Hin | Hnotin].
  - right. apply list_elem_of_fmap in Hin as (r' & Hid & Hr').
    destruct (scan_file_covers r' Hr') as (r & Hr & Hidr).
    exists r. split_and!; [|done|congruence].
    unfold group. rewrite Hid, <- Hidr.
    apply (filter_key_singleton station_id); [apply scan_file_NoDup | done].
  - left. split.
    + apply filter_none. intros r Hr Hid.
      apply Hnotin, list_elem_of_fmap. exists r.
      split; [done | by apply scan_file_observed].
    + intros r' Hr' Hid. apply Hnotin, list_elem_of_fmap. by exists r'.
Qed.

End OneFile.

(** *** Two sorts that differ only in how they order equal names *)

Section TwoSorts.

Variables sort1 sort2 : list StationRow → list StationRow.
Hypothesis sort1_sorts : sorts_by_name sort1.
Hypothesis sort2_sorts : sorts_by_name sort2.

Lemma scan_file_same_name (df_temp : list Trip) (r1 r2 : StationRow) :
  r1 ∈ scan_file sort1 df_temp → r2 ∈ scan_file sort2 df_temp →
  station_id r1 = station_id r2 → station_name r1 = station_name r2.
Proof.
  intros H1 H2 Hid. apply name_leb_antisym.
  - apply (scan_file_least_name sort1 sort1_sorts df_temp r1 r2);
      [done | by apply (scan_file_observed sort2 sort2_sorts) | done].
  - apply (scan_file_least_name sort2 sort2_sorts df_temp r2 r1);
      [done | by apply (scan_file_observed sort1 sort1_sorts) | done].
Qed.

Lemma scan_file_group_names (df_temp : list Trip) (key : Z) :
  station_name <$> group key (scan_file sort1 df_temp)
  = station_name <$> group key (scan_file sort2 df_temp).
Proof.
  destruct (scan_file_group sort1 sort1_sorts df_temp key)
    as [[-> Hnone1] | (r1 & -> & Hr1 & Hid1)];
  destruct (scan_file_group sort2 sort2_sorts df_temp key)
    as [[-> Hnone2] | (r2 & -> & Hr2 & Hid2)]; simpl.
  - done.
  - exfalso. by apply (Hnone1 r2); [apply (scan_file_observed sort2 sort2_sorts)|].
  - exfalso. by apply (Hnone2 r1); [apply (scan_file_observed sort1 sort1_sorts)|].
  - f_equal. apply (scan_file_same_name df_temp); [done | done | congruence].
Qed.

Lemma concat_stations_group_names (csv_files : list (list Trip)) (key : Z) :
  station_name <$> group key (concat_stations sort1 csv_files)
  = station_name <$> group key (concat_stations sort2 csv_files).
Proof.
  unfold concat_stations, group.
  induction csv_files as [|df_temp csv_files IH]; [done|].
  rewrite !fmap_cons. simpl. rewrite !filter_app, !fmap_app, IH.
  f_equal. apply scan_file_group_names.
Qed.

End TwoSorts.

Lemma concat_stations_ids (sort_values : list StationRow → list StationRow)
    (csv_files : list (list Trip)) (key : Z) :
  sorts_by_name sort_values →
  key ∈ omap station_id (concat_stations sort_values csv_files) ↔
  ∃ df_temp r, df_temp ∈ csv_files ∧ r ∈ observations df_temp
               ∧ station_id r = Some key.
Proof.
  intros Hsort. rewrite list_elem_of_omap. unfold concat_stations. split.
  - intros (r & Hr & Hid). apply elem_of_concat in Hr as (l & Hr & Hl).
    apply list_elem_of_fmap in Hl as (df_temp & -> & Hdf).
    exists df_temp, r.
    split_and!; [done | by apply (scan_file_observed sort_values Hsort) | done].
  - intros (df_temp & r' & Hdf & Hr' & Hid).
    destruct (scan_file_covers sort_values Hsort df_temp r' Hr') as (r & Hr & Hidr).
    exists r. split; [|congruence].
    apply elem_of_concat. exists (scan_file sort_values df_temp).
    split; [done|]. apply list_elem_of_fmap. by exists df_temp.
Qed.

Lemma merge_sort_Z_perm (l1 l2 : list Z) :
  l1 ≡ₚ l2 → merge_sort Z.le l1 = merge_sort Z.le l2.
Proof.
  intros Hperm. apply (Sorted_unique Z.le).
  - apply Sorted_merge_sort, _.
  - apply Sorted_merge_sort, _.
  - by rewrite !merge_sort_Permutation.
Qed.

Lemma group_keys_same (sort1 sort2 : list StationRow → list StationRow)
    (csv_files : list (list Trip)) :
  sorts_by_name sort1 → sorts_by_name sort2 →
  group_keys (concat_stations sort1 csv_files)
  = group_keys (concat_stations sort2 csv_files).
Proof.
  intros H1 H2. unfold group_keys. apply merge_sort_Z_perm.
  apply NoDup_Permutation; [apply NoDup_remove_dups .. |].
  intros key. rewrite !elem_of_remove_dups.
  by rewrite !concat_stations_ids.
Qed.

Lemma to_dict_groupby_first {A} (col : StationRow → option A)
    (cols : Z → list StationRow → option A) (df : list StationRow)
    (keys : list Z) :
  (∀ key, col (mkStationRow (Some key)
                 (first_valid (station_name <$> group key df))
                 (first_valid (lat <$> group key df))
                 (first_valid (lng <$> group key df))) = cols key df) →
  omap (λ r, (λ k, (k, col r)) <$> station_id r)
       ((λ key, let g := group key df in
                mkStationRow (Some key) (first_valid (station_name <$> g))
                  (first_valid (lat <$> g)) (first_valid (lng <$> g))) <$> keys)
  = (λ key, (key, cols key df)) <$> keys.
Proof.
  intros Hcol. induction keys as [|key keys IH]; [done|].
  rewrite !fmap_cons. simpl. rewrite Hcol. f_equal. apply IH.
Qed.

(** The name the registry gives a station id: the first name that is not
    null among the rows of that id, in the order the files were scanned. *)
Lemma map_names_lookup (sort_values : list StationRow → list StationRow)
    (csv_files : list (list Trip)) :
  map_names sort_values csv_files
  = list_to_map ((λ key, (key, first_valid
       (station_name <$> group key (concat_stations sort_values csv_files))))
     <$> group_keys (concat_stations sort_values csv_files)).
Proof.
  unfold map_names, to_dict, df_stations, groupby_first. f_equal.
  by apply (to_dict_groupby_first station_name
              (λ key df, first_valid (station_name <$> group key df))).
Qed.

(** C4: whatever order [sort_values('station_name')] leaves rows of equal
    name in, the row a file keeps for a station id is one of the file's
    observations of that id whose name is alphabetically first among them
    (a missing name counts as last), every observed id keeps exactly one row,
    and the names of the registry do not depend on how the sort orders equal
    names: they are a function of the files and their order. *)
Theorem C4_alphabetical_first_name_wins
    (sort_values : list StationRow → list StationRow) :
  sorts_by_name sort_values →
  (∀ (df_temp : list Trip) (r : StationRow),
     r ∈ scan_file sort_values df_temp →
     r ∈ observations df_temp
     ∧ ∀ r', r' ∈ observations df_temp → station_id r' = station_id r →
             name_leb (station_name r) (station_name r') = true)
  ∧ (∀ (df_temp : list Trip) (r' : StationRow),
       r' ∈ observations df_temp →
       ∃ r, r ∈ scan_file sort_values df_temp ∧ station_id r = station_id r'
            ∧ ∀ r2, r2 ∈ scan_file sort_values df_temp →
                    station_id r2 = station_id r' → r2 = r)
  ∧ (∀ (sort_values' : list StationRow → list StationRow)
       (csv_files : list (list Trip)),
       sorts_by_name sort_values' →
       map_names sort_values csv_files = map_names sort_values' csv_files).
Proof.
  intros Hsort. split_and!.
  - intros df_temp r Hr. split; [by apply (scan_file_observed sort_values Hsort)|].
    intros r' Hr' Hid. by apply (scan_file_least_name sort_values Hsort df_temp).
  - intros df_temp r' Hr'.
    destruct (scan_file_covers sort_values Hsort df_temp r' Hr') as (r & Hr & Hid).
    exists r. split_and!; [done | done |].
    intros r2 Hr2 Hid2. apply (scan_file_one_per_id sort_values df_temp);
      [done | done | congruence].
  - intros sort_values' csv_files Hsort'. rewrite !map_names_lookup.
    rewrite (group_keys_same sort_values sort_values') by done.
    f_equal. apply fmap_pointwise. intros key _. do 2 f_equal.
    by apply concat_stations_group_names.
Qed.

Lemma C4_alphabetical_first_name_wins_witness :
  name_leb (Some "11 Ave") (Some "W 52 St") = true.
Proof.
  apply (proj2 (proj1 (C4_alphabetical_first_name_wins merge_sort_values
                         merge_sort_values_sorts)
                  Examples.file_two_names
                  (mkStationRow (Some 72) (Some "11 Ave") (Some (4077 # 100)%Q)
                                (Some (-7398 # 100)%Q))
                  ltac:(vm_compute; left))
               (mkStationRow (Some 72) (Some "W 52 St") (Some (4076 # 100)%Q)
                             (Some (-7399 # 100)%Q))).
  - vm_compute. left.
  - reflexivity.
Defined.

(** In [file_two_names] the row kept for station 72 is the one named
    "11 Ave", which comes from the later trip. *)
Example scan_file_two_names :
  scan_file merge_sort_values Examples.file_two_names
  = [ mkStationRow (Some 72) (Some "11 Ave") (Some (4077 # 100)%Q)
                   (Some (-7398 # 100)%Q);
      mkStationRow (Some 79) (Some "Franklin St") (Some (4071 # 100)%Q)
                   (Some (-7400 # 100)%Q) ].
Proof. vm_compute. reflexivity. Qed.

(** *** The second pass *)

Lemma groupby_first_elem (df : list StationRow) (r : StationRow) :
  r ∈ groupby_first df ↔
  ∃ key, key ∈ omap station_id df
         ∧ r = mkStationRow (Some key)
                 (first_valid (station_name <$> group key df))
                 (first_valid (lat <$> group key df))
                 (first_valid (lng <$> group key df)).
Proof.
  unfold groupby_first, group_keys. rewrite list_elem_of_fmap.
  split; intros (key & H1 & H2); exists key.
  - rewrite merge_sort_Permutation, elem_of_remove_dups in H2. done.
  - rewrite merge_sort_Permutation, elem_of_remove_dups. done.
Qed.

(** When the first row of an id has its three attributes, the registry row
    of that id is that row. *)
Lemma groupby_first_complete (df : list StationRow) (key : Z) (r0 : StationRow) :
  first_record key df = Some r0 →
  is_Some (station_name r0) → is_Some (lat r0) → is_Some (lng r0) →
  r0 ∈ groupby_first df.
Proof.
  unfold first_record. intros Hhead [n Hn] [la Hla] [ln Hln].
  destruct (group key df) as [|r g] eqn:Hg; simplify_eq/=.
  assert (r0 ∈ group key df) as Hin by (rewrite Hg; left).
  apply list_elem_of_filter in Hin as [Hid Hin].
  apply groupby_first_elem. exists key. split.
  - apply list_elem_of_omap. by exists r0.
  - rewrite Hg. unfold first_valid. simpl. rewrite Hn, Hla, Hln. simpl.
    destruct r0; simplify_eq/=. done.
Qed.

(** C2 at two files that both hold station 72, the first one without its
    name: the first row of the id in accumulation order has no name and the
    coordinates of the first file, while the registry row has the name of the
    second file next to the coordinates of the first. *)
Theorem C2_first_is_first_non_null_per_column :
  first_record 72 (concat_stations merge_sort_values
                     [Examples.file_a; Examples.file_b])
  = Some (mkStationRow (Some 72) None (Some (4076 # 100)%Q)
                       (Some (-7399 # 100)%Q))
  ∧ df_stations merge_sort_values [Examples.file_a; Examples.file_b]
    = [ mkStationRow (Some 72) (Some "W 52 St") (Some (4076 # 100)%Q)
                     (Some (-7399 # 100)%Q);
        mkStationRow (Some 79) (Some "Franklin St") (Some (4071 # 100)%Q)
                     (Some (-7400 # 100)%Q) ]
  ∧ map_names merge_sort_values [Examples.file_a; Examples.file_b] !! 72
    = Some (Some "W 52 St").
Proof.
  split_and!.
  - vm_compute. reflexivity.
  - vm_compute. reflexivity.
  - vm_compute. reflexivity.
Qed.

End RegistryFacts.

(** ** Demand signatures *)

(** *** binary64 arithmetic *)

Section FloatFacts.

Import Signatures.

Lemma digits2_pos_size (p : positive) : digits2_pos p = Pos.size p.
Proof. induction p; simpl; by rewrite ?IHp. Qed.

Lemma Zdigits2_bound (m k : Z) : 0 ≤ k → 0 ≤ m < 2 ^ k → Zdigits2 m ≤ k.
Proof.
  intros Hk [Hm0 Hm]. destruct m as [|p|p]; simpl; [lia| |lia].
  rewrite digits2_pos_size.
  pose proof (Pos.size_le p) as Hle.
  assert (2 ^ Z.pos (Pos.size p) ≤ 2 * Z.pos p) as H.
  { change 2 with (Z.pos 2) at 1. rewrite <- Pos2Z.inj_pow.
    change (2 * Z.pos p) with (Z.pos p~0). by apply Pos2Z.pos_le_pos. }
  destruct (Z.le_gt_cases (Z.pos (Pos.size p)) k) as [|Hgt]; [done|].
  assert (2 ^ (k + 1) ≤ 2 ^ Z.pos (Pos.size p)) by (apply Z.pow_le_mono_r; lia).
  rewrite Z.pow_add_r in * by lia. lia.
Qed.

Lemma shr_1_m (mrs : shr_record) :
  0 ≤ shr_m mrs → 0 ≤ shr_m (shr_1 mrs) ≤ shr_m mrs.
Proof. destruct mrs as [[|[p|p|]|p] r s]; simpl; lia. Qed.

Lemma iter_shr_1_m (n : positive) (mrs : shr_record) :
  0 ≤ shr_m mrs → 0 ≤ shr_m (SpecFloat.iter_pos shr_1 n mrs) ≤ shr_m mrs.
Proof.
  revert mrs. induction n as [n IH|n IH|]; intros mrs Hm; simpl.
  - pose proof (shr_1_m mrs Hm). pose proof (IH (shr_1 mrs) ltac:(lia)).
    pose proof (IH (SpecFloat.iter_pos shr_1 n (shr_1 mrs)) ltac:(lia)). lia.
  - pose proof (IH mrs Hm). pose proof (IH (SpecFloat.iter_pos shr_1 n mrs) ltac:(lia)). lia.
  - by apply shr_1_m.
Qed.

Lemma shr_record_of_loc_m m l : shr_m (shr_record_of_loc m l) = m.
Proof. by destruct l as [|[]]. Qed.

Lemma shr_fexp_bounds (m e : Z) (l : location) (k : Z) :
  0 ≤ k → 0 ≤ m < 2 ^ k →
  0 ≤ shr_m (fst (shr_fexp 53 1024 m e l)) ≤ m
  ∧ snd (shr_fexp 53 1024 m e l) ≤ Z.max (e + k) (-1074).
Proof.
  intros Hk Hm. pose proof (Zdigits2_bound m k Hk Hm) as Hd.
  unfold shr_fexp, shr, fexp, emin.
  destruct (Z.max (Zdigits2 m + e - 53) (3 - 1024 - 53) - e) as [|n|n] eqn:E;
    simpl; rewrite ?shr_record_of_loc_m; try lia.
  pose proof (iter_shr_1_m n (shr_record_of_loc m l)) as H.
  rewrite shr_record_of_loc_m in H. split; [lia|]. lia.
Qed.

Lemma round_nearest_even_bounds (m : Z) (l : location) :
  m ≤ round_nearest_even m l ≤ m + 1.
Proof. destruct l as [|[]]; simpl; try lia. destruct (Z.even m); lia. Qed.

Lemma binary_round_aux_finite (m e : Z) (l : location) (k : Z) :
  0 ≤ k ≤ 1000 → 0 ≤ m < 2 ^ k → e + 2 * k + 2 ≤ 971 →
  finite_nonneg (binary_round_aux 53 1024 false m e l).
Proof.
  intros [Hk Hk'] Hm He. unfold binary_round_aux.
  pose proof (shr_fexp_bounds m e l k Hk Hm) as [Hm1 He1].
  destruct (shr_fexp 53 1024 m e l) as [mrs1 e1]. simpl in Hm1, He1.
  pose proof (round_nearest_even_bounds (shr_m mrs1) (loc_of_shr_record mrs1)) as Hr.
  set (m2 := round_nearest_even (shr_m mrs1) (loc_of_shr_record mrs1)) in *.
  clearbody m2.
  assert (0 ≤ m2 < 2 ^ (k + 1)) as Hm2.
  { rewrite Z.pow_add_r by lia. change (2 ^ 1) with 2.
    pose proof (Z.pow_pos_nonneg 2 k eq_refl Hk). lia. }
  pose proof (shr_fexp_bounds m2 e1 loc_Exact (k + 1) ltac:(lia) Hm2) as [Hm3 He3].
  destruct (shr_fexp 53 1024 m2 e1 loc_Exact) as [mrs2 e2]. simpl in Hm3, He3.
  destruct (shr_m mrs2) as [|p|p]; simpl; [done| |lia].
  rewrite (proj2 (Z.leb_le e2 (1024 - 53))) by lia. done.
Qed.

Lemma fmul_finite (m1 m2 : positive) (e1 e2 : Z) :
  Z.pos m1 < 2 ^ 53 → Z.pos m2 < 2 ^ 53 → e1 + e2 ≤ 700 →
  finite_nonneg (fmul (S754_finite false m1 e1) (S754_finite false m2 e2)).
Proof.
  intros H1 H2 He. unfold fmul, prec, emax. simpl.
  apply (binary_round_aux_finite _ _ _ 106); [lia| |lia].
  split; [lia|]. change (2 ^ 106) with (2 ^ 53 * 2 ^ 53).
  rewrite Pos2Z.inj_mul. nia.
Qed.

Lemma fdiv_finite (m1 m2 : positive) (e1 e2 : Z) :
  Z.pos m1 < 2 ^ 53 → Z.pos m2 < 2 ^ 53 → e1 - e2 ≤ 600 →
  finite_nonneg (fdiv (S754_finite false m1 e1) (S754_finite false m2 e2)).
Proof.
  intros H1 H2 He. unfold fdiv, prec, emax, SFdiv, SFdiv_core_binary.
  set (d1 := Zdigits2 (Z.pos m1)). set (d2 := Zdigits2 (Z.pos m2)).
  assert (0 < d1 ≤ 53) as Hd1.
  { split; [done|]. apply Zdigits2_bound; lia. }
  assert (0 < d2 ≤ 53) as Hd2.
  { split; [done|]. apply Zdigits2_bound; lia. }
  set (e' := Z.min (fexp 53 1024 (d1 + e1 - (d2 + e2))) (e1 - e2)).
  assert (e' ≤ e1 - e2) as He' by (unfold e'; lia).
  assert (e1 - e2 - e' ≤ 106) as Hs.
  { unfold e', fexp, emin. lia. }
  set (m' := match e1 - e2 - e' with
             | 0 => Z.pos m1 | Z.pos _ => Z.shiftl (Z.pos m1) (e1 - e2 - e')
             | Z.neg _ => 0 end).
  assert (0 ≤ m' < 2 ^ 159) as Hm'.
  { unfold m'. destruct (e1 - e2 - e') as [|s|s] eqn:Es; [lia| |lia].
    rewrite Z.shiftl_mul_pow2 by lia.
    assert (2 ^ Z.pos s ≤ 2 ^ 106) by (apply Z.pow_le_mono_r; lia).
    assert (0 < 2 ^ Z.pos s) by (apply Z.pow_pos_nonneg; lia).
    change (2 ^ 159) with (2 ^ 53 * 2 ^ 106). nia. }
  pose proof (Z_div_mod m' (Z.pos m2) ltac:(lia)) as Hdiv.
  destruct (Z.div_eucl m' (Z.pos m2)) as [q r].
  apply (binary_round_aux_finite _ _ _ 159); [lia| |lia].
  destruct Hdiv as [Hq Hr]. nia.
Qed.

(** Rounding an integer mantissa of exactly 53 bits changes nothing. *)
Lemma binary_round_aux_exact (mz : positive) (ez : Z) :
  Z.pos (digits2_pos mz) = 53 → -1074 ≤ ez ≤ 971 →
  binary_round_aux 53 1024 false (Z.pos mz) ez loc_Exact
  = S754_finite false mz ez.
Proof.
  intros Hd He. unfold binary_round_aux, shr_fexp. simpl Zdigits2. rewrite Hd.
  unfold fexp, emin.
  replace (Z.max (53 + ez - 53) (3 - 1024 - 53) - ez) with 0 by lia.
  simpl. rewrite Hd.
  replace (Z.max (53 + ez - 53) (3 - 1024 - 53) - ez) with 0 by lia.
  simpl. by rewrite (proj2 (Z.leb_le ez (1024 - 53))) by lia.
Qed.

Lemma digits2_pos_shift (p n : positive) :
  Z.pos (digits2_pos (Pos.iter xO p n)) = Z.pos (digits2_pos p) + Z.pos n.
Proof.
  induction n as [|n IH] using Pos.peano_ind.
  - simpl. lia.
  - rewrite Pos.iter_succ. simpl. rewrite Pos2Z.inj_succ, IH. lia.
Qed.

Lemma digits2_pos_lt (p : positive) (k : Z) :
  Z.pos (digits2_pos p) = k → Z.pos p < 2 ^ k.
Proof.
  intros <-. rewrite digits2_pos_size.
  pose proof (Pos.size_gt p) as H. apply Pos2Z.pos_lt_pos in H.
  by rewrite Pos2Z.inj_pow in H.
Qed.

(** A count between 1 and 2^53 - 1 is converted without rounding, to a
    positive float with a 53-bit mantissa and an exponent from -52 to 0. *)
Lemma of_int_positive (n : Z) :
  0 < n < 2 ^ 53 →
  ∃ m e, of_int n = S754_finite false m e ∧ Z.pos m < 2 ^ 53 ∧ -52 ≤ e ≤ 0.
Proof.
  intros [Hn0 Hn]. destruct n as [|p|p]; [lia| |lia].
  unfold of_int, prec, emax, binary_normalize, binary_round.
  pose proof (Zdigits2_bound (Z.pos p) 53 ltac:(lia) ltac:(lia)) as Hd.
  simpl in Hd. unfold fexp, emin.
  replace (Z.max (Z.pos (digits2_pos p) + 0 - 53) (3 - 1024 - 53))
    with (Z.pos (digits2_pos p) - 53) by lia.
  unfold shl_align.
  replace (Z.pos (digits2_pos p) - 53 - 0) with (Z.pos (digits2_pos p) - 53)
    by lia.
  destruct (Z.pos (digits2_pos p) - 53) as [|k|k] eqn:Ek; [|lia|].
  - exists p, 0. split_and!; [|lia|lia|lia].
    apply binary_round_aux_exact; lia.
  - exists (Pos.iter xO p k), (Z.neg k).
    assert (Z.pos (digits2_pos (Pos.iter xO p k)) = 53) as Hd53
      by (rewrite digits2_pos_shift; lia).
    split_and!; [|by apply digits2_pos_lt|lia|lia].
    apply binary_round_aux_exact; [done|lia].
Qed.

Lemma of_int_0 : of_int 0 = f0.
Proof. reflexivity. Qed.


(** What a rounding of a non-negative value can be: adding the positive
    zero to it changes nothing. *)
Lemma binary_round_aux_add_0 (m e : Z) (l : location) :
  fadd (binary_round_aux 53 1024 false m e l) f0
  = binary_round_aux 53 1024 false m e l.
Proof.
  unfold binary_round_aux.
  destruct (shr_fexp 53 1024 m e l) as [mrs1 e1].
  destruct (shr_fexp 53 1024 _ e1 loc_Exact) as [mrs2 e2].
  destruct (shr_m mrs2); [done| |done].
  by destruct (e2 <=? 1024 - 53).
Qed.

Lemma fadd_opp_finite (m : positive) (e : Z) :
  fadd (S754_finite false m e) (S754_finite true m e) = f0.
Proof.
  unfold fadd, SFadd, shl_align. rewrite Z.min_id, Z.sub_diag.
  cbn [fst cond_Zopp]. by rewrite Z.add_opp_diag_r.
Qed.

Lemma fsub_self_finite (m : positive) (e : Z) :
  fsub (S754_finite false m e) (S754_finite false m e) = f0.
Proof.
  unfold fsub, SFsub, shl_align. rewrite Z.min_id, Z.sub_diag.
  cbn [fst cond_Zopp]. reflexivity.
Qed.

(** [y + (0 - y)] is the positive zero for every finite non-negative [y]. *)
Lemma fadd_fsub_0_cancel (y : float) :
  finite_nonneg y → fadd y (fsub f0 y) = f0.
Proof.
  destruct y as [[|]|[|]| |[|] m e]; simpl; try done.
  intros _. apply fadd_opp_finite.
Qed.

Lemma fltb_irrefl_finite (m : positive) (e : Z) :
  fltb (S754_finite false m e) (S754_finite false m e) = false.
Proof.
  unfold fltb, SFltb. simpl. by rewrite Z.compare_refl, Pos.compare_cont_refl.
Qed.



End FloatFacts.

(** *** The scaler on the two kinds of rows the claims name *)

Section ScalerFacts.

Import Signatures.

Lemma f1_eq : f1 = S754_finite false 4503599627370496 (-52).
Proof. reflexivity. Qed.




Section Peak.

(** [peak] is a positive count as a float. *)
Variables (m : positive) (e : Z).
Hypothesis m_bound : Z.pos m < 2 ^ 53.
Hypothesis e_bound : -52 ≤ e ≤ 0.

Local Abbreviation peak := (S754_finite false m e).
Local Abbreviation zero_or_peak := (zero_or (S754_finite false m e)).

Lemma fmin_zero_or_peak (a x : float) :
  zero_or_peak a → zero_or_peak x →
  zero_or_peak (fmin a x) ∧ (a = f0 ∨ x = f0 → fmin a x = f0).
Proof.
  intros [-> | ->] [-> | ->]; unfold fmin, zero_or;
    rewrite ?fltb_irrefl_finite; simpl;
    (split; [by auto | by intros [?|?]]).
Qed.

Lemma fmax_zero_or_peak (a x : float) :
  zero_or_peak a → zero_or_peak x →
  zero_or_peak (fmax a x) ∧ (a = peak ∨ x = peak → fmax a x = peak).
Proof.
  intros [-> | ->] [-> | ->]; unfold fmax, zero_or;
    rewrite ?fltb_irrefl_finite; simpl;
    (split; [by auto | by intros [?|?]]).
Qed.

Lemma foldl_fmin_zero (xs : list float) (a : float) :
  zero_or_peak a → Forall zero_or_peak xs → a = f0 ∨ f0 ∈ xs →
  foldl fmin a xs = f0.
Proof.
  revert a. induction xs as [|x xs IH]; intros a Ha Hxs Hz; simpl.
  - destruct Hz as [-> | Hz]; [done | by apply elem_of_nil in Hz].
  - apply Forall_cons in Hxs as [Hx Hxs].
    destruct (fmin_zero_or_peak a x Ha Hx) as [Hax Hax0].
    apply IH; [done | done |].
    destruct Hz as [-> | [<- | Hz]%elem_of_cons]; auto.
Qed.

Lemma foldl_fmax_peak (xs : list float) (a : float) :
  zero_or_peak a → Forall zero_or_peak xs → a = peak ∨ peak ∈ xs →
  foldl fmax a xs = peak.
Proof.
  revert a. induction xs as [|x xs IH]; intros a Ha Hxs Hz; simpl.
  - destruct Hz as [-> | Hz]; [done | by apply elem_of_nil in Hz].
  - apply Forall_cons in Hxs as [Hx Hxs].
    destruct (fmax_zero_or_peak a x Ha Hx) as [Hax Hax0].
    apply IH; [done | done |].
    destruct Hz as [-> | [<- | Hz]%elem_of_cons]; auto.
Qed.

Lemma np_min_zero (xs : list float) :
  Forall zero_or_peak xs → f0 ∈ xs → np_min xs = f0.
Proof.
  destruct xs as [|x xs]; [by intros _ ?%elem_of_nil|].
  intros [Hx Hxs]%Forall_cons Hz. simpl. apply foldl_fmin_zero; [done..|].
  by apply elem_of_cons in Hz as [<- | Hz]; auto.
Qed.

Lemma np_max_peak (xs : list float) :
  Forall zero_or_peak xs → peak ∈ xs → np_max xs = peak.
Proof.
  destruct xs as [|x xs]; [by intros _ ?%elem_of_nil|].
  intros [Hx Hxs]%Forall_cons Hz. simpl. apply foldl_fmax_peak; [done..|].
  by apply elem_of_cons in Hz as [<- | Hz]; auto.
Qed.

Lemma handle_zeros_peak : handle_zeros_in_scale peak = peak.
Proof.
  unfold handle_zeros_in_scale.
  assert (fmul (of_int 10) eps = S754_finite false 5629499534213120 (-101))
    as -> by by vm_compute.
  unfold fltb, SFltb, SFcompare.
  by rewrite (proj2 (Z.compare_gt_iff e (-101))) by lia.
Qed.

(** A feature that is zero except where it equals [peak]: zeros stay zero
    and [peak] becomes the product [peak * (1 / peak)]. *)
Lemma fit_transform_zero_or_peak (xs : list float) :
  Forall zero_or_peak xs → f0 ∈ xs → peak ∈ xs →
  fit_transform xs
  = (λ x, match x with
          | S754_finite _ _ _ => fmul peak (fdiv f1 peak)
          | _ => f0
          end) <$> xs.
Proof.
  intros Hxs H0 Hpeak.
  assert (scale_ xs = fdiv f1 peak) as Hscale.
  { unfold scale_. rewrite np_min_zero, np_max_peak by done.
    assert (fsub peak f0 = peak) as -> by done.
    by rewrite handle_zeros_peak. }
  assert (finite_nonneg (fdiv f1 peak)) as Hfin.
  { rewrite f1_eq. apply fdiv_finite; [by vm_compute | done | lia]. }
  unfold fit_transform, min_. rewrite Hscale, np_min_zero, of_int_0 by done.
  assert (fmul f0 (fdiv f1 peak) = f0) as Hz.
  { by destruct (fdiv f1 peak) as [[|]|[|]| |[|] ? ?]. }
  rewrite Hz. assert (fsub f0 f0 = f0) as -> by done.
  apply fmap_pointwise. intros x Hx.
  rewrite Forall_forall in Hxs. destruct (Hxs x Hx) as [-> | ->].
  - by rewrite Hz.
  - destruct (fdiv f1 peak) as [[|]|[|]| |[|] ms es]; try done.
    unfold fmul. simpl. apply binary_round_aux_add_0.
Qed.

End Peak.

End ScalerFacts.

(** *** The pivot *)

Section PivotFacts.

Import Signatures.

Lemma hour_range (r : Row) : 0 ≤ hour r < 24.
Proof.
  unfold hour, dt_hour.
  change ns_per_day with 86400000000000. change ns_per_hour with 3600000000000.
  pose proof (Z.mod_pos_bound (started_at r) 86400000000000 ltac:(lia)) as Hb.
  split.
  - apply Z.div_pos; lia.
  - apply Z.div_lt_upper_bound; lia.
Qed.

Lemma observed_pairs_elem (subset : list Row) (station h : Z) :
  (station, h) ∈ observed_pairs subset ↔
  ∃ r, r ∈ subset ∧ start_station_id r = Some station ∧ hour r = h.
Proof.
  unfold observed_pairs. rewrite elem_of_remove_dups, list_elem_of_omap.
  split.
  - intros (r & Hr & Heq). exists r.
    destruct (start_station_id r); simplify_eq/=. done.
  - intros (r & Hr & Hs & Hh). exists r. by rewrite Hs, Hh.
Qed.

Lemma group_size_pos (subset : list Row) (station h : Z) :
  (station, h) ∈ observed_pairs subset ↔ (0 < group_size station h subset)%nat.
Proof.
  rewrite observed_pairs_elem. unfold group_size. split.
  - intros (r & Hr & Hs & Hh).
    assert (r ∈ filter (λ r, start_station_id r = Some station ∧ hour r = h)
                       subset) as Hin by by apply list_elem_of_filter.
    destruct (filter _ subset); [by apply elem_of_nil in Hin | simpl; lia].
  - intros Hlen.
    destruct (filter (λ r, start_station_id r = Some station ∧ hour r = h)
                     subset) as [|r rs] eqn:Hf; [simpl in Hlen; lia|].
    assert (r ∈ filter (λ r, start_station_id r = Some station ∧ hour r = h)
                       subset) as Hin by (rewrite Hf; left).
    apply list_elem_of_filter in Hin as [[? ?] ?]. by exists r.
Qed.

(** A cell of the pivot: the count of an observed pair, NaN otherwise. *)
Lemma pivot_cell (subset : list Row) (station h : Z) :
  cell (pivot (hourly_counts subset)) station h
  = if decide ((station, h) ∈ observed_pairs subset)
    then Some (of_int (Z.of_nat (group_size station h subset)))
    else None.
Proof.
  unfold pivot, hourly_counts. simpl.
  set (counts := (λ p, (p, group_size p.1 p.2 subset)) <$> observed_pairs subset).
  case_decide as Hin.
  - assert (((station, h), group_size station h subset)
            ∈ filter (λ c, c.1 = (station, h)) counts) as Hx.
    { apply list_elem_of_filter. split; [done|].
      apply list_elem_of_fmap. by exists (station, h). }
    destruct (filter (λ c, c.1 = (station, h)) counts) as [|x xs] eqn:Hf;
      [by apply elem_of_nil in Hx|].
    assert (x ∈ filter (λ c, c.1 = (station, h)) counts) as Hx'
      by (rewrite Hf; left).
    apply list_elem_of_filter in Hx' as [Hk Hx'].
    apply list_elem_of_fmap in Hx' as (p & -> & _). simpl in *.
    by subst p.
  - rewrite filter_none; [done|].
    intros c (p & -> & Hp)%list_elem_of_fmap Hk. simpl in Hk. by subst p.
Qed.

Lemma pivot_columns_elem (subset : list Row) (h : Z) :
  h ∈ columns (pivot (hourly_counts subset)) ↔
  ∃ station, (station, h) ∈ observed_pairs subset.
Proof.
  unfold pivot, hourly_counts. simpl.
  rewrite merge_sort_Permutation, elem_of_remove_dups, list_elem_of_fmap.
  split.
  - intros (c & -> & (p & -> & Hp)%list_elem_of_fmap). simpl.
    exists p.1. by destruct p.
  - intros (station & Hp). exists ((station, h), group_size station h subset).
    split; [done|]. apply list_elem_of_fmap. by exists (station, h).
Qed.

Lemma pivot_index_elem (subset : list Row) (station : Z) :
  station ∈ index (pivot (hourly_counts subset)) ↔
  ∃ h, (station, h) ∈ observed_pairs subset.
Proof.
  unfold pivot, hourly_counts. simpl.
  rewrite merge_sort_Permutation, elem_of_remove_dups, list_elem_of_fmap.
  split.
  - intros (c & -> & (p & -> & Hp)%list_elem_of_fmap). simpl.
    exists p.2. by destruct p.
  - intros (h & Hp). exists ((station, h), group_size station h subset).
    split; [done|]. apply list_elem_of_fmap. by exists (station, h).
Qed.

Lemma pivot_columns_NoDup (counts : list (Z * Z * nat)) :
  NoDup (columns (pivot counts)).
Proof.
  unfold pivot. simpl. rewrite merge_sort_Permutation. apply NoDup_remove_dups.
Qed.

(** *** Adding the missing hour columns *)

Lemma ensure_column_index (f : Frame) (h : Z) :
  index (ensure_column f h) = index f.
Proof. unfold ensure_column. by case_bool_decide. Qed.

Lemma ensure_column_columns (f : Frame) (h0 h : Z) :
  h ∈ columns (ensure_column f h0) ↔ h ∈ columns f ∨ h = h0.
Proof.
  unfold ensure_column. case_bool_decide as Hin0; simpl.
  - split; [tauto|]. by intros [?| ->].
  - by rewrite elem_of_app, list_elem_of_singleton.
Qed.

Lemma ensure_column_NoDup (f : Frame) (h0 : Z) :
  NoDup (columns f) → NoDup (columns (ensure_column f h0)).
Proof.
  unfold ensure_column. case_bool_decide as Hin0; simpl; [done|].
  intros Hf. apply NoDup_app. split_and!; [done | | apply NoDup_singleton].
  by intros x Hx ->%list_elem_of_singleton.
Qed.

Lemma ensure_column_cell (f : Frame) (h0 station h : Z) :
  cell (ensure_column f h0) station h
  = if bool_decide (h ∈ columns f) then cell f station h
    else if bool_decide (h = h0) then Some (of_int 0)
    else cell f station h.
Proof.
  unfold ensure_column. case_bool_decide as Hin0; simpl.
  - repeat case_bool_decide; try done. by subst.
  - repeat case_bool_decide; try done. by subst.
Qed.

Lemma ensure_hours_spec (hs : list Z) (f : Frame) :
  index (foldl ensure_column f hs) = index f
  ∧ (∀ h, h ∈ columns (foldl ensure_column f hs) ↔ h ∈ columns f ∨ h ∈ hs)
  ∧ (NoDup (columns f) → NoDup (columns (foldl ensure_column f hs)))
  ∧ (∀ station h,
       cell (foldl ensure_column f hs) station h
       = if bool_decide (h ∈ columns f) then cell f station h
         else if bool_decide (h ∈ hs) then Some (of_int 0)
         else cell f station h).
Proof.
  revert f. induction hs as [|h0 hs IH]; intros f; simpl.
  - split_and!; [done | | done |].
    + intros h. rewrite elem_of_nil. tauto.
    + intros station h. by repeat case_bool_decide.
  - destruct (IH (ensure_column f h0)) as (Hidx & Hcols & Hnd & Hcell).
    clear IH. split_and!.
    + by rewrite Hidx, ensure_column_index.
    + intros h. rewrite Hcols, ensure_column_columns, elem_of_cons. tauto.
    + intros Hf. by apply Hnd, ensure_column_NoDup.
    + intros station h. rewrite Hcell, ensure_column_cell.
      pose proof (ensure_column_columns f h0 h) as Hc.
      repeat case_bool_decide; try done;
        rewrite ?elem_of_cons in *; exfalso; tauto.
Qed.

(** *** The frame handed to the scaler *)

Lemma seqZ_24_sorted : Sorted Z.le (seqZ 0 24).
Proof. apply (bool_decide_unpack _). by vm_compute. Qed.

Lemma pivot_of_unfold (flag : Z) (files : list (list Row)) :
  pivot_of flag files
  = sort_columns (ensure_hours (fillna_0 (pivot (hourly_counts
      (subset_of flag (df_all files)))))).
Proof. reflexivity. Qed.

Lemma sort_columns_columns (f : Frame) :
  columns (sort_columns f) = merge_sort Z.le (columns f).
Proof. reflexivity. Qed.

Lemma sort_columns_index (f : Frame) : index (sort_columns f) = index f.
Proof. reflexivity. Qed.

Lemma sort_columns_cell (f : Frame) : cell (sort_columns f) = cell f.
Proof. reflexivity. Qed.

Lemma fillna_0_columns (f : Frame) : columns (fillna_0 f) = columns f.
Proof. reflexivity. Qed.

Lemma fillna_0_index (f : Frame) : index (fillna_0 f) = index f.
Proof. reflexivity. Qed.

Lemma fillna_0_cell (f : Frame) (station h : Z) :
  cell (fillna_0 f) station h = Some (default f0 (cell f station h)).
Proof. reflexivity. Qed.

Lemma pivot_of_columns (flag : Z) (files : list (list Row)) :
  columns (pivot_of flag files) = seqZ 0 24.
Proof.
  rewrite pivot_of_unfold.
  set (subset := subset_of flag (df_all files)).
  rewrite sort_columns_columns.
  unfold ensure_hours.
  destruct (ensure_hours_spec (seqZ 0 24) (fillna_0 (pivot (hourly_counts subset))))
    as (_ & Hcols & Hnd & _).
  apply (Sorted_unique Z.le);
    [apply Sorted_merge_sort, _ | apply seqZ_24_sorted |].
  rewrite merge_sort_Permutation.
  apply NoDup_Permutation;
    [apply Hnd, pivot_columns_NoDup | apply NoDup_seqZ |].
  intros h. rewrite Hcols. split; [|tauto].
  intros [Hh | Hh]; [|done].
  rewrite fillna_0_columns in Hh.
  apply pivot_columns_elem in Hh as (station & Hp).
  apply observed_pairs_elem in Hp as (r & _ & _ & <-).
  apply elem_of_seqZ. pose proof (hour_range r). lia.
Qed.

Lemma pivot_of_index (flag : Z) (files : list (list Row)) (station : Z) :
  station ∈ index (pivot_of flag files) ↔
  ∃ h, 0 ≤ h < 24
       ∧ (0 < group_size station h (subset_of flag (df_all files)))%nat.
Proof.
  rewrite pivot_of_unfold.
  set (subset := subset_of flag (df_all files)).
  rewrite sort_columns_index.
  unfold ensure_hours.
  destruct (ensure_hours_spec (seqZ 0 24) (fillna_0 (pivot (hourly_counts subset))))
    as (-> & _).
  rewrite fillna_0_index.
  rewrite pivot_index_elem. split.
  - intros (h & Hp). exists h. split; [|by apply group_size_pos].
    apply observed_pairs_elem in Hp as (r & _ & _ & <-). apply hour_range.
  - intros (h & _ & Hp). exists h. by apply group_size_pos.
Qed.

Lemma pivot_of_cell (flag : Z) (files : list (list Row)) (station h : Z) :
  0 ≤ h < 24 →
  cell (pivot_of flag files) station h
  = Some (of_int (Z.of_nat
      (group_size station h (subset_of flag (df_all files))))).
Proof.
  intros Hh. rewrite pivot_of_unfold.
  set (subset := subset_of flag (df_all files)).
  rewrite sort_columns_cell.
  unfold ensure_hours.
  destruct (ensure_hours_spec (seqZ 0 24) (fillna_0 (pivot (hourly_counts subset))))
    as (_ & _ & _ & ->).
  rewrite fillna_0_columns.
  rewrite fillna_0_cell.
  rewrite pivot_cell.
  pose proof (group_size_pos subset station h) as Hpos.
  pose proof (pivot_columns_elem subset h) as Hcol.
  assert (h ∈ seqZ 0 24) as Hseq by (apply elem_of_seqZ; lia).
  destruct (decide ((station, h) ∈ observed_pairs subset)) as [Hin | Hnotin].
  - rewrite bool_decide_eq_true_2; [done|]. apply Hcol. by exists station.
  - assert (group_size station h subset = 0%nat) as ->.
    { destruct (group_size station h subset); [done|].
      exfalso. apply Hnotin, Hpos. lia. }
    rewrite (bool_decide_eq_true_2 (h ∈ seqZ 0 24)) by done.
    by case_bool_decide.
Qed.

(** The row of a station in the pivot is its 24 hourly counts, zero where it
    had no trip. *)
Lemma values_of_pivot_of (flag : Z) (files : list (list Row)) (station : Z) :
  values_of (pivot_of flag files) station = count_row flag files station.
Proof.
  unfold values_of, count_row. rewrite pivot_of_columns.
  apply fmap_pointwise. intros h Hh%elem_of_seqZ.
  by rewrite pivot_of_cell by lia.
Qed.

Lemma zip_fmap_pair {A B : Type} (f : A → B) (l : list A) :
  zip l (f <$> l) = (λ x, (x, f x)) <$> l.
Proof.
  induction l as [|x l IH]; [done|].
  rewrite !fmap_cons. cbn [zip_with]. by rewrite IH.
Qed.

(** A pass yields a frame exactly when its pivot has a station, and the
    frame then has one row per station of the pivot. *)
Lemma df_signature_Some (flag : Z) (files : list (list Row))
    (rows : list (Z * list float)) :
  df_signature flag files = Some rows ↔
  index (pivot_of flag files) ≠ []
  ∧ rows = (λ station, (station, fit_transform (count_row flag files station)))
             <$> index (pivot_of flag files).
Proof.
  unfold df_signature, normalized_values.
  assert (∀ l : list Z,
            zip l ((λ station,
                      fit_transform (values_of (pivot_of flag files) station))
                     <$> l)
            = (λ station,
                 (station, fit_transform (count_row flag files station)))
                <$> l) as Hzip.
  { intros l. rewrite zip_fmap_pair. apply fmap_pointwise.
    intros station _. by rewrite values_of_pivot_of. }
  destruct (index (pivot_of flag files)) as [|station0 l] eqn:E.
  - cbn [fmap option_fmap option_map]. split; [done | by intros [? _]].
  - cbn [fmap option_fmap option_map]. rewrite Hzip. split.
    + by intros [= <-].
    + by intros [_ ->].
Qed.

Lemma df_signature_is_Some (flag : Z) (files : list (list Row)) :
  is_Some (df_signature flag files) ↔ index (pivot_of flag files) ≠ [].
Proof.
  split.
  - by intros [rows [? _]%df_signature_Some].
  - intros Hne. eexists. by apply df_signature_Some.
Qed.

Lemma df_signature_elem (flag : Z) (files : list (list Row))
    (rows : list (Z * list float)) (station : Z) (vals : list float) :
  df_signature flag files = Some rows →
  (station, vals) ∈ rows ↔
  station ∈ index (pivot_of flag files)
  ∧ vals = fit_transform (count_row flag files station).
Proof.
  intros [_ ->]%df_signature_Some. rewrite list_elem_of_fmap. split.
  - by intros (station' & [= -> ->] & Hin).
  - intros [Hin ->]. by exists station.
Qed.

Lemma count_row_length (flag : Z) (files : list (list Row)) (station : Z) :
  length (count_row flag files station) = 24%nat.
Proof. unfold count_row. by rewrite length_fmap. Qed.

End PivotFacts.

(** *** The signature tables *)

Section SignatureFacts.

Import Signatures.

(** C8 (as the code has it): every signature row has exactly 24 values,
    which are the scaler's output on the station's own 24 hourly counts of the
    partition, zero where it had no trip, and a station has a row only if it
    had a trip in the partition.  When all its trips fall in one hour, [c] of
    them, the other 23 values are exactly 0.0 and the value of that hour is
    the binary64 product [c * (1 / c)]. *)
Theorem C8_signature_row
    (is_weekend_flag : Z) (files : list (list Row))
    (rows : list (Z * list float)) (station : Z) (vals : list float) :
  df_signature is_weekend_flag files = Some rows →
  (station, vals) ∈ rows →
  let subset := subset_of is_weekend_flag (df_all files) in
  length vals = 24%nat
  ∧ vals = fit_transform (count_row is_weekend_flag files station)
  ∧ count_row is_weekend_flag files station
    = (λ h, of_int (Z.of_nat (group_size station h subset))) <$> seqZ 0 24
  ∧ (∃ h, 0 ≤ h < 24 ∧ (0 < group_size station h subset)%nat)
  ∧ (∀ (h : Z) (c : nat),
       0 ≤ h < 24 → 0 < Z.of_nat c < 2 ^ 53 →
       group_size station h subset = c →
       (∀ h', 0 ≤ h' < 24 → h' ≠ h → group_size station h' subset = 0%nat) →
       vals = (λ h', if bool_decide (h' = h)
                     then fmul (of_int (Z.of_nat c))
                               (fdiv f1 (of_int (Z.of_nat c)))
                     else f0) <$> seqZ 0 24).
Proof.
  intros Hrows Hin subset.
  apply (df_signature_elem _ _ _ _ _ Hrows) in Hin as [Hidx ->]. split_and!.
  - unfold fit_transform. by rewrite length_fmap, count_row_length.
  - done.
  - done.
  - by apply pivot_of_index.
  - intros h c Hh Hc Hpeak Hzero.
    destruct (of_int_positive (Z.of_nat c) Hc) as (m & e & Hcf & Hm & He).
    assert (count_row is_weekend_flag files station
            = (λ h', if bool_decide (h' = h) then S754_finite false m e else f0)
                <$> seqZ 0 24) as Hrow.
    { unfold count_row. apply fmap_pointwise. intros h' Hh'%elem_of_seqZ.
      fold subset. case_bool_decide as Heq.
      - subst h'. by rewrite Hpeak.
      - by rewrite Hzero by (done || lia). }
    rewrite Hrow, (fit_transform_zero_or_peak m e Hm He).
    + rewrite Hcf. apply fmap_fmap_one. intros h'. by case_bool_decide.
    + apply Forall_forall. intros x (h' & -> & _)%list_elem_of_fmap.
      unfold zero_or. case_bool_decide; auto.
    + apply list_elem_of_fmap. exists (if bool_decide (h = 0) then 1 else 0).
      split.
      * repeat case_bool_decide; (done || lia).
      * apply elem_of_seqZ. case_bool_decide; lia.
    + apply list_elem_of_fmap. exists h. split.
      * by rewrite bool_decide_eq_true_2.
      * apply elem_of_seqZ. lia.
Qed.

Lemma C8_signature_row_witness :
  length ((λ h, if bool_decide (h = 8) then f1 else f0) <$> seqZ 0 24)
  = 24%nat.
Proof.
  apply (C8_signature_row 0 [[Examples.weekday_trip_at 8;
                              Examples.weekday_trip_at 8;
                              Examples.weekday_trip_at 8]]
           [(7, (λ h, if bool_decide (h = 8) then f1 else f0) <$> seqZ 0 24)]
           7).
  - vm_compute. reflexivity.
  - left.
Defined.

(** Three trips in one hour do give exactly 1.0 there. *)
Example signature_three_at_eight :
  df_signature 0 [[Examples.weekday_trip_at 8; Examples.weekday_trip_at 8;
                   Examples.weekday_trip_at 8]]
  = Some [(7, (λ h, if bool_decide (h = 8) then f1 else f0) <$> seqZ 0 24)].
Proof. vm_compute. reflexivity. Qed.

(** A station whose 49 weekday trips all start between 08:00 and 09:00 gets
    0.9999999999999999 for that hour, the float just below 1.0. *)
Lemma C8_peak_of_49_trips_is_not_one :
  df_signature 0 Examples.files_49_at_eight
  = Some [(7, (λ h, if bool_decide (h = 8)
                    then S754_finite false 9007199254740991 (-53)
                    else f0) <$> seqZ 0 24)]
  ∧ S754_finite false 9007199254740991 (-53) ≠ f1
  ∧ fltb (S754_finite false 9007199254740991 (-53)) f1 = true.
Proof.
  split_and!.
  - vm_compute. reflexivity.
  - vm_compute. discriminate.
  - vm_compute. reflexivity.
Qed.

End SignatureFacts.

(** * Further properties *)

(** ** The normaliser loop *)

Section NormalizerMore.

Import Normalizer.

Lemma filter_all {A} (P : A → Prop) `{∀ x, Decision (P x)} (l : list A) :
  (∀ x, x ∈ l → P x) → filter P l = l.
Proof.
  induction l as [|x l IH]; intros Hall; [done|].
  rewrite filter_cons_True by (apply Hall; left).
  f_equal. apply IH. intros y Hy. apply Hall. by right.
Qed.

Lemma length_filter_split {A} (P : A → bool) (l : list A) :
  (length l = length (filter (λ x, P x = true) l)
              + length (filter (λ x, negb (P x) = true) l))%nat.
Proof.
  induction l as [|x l IH]; [done|].
  rewrite !filter_cons. destruct (P x) eqn:HP; simpl;
    repeat case_decide; simpl; try done; lia.
Qed.

Lemma impute_idemp (map_names : gmap Z (option string))
    (map_lat map_lng : gmap Z (option Q)) (r : Trip) :
  impute map_names map_lat map_lng (impute map_names map_lat map_lng r)
  = impute map_names map_lat map_lng r.
Proof. unfold impute; simpl. by rewrite !fillna_idemp. Qed.

(** Imputation leaves the dates and the ids alone, hence the checks made
    before it. *)
Lemma impute_checks (map_names : gmap Z (option string))
    (map_lat map_lng : gmap Z (option Q)) (r : Trip) :
  has_dates (impute map_names map_lat map_lng r) = has_dates r
  ∧ invalid_mask (impute map_names map_lat map_lng r) = invalid_mask r
  ∧ has_station_ids (impute map_names map_lat map_lng r) = has_station_ids r
  ∧ trip_duration (impute map_names map_lat map_lng r) = trip_duration r.
Proof. done. Qed.

Lemma process_file_elem (map_names : gmap Z (option string))
    (map_lat map_lng : gmap Z (option Q)) (df : list Trip) (r : Trip) :
  r ∈ process_file map_names map_lat map_lng df ↔
  ∃ r0, r0 ∈ df ∧ r = impute map_names map_lat map_lng r0
        ∧ has_dates r0 = true ∧ invalid_mask r0 = false
        ∧ has_station_ids r0 = true.
Proof.
  unfold process_file, valid_trips.
  rewrite list_elem_of_filter, list_elem_of_fmap. split.
  - intros (Hids & r0 & -> & Hr0).
    apply list_elem_of_filter in Hr0 as [Hmask Hr0].
    apply list_elem_of_filter in Hr0 as [Hdates Hr0].
    exists r0. split_and!; try done. by apply negb_true_iff.
  - intros (r0 & Hr0 & -> & Hdates & Hmask & Hids). split; [done|].
    exists r0. split; [done|].
    apply list_elem_of_filter. split; [by apply negb_true_iff|].
    by apply list_elem_of_filter.
Qed.

(** X1: every row the normaliser writes is the imputation of a row of the
    file, has both timestamps, a station id at both ends, two different
    stations, and a duration from 180 s to 10800 s. *)
Theorem X1_process_file_output_guarantee
    (map_names : gmap Z (option string)) (map_lat map_lng : gmap Z (option Q))
    (df : list Trip) (r : Trip) :
  r ∈ process_file map_names map_lat map_lng df →
  (∃ r0, r0 ∈ df ∧ r = impute map_names map_lat map_lng r0)
  ∧ is_Some (started_at r) ∧ is_Some (ended_at r)
  ∧ (∃ s e, start_station_id r = Some s ∧ end_station_id r = Some e ∧ s ≠ e)
  ∧ ∃ d, trip_duration r = Some d
         ∧ (inject_Z 180 <= d)%Q ∧ (d <= inject_Z 10800)%Q.
Proof.
  intros (r0 & Hr0 & -> & Hdates & Hmask & Hids)%process_file_elem.
  unfold invalid_mask in Hmask. rewrite !orb_false_iff in Hmask.
  destruct Hmask as [[Hlt Hgt] Heq].
  unfold has_dates in Hdates. unfold has_station_ids in Hids.
  unfold trip_duration in *. simpl.
  destruct (started_at r0) as [s|], (ended_at r0) as [e|]; try done.
  destruct (start_station_id r0) as [a|], (end_station_id r0) as [b|]; try done.
  split_and!; eauto.
  - exists a, b. split_and!; try done. simpl in Heq. lia.
  - eexists. split; [done|]. split.
    + by apply lt_const_false.
    + by apply gt_const_false.
Qed.

Lemma X1_process_file_output_guarantee_witness :
  ∃ d, trip_duration (impute Examples.other_names Examples.other_coords
                        Examples.other_coords (Examples.trip_lasting 400))
       = Some d ∧ (inject_Z 180 <= d)%Q ∧ (d <= inject_Z 10800)%Q.
Proof.
  apply (X1_process_file_output_guarantee Examples.other_names
           Examples.other_coords Examples.other_coords
           [Examples.trip_lasting 400]).
  vm_compute. left.
Defined.

(** X2: cleaning a cleaned frame again, against the same dicts, gives it
    back unchanged. *)
Theorem X2_process_file_idempotent
    (map_names : gmap Z (option string)) (map_lat map_lng : gmap Z (option Q))
    (df : list Trip) :
  process_file map_names map_lat map_lng
    (process_file map_names map_lat map_lng df)
  = process_file map_names map_lat map_lng df.
Proof.
  set (out := process_file map_names map_lat map_lng df).
  assert (∀ r, r ∈ out →
            has_dates r = true ∧ invalid_mask r = false
            ∧ has_station_ids r = true
            ∧ impute map_names map_lat map_lng r = r) as Hout.
  { intros r (r0 & _ & -> & ? & ? & ?)%process_file_elem.
    split_and!; try done. apply impute_idemp. }
  unfold process_file at 1, valid_trips.
  rewrite (filter_all (λ r, has_dates r = true) out) by (intros; by apply Hout).
  rewrite (filter_all (λ r, negb (invalid_mask r) = true) out).
  2:{ intros r Hr. apply negb_true_iff. by apply Hout. }
  rewrite (fmap_pointwise _ id) by (intros; by apply Hout).
  rewrite list_fmap_id. apply filter_all. intros; by apply Hout.
Qed.

(** X3: the rows a file loses are those with a corrupted date, those of the
    invalid mask and those without a station id, each counted once; the
    printed "Dropped" is the sum of the two printed counts and of the number
    of corrupted dates, and no counter is negative. *)
Theorem X3_process_file_accounting
    (map_names : gmap Z (option string)) (map_lat map_lng : gmap Z (option Q))
    (df : list Trip) :
  let stats := process_file_stats map_names map_lat map_lng df in
  let corrupted := Z.of_nat (length (filter (λ r, has_dates r = false) df)) in
  dropped_rows stats = corrupted + num_invalid stats + rows_no_id stats
  ∧ initial_rows stats = final_rows stats + dropped_rows stats
  ∧ final_rows stats
    = Z.of_nat (length (process_file map_names map_lat map_lng df))
  ∧ 0 ≤ num_invalid stats ∧ 0 ≤ rows_no_id stats
  ∧ 0 ≤ final_rows stats ≤ initial_rows stats.
Proof.
  unfold process_file_stats, process_file, valid_trips. simpl.
  set (with_dates := filter (λ r, has_dates r = true) df).
  set (kept := filter (λ r, negb (invalid_mask r) = true) with_dates).
  set (imputed := impute map_names map_lat map_lng <$> kept).
  set (final := filter (λ r, has_station_ids r = true) imputed).
  pose proof (length_filter_split has_dates df) as H1.
  pose proof (length_filter_split invalid_mask with_dates) as H2.
  fold with_dates in H1. fold kept in H2.
  assert (length (filter (λ r, negb (has_dates r) = true) df)
          = length (filter (λ r, has_dates r = false) df)) as H1'.
  { f_equal. apply list_filter_iff. intros r. apply negb_true_iff. }
  assert (length imputed = length kept) as H3 by apply length_fmap.
  pose proof (length_filter (λ r, has_station_ids r = true) imputed) as H4.
  fold final in H4. lia.
Qed.

(** X4: the normaliser only removes rows: the ride ids it writes are those
    of the file with some left out, in the order of the file. *)
Theorem X4_process_file_keeps_order
    (map_names : gmap Z (option string)) (map_lat map_lng : gmap Z (option Q))
    (df : list Trip) :
  sublist (ride_id <$> process_file map_names map_lat map_lng df)
          (ride_id <$> df).
Proof.
  unfold process_file, valid_trips.
  etrans; [apply fmap_sublist, sublist_filter|].
  rewrite (fmap_fmap_one ride_id (impute map_names map_lat map_lng) ride_id)
    by done.
  apply fmap_sublist. etrans; apply sublist_filter.
Qed.

End NormalizerMore.

(** ** The station master file and its dicts *)

Section RegistryMore.

Import Registry.

Lemma lookup_list_to_map_keys {A} (f : Z → A) (keys : list Z) (k : Z) :
  (list_to_map ((λ key, (key, f key)) <$> keys) : gmap Z A) !! k
  = if decide (k ∈ keys) then Some (f k) else None.
Proof.
  induction keys as [|k0 keys IH].
  - simpl. rewrite lookup_empty. destruct (decide (k ∈ [])) as [Hin|]; [|done].
    by apply elem_of_nil in Hin.
  - rewrite fmap_cons, list_to_map_cons, lookup_insert.
    destruct (decide (k0 = k)) as [-> | Hne].
    + by rewrite decide_True by left.
    + rewrite IH.
      destruct (decide (k ∈ keys)) as [Hin | Hnotin].
      * by rewrite decide_True by (by right).
      * rewrite decide_False; [done|].
        intros [?|?]%elem_of_cons; [congruence | done].
Qed.

Lemma group_keys_elem (df : list StationRow) (k : Z) :
  k ∈ group_keys df ↔ k ∈ omap station_id df.
Proof.
  unfold group_keys. by rewrite merge_sort_Permutation, elem_of_remove_dups.
Qed.

(** Reading a dict of the registry: the key must be an id of the
    accumulated rows, and the value is the first entry of its column that is
    not null among the rows of that id. *)
Lemma to_dict_lookup {A} (col : StationRow → option A)
    (df : list StationRow) (k : Z) :
  to_dict col (groupby_first df) !! k
  = if decide (k ∈ omap station_id df)
    then Some (col (mkStationRow (Some k)
                      (first_valid (station_name <$> group k df))
                      (first_valid (lat <$> group k df))
                      (first_valid (lng <$> group k df))))
    else None.
Proof.
  unfold to_dict, groupby_first.
  rewrite (to_dict_groupby_first col
             (λ key df, col (mkStationRow (Some key)
                (first_valid (station_name <$> group key df))
                (first_valid (lat <$> group key df))
                (first_valid (lng <$> group key df))))) by done.
  rewrite (lookup_list_to_map_keys
             (λ key, col (mkStationRow (Some key)
                (first_valid (station_name <$> group key df))
                (first_valid (lat <$> group key df))
                (first_valid (lng <$> group key df))))).
  destruct (decide (k ∈ omap station_id df)) as [Hin | Hnotin].
  - by rewrite decide_True by (by apply group_keys_elem).
  - rewrite decide_False; [done|]. by rewrite group_keys_elem.
Qed.

(** X5: the three dicts of phase 1 have the same keys, and these are the
    station ids seen, at either end of a trip, in some file. *)
Theorem X5_registry_keys
    (sort_values : list StationRow → list StationRow)
    (csv_files : list (list Trip)) (k : Z) :
  sorts_by_name sort_values →
  let seen := ∃ df_temp r, df_temp ∈ csv_files ∧ r ∈ observations df_temp
                           ∧ station_id r = Some k in
  (is_Some (map_names sort_values csv_files !! k) ↔ seen)
  ∧ (is_Some (map_lat sort_values csv_files !! k) ↔ seen)
  ∧ (is_Some (map_lng sort_values csv_files !! k) ↔ seen).
Proof.
  intros Hsort seen. unfold map_names, map_lat, map_lng, df_stations.
  rewrite !to_dict_lookup.
  pose proof (concat_stations_ids sort_values csv_files k Hsort) as Hids.
  fold seen in Hids.
  destruct (decide (k ∈ omap station_id (concat_stations sort_values csv_files)))
    as [Hin | Hnotin].
  - apply Hids in Hin. split_and!; split; eauto.
  - assert (¬ seen) as Hns by (intros Hs; by apply Hnotin, Hids).
    split_and!; split; try done; by intros [? ?].
Qed.

Lemma X5_registry_keys_witness :
  is_Some (map_lat merge_sort_values [Examples.file_a; Examples.file_b] !! 79).
Proof.
  apply (proj2 (X5_registry_keys merge_sort_values
                  [Examples.file_a; Examples.file_b] 79
                  merge_sort_values_sorts)).
  exists Examples.file_a,
    (mkStationRow (Some 79) (Some "Franklin St") (Some (4071 # 100)%Q)
                  (Some (-7400 # 100)%Q)).
  split; [left|]. split; [|reflexivity].
  vm_compute. right. left.
Defined.

Lemma sorted_le_NoDup_lt (l : list Z) :
  Sorted Z.le l → NoDup l → StronglySorted Z.lt l.
Proof.
  intros Hs%Sorted_StronglySorted Hnd; [|apply _].
  induction Hs as [|x l Hs IH Hall]; [constructor|].
  apply NoDup_cons in Hnd as [Hx Hnd]. constructor; [by apply IH|].
  rewrite Forall_forall in *. intros y Hy.
  specialize (Hall y Hy). assert (x ≠ y) by (intros ->; done). lia.
Qed.

Lemma group_keys_sorted (df : list StationRow) :
  StronglySorted Z.lt (group_keys df).
Proof.
  unfold group_keys. apply sorted_le_NoDup_lt.
  - apply Sorted_merge_sort, _.
  - rewrite merge_sort_Permutation. apply NoDup_remove_dups.
Qed.

(** X6: the station master file has one row per station id, rows in
    strictly ascending order of the id, whatever the files and their order. *)
Theorem X6_df_stations_sorted_unique
    (sort_values : list StationRow → list StationRow)
    (csv_files : list (list Trip)) :
  ∃ keys, station_id <$> df_stations sort_values csv_files = Some <$> keys
          ∧ StronglySorted Z.lt keys
          ∧ NoDup (station_id <$> df_stations sort_values csv_files).
Proof.
  exists (group_keys (concat_stations sort_values csv_files)).
  assert (station_id <$> df_stations sort_values csv_files
          = Some <$> group_keys (concat_stations sort_values csv_files)) as Heq.
  { unfold df_stations, groupby_first. by apply fmap_fmap_one. }
  split_and!; [done | apply group_keys_sorted |].
  rewrite Heq. apply (NoDup_fmap_2 Some).
  unfold group_keys. rewrite merge_sort_Permutation. apply NoDup_remove_dups.
Qed.

Lemma first_valid_Some {A} (cells : list (option A)) :
  is_Some (first_valid cells) ↔ ∃ v, Some v ∈ cells.
Proof.
  unfold first_valid. induction cells as [|[v|] cells IH]; simpl.
  - split; [by intros [? ?] | by intros [? ?%elem_of_nil]].
  - split; [|by eauto]. intros _. exists v. left.
  - rewrite IH. split; intros [v Hv]; exists v; [by right|].
    by apply elem_of_cons in Hv as [?|?].
Qed.

Lemma first_valid_singleton {A} (cell : option A) : first_valid [cell] = cell.
Proof. by destruct cell. Qed.

Lemma name_leb_Some (a : option string) (n : string) :
  name_leb a (Some n) = true → is_Some a.
Proof. by destruct a. Qed.

Lemma map_names_known
    (sort_values : list StationRow → list StationRow)
    (csv_files : list (list Trip)) (k : Z) :
  sorts_by_name sort_values →
  (∃ n, map_names sort_values csv_files !! k = Some (Some n)) ↔
  ∃ df_temp r n, df_temp ∈ csv_files ∧ r ∈ observations df_temp
                 ∧ station_id r = Some k ∧ station_name r = Some n.
Proof.
  intros Hsort. unfold map_names, df_stations.
  rewrite to_dict_lookup. simpl.
  pose proof (concat_stations_ids sort_values csv_files k Hsort) as Hids.
  split.
  - intros [n Hn]. case_decide as Hin; [|done].
    assert (is_Some (first_valid (station_name
              <$> group k (concat_stations sort_values csv_files)))) as Hfv
      by (simplify_eq; eauto).
    apply first_valid_Some in Hfv as (n' & Hn').
    apply list_elem_of_fmap in Hn' as (r & Hname & Hr).
    apply list_elem_of_filter in Hr as [Hid Hr].
    apply elem_of_concat in Hr as (l & Hr & Hl).
    apply list_elem_of_fmap in Hl as (df_temp & -> & Hdf).
    exists df_temp, r, n'. split_and!; try done.
    by apply (scan_file_observed sort_values Hsort).
  - intros (df_temp & r' & n & Hdf & Hr' & Hid & Hname).
    rewrite decide_True by (apply Hids; eauto).
    destruct (scan_file_covers sort_values Hsort df_temp r' Hr')
      as (r & Hr & Hidr).
    pose proof (scan_file_least_name sort_values Hsort df_temp r r' Hr Hr'
                  (eq_sym Hidr)) as Hle.
    unfold name_le in Hle. rewrite Hname in Hle.
    apply name_leb_Some in Hle as [n' Hn'].
    assert (is_Some (first_valid (station_name
              <$> group k (concat_stations sort_values csv_files)))) as [n'' ->].
    { apply first_valid_Some. exists n'. rewrite <- Hn'.
      apply list_elem_of_fmap. exists r. split; [done|].
      apply list_elem_of_filter. split; [congruence|].
      apply elem_of_concat. exists (scan_file sort_values df_temp).
      split; [done|]. apply list_elem_of_fmap. by exists df_temp. }
    by exists n''.
Qed.

(** X7: the registry has a name for a station id exactly when some trip of
    some file names that station, at either end; it holds a null name only
    for an id that no file ever names. *)
Theorem X7_registry_name_known
    (sort_values : list StationRow → list StationRow)
    (csv_files : list (list Trip)) (k : Z) :
  sorts_by_name sort_values →
  (∃ n, map_names sort_values csv_files !! k = Some (Some n)) ↔
  ∃ df_temp r n, df_temp ∈ csv_files ∧ r ∈ observations df_temp
                 ∧ station_id r = Some k ∧ station_name r = Some n.
Proof. apply map_names_known. Qed.

Lemma X7_registry_name_known_witness :
  ∃ n, map_names merge_sort_values [Examples.file_a; Examples.file_b] !! 72
       = Some (Some n).
Proof.
  apply (proj2 (X7_registry_name_known merge_sort_values
                  [Examples.file_a; Examples.file_b] 72
                  merge_sort_values_sorts)).
  exists Examples.file_b,
    (mkStationRow (Some 72) (Some "W 52 St") (Some (4077 # 100)%Q)
                  (Some (-7398 # 100)%Q)), "W 52 St".
  split; [right; left|]. split; [|split; reflexivity].
  vm_compute. left.
Defined.

(** X8: a station id that only one file mentions gets, as its registry row,
    the whole row that file kept for it: name, latitude and longitude of one
    and the same observation. *)
Theorem X8_single_file_id_keeps_whole_row
    (sort_values : list StationRow → list StationRow)
    (before after : list (list Trip)) (df_temp : list Trip)
    (k : Z) (r : StationRow) :
  sorts_by_name sort_values →
  (∀ other r', other ∈ before ++ after → r' ∈ observations other →
               station_id r' ≠ Some k) →
  r ∈ scan_file sort_values df_temp → station_id r = Some k →
  r ∈ df_stations sort_values (before ++ df_temp :: after).
Proof.
  intros Hsort Hother Hr Hid.
  assert (∀ others, (∀ other, other ∈ others → other ∈ before ++ after) →
            group k (concat_stations sort_values others) = []) as Hempty.
  { intros others Hsub. apply filter_none. intros r' Hr' Hid'.
    apply elem_of_concat in Hr' as (l & Hr' & Hl).
    apply list_elem_of_fmap in Hl as (other & -> & Ho).
    apply (Hother other r'); [by apply Hsub | | done].
    by apply (scan_file_observed sort_values Hsort). }
  assert (group k (concat_stations sort_values (before ++ df_temp :: after))
          = [r]) as Hg.
  { unfold concat_stations, group in *.
    rewrite fmap_app, fmap_cons, concat_app. simpl.
    rewrite !filter_app.
    rewrite (Hempty before) by (intros; apply elem_of_app; by left).
    rewrite (Hempty after) by (intros; apply elem_of_app; by right).
    rewrite app_nil_r. simpl. rewrite <- Hid.
    apply (filter_key_singleton station_id); [apply scan_file_NoDup | done]. }
  unfold df_stations. apply groupby_first_elem. exists k. split.
  - apply list_elem_of_omap. exists r. split; [|done].
    apply elem_of_concat. exists (scan_file sort_values df_temp).
    split; [done|]. apply list_elem_of_fmap. exists df_temp.
    split; [done|]. apply elem_of_app. right. left.
  - rewrite Hg. simpl. rewrite !first_valid_singleton.
    destruct r; simplify_eq/=. done.
Qed.

Lemma X8_single_file_id_keeps_whole_row_witness :
  mkStationRow (Some 72) (Some "11 Ave") (Some (4077 # 100)%Q)
               (Some (-7398 # 100)%Q)
  ∈ df_stations merge_sort_values ([] ++ Examples.file_two_names :: []).
Proof.
  apply (X8_single_file_id_keeps_whole_row merge_sort_values [] []
           Examples.file_two_names 72).
  - apply merge_sort_values_sorts.
  - by intros other r' ?%elem_of_nil.
  - vm_compute. left.
  - reflexivity.
Defined.

(** X9: the script stops without output exactly when it is given no file;
    otherwise it writes one cleaned frame per file, and in these frames a
    trip lacks the name of its start (or end) station only if no trip of any
    file names that station. *)
Theorem X9_main_recovers_known_names
    (sort_values : list StationRow → list StationRow)
    (csv_files : list (list Trip)) :
  sorts_by_name sort_values →
  (MakeDataset.main sort_values csv_files = None ↔ csv_files = [])
  ∧ ∀ stations frames,
      MakeDataset.main sort_values csv_files = Some (stations, frames) →
      length frames = length csv_files
      ∧ ∀ out r k,
          out ∈ frames → r ∈ out →
          (∃ df_temp o n, df_temp ∈ csv_files ∧ o ∈ observations df_temp
                          ∧ station_id o = Some k ∧ station_name o = Some n) →
          (start_station_id r = Some k → is_Some (start_station_name r))
          ∧ (end_station_id r = Some k → is_Some (end_station_name r)).
Proof.
  intros Hsort. split.
  - unfold MakeDataset.main. by destruct csv_files.
  - intros stations frames Hmain.
    assert (frames = MakeDataset.phase2 sort_values csv_files) as ->.
    { unfold MakeDataset.main in Hmain. destruct csv_files; by simplify_eq. }
    unfold MakeDataset.phase2. split; [by rewrite length_fmap|].
    intros out r k (df & -> & Hdf)%list_elem_of_fmap Hr Hnamed.
    apply (map_names_known sort_values csv_files k Hsort) in Hnamed as [n Hn].
    apply process_file_elem in Hr as (r0 & _ & -> & _).
    simpl. split; intros ->; unfold series_map; rewrite Hn;
      by destruct (start_station_name r0), (end_station_name r0).
Qed.

Lemma X9_main_recovers_known_names_witness :
  MakeDataset.main merge_sort_values [] = None.
Proof.
  by apply (proj1 (X9_main_recovers_known_names merge_sort_values []
                     merge_sort_values_sorts)).
Defined.

(** The first file's trip from station 72 has no name of its own and is
    written with the name the second file knows. *)
Example main_fills_name_from_other_file :
  (λ frame : list Trip, start_station_name <$> frame)
    <$> MakeDataset.phase2 merge_sort_values [Examples.file_a; Examples.file_b]
  = [[Some "W 52 St"]; [Some "W 52 St"]].
Proof. vm_compute. reflexivity. Qed.

End RegistryMore.

(** ** Joins, flags and rounding of the enrichment *)

Section EnrichMore.

Import Enrich.

(** X10: with one observation per hour, an enriched trip carries exactly the
    five measurements of the observation at its rounded start hour. *)
Theorem X10_weather_of_rounded_hour
    (df_weather : list WeatherRow) (df_sun : list SunRow)
    (df_month : list CleanTrip) (e : EnrichedTrip) (w : WeatherRow) :
  NoDup (time <$> df_weather) →
  e ∈ enrich_month df_weather df_sun df_month →
  w ∈ df_weather →
  time w = dt_round_h (started_at (trip e)) →
  weather e = observed w.
Proof.
  intros Hnd He Hw Hkey. apply enrich_month_elem in He as (row & Hrow & ->).
  apply merged_elem in Hrow as (_ & Htt & _ & Hmatch & _). simpl in *.
  unfold match_of in Hmatch. destruct (m_weather row) as [w'|]; simpl.
  - destruct Hmatch as [Hw' Hk']. f_equal.
    apply (NoDup_fmap_elem_inj time df_weather); [done..|congruence].
  - exfalso. apply (Hmatch w Hw). congruence.
Qed.

Lemma X10_weather_of_rounded_hour_witness :
  weather (finish (mkMergedRow
             (Examples.clean_trip_at (at_time day_2025_01_01 14 40 0))
             (at_time day_2025_01_01 15 0 0)
             (Some (mkWeatherRow (at_time day_2025_01_01 15 0 0)
                                 (Examples.weather_at (3 # 1)%Q)))
             day_2025_01_01
             (Some (mkSunRow day_2025_01_01 (at_time day_2025_01_01 7 20 0)
                             (at_time day_2025_01_01 16 39 0)))))
  = Examples.weather_at (3 # 1)%Q.
Proof.
  apply (X10_weather_of_rounded_hour Examples.weather_afternoon
           Examples.sun_new_year
           [Examples.clean_trip_at (at_time day_2025_01_01 14 40 0)] _
           (mkWeatherRow (at_time day_2025_01_01 15 0 0)
                         (Examples.weather_at (3 # 1)%Q))).
  - apply (bool_decide_unpack _). by vm_compute.
  - vm_compute. left.
  - vm_compute. right. left.
  - by vm_compute.
Defined.

Lemma get_sun_cycles_elem (sun : Z → Timestamp * Timestamp) (s : SunRow) :
  s ∈ get_sun_cycles sun ↔
  day_2025_01_01 ≤ date_key s < day_2025_01_01 + 365
  ∧ sunrise s = fst (sun (date_key s)) ∧ sunset s = snd (sun (date_key s)).
Proof.
  unfold get_sun_cycles. rewrite list_elem_of_fmap. split.
  - intros (d & -> & Hd%elem_of_seqZ). simpl. split_and!; (done || lia).
  - intros (Hd & Hr & Hs). exists (date_key s). split.
    + destruct s; simpl in *. by subst.
    + apply elem_of_seqZ. lia.
Qed.

(** X11: against the solar table the script builds, a trip that starts on a
    day of 2025 is a day trip exactly when it starts between that day's
    sunrise and sunset, both included, and a trip that starts on any other
    day is written as a night trip. *)
Theorem X11_is_day_against_built_table
    (sun : Z → Timestamp * Timestamp) (df_weather : list WeatherRow)
    (df_month : list CleanTrip) (e : EnrichedTrip) :
  e ∈ enrich_month df_weather (get_sun_cycles sun) df_month →
  let t := started_at (trip e) in
  (day_2025_01_01 ≤ dt_date t < day_2025_01_01 + 365 →
   (is_day e = 1 ↔ fst (sun (dt_date t)) ≤ t ≤ snd (sun (dt_date t))))
  ∧ (¬ (day_2025_01_01 ≤ dt_date t < day_2025_01_01 + 365) → is_day e = 0).
Proof.
  intros (row & Hrow & ->)%enrich_month_elem. simpl.
  apply merged_elem in Hrow as (_ & _ & Htd & _ & Hsun).
  unfold match_of in Hsun. unfold is_day_of.
  destruct (m_sun row) as [s|]; simpl.
  - destruct Hsun as [Hs Hkey]. apply get_sun_cycles_elem in Hs as (Hd & Hr & Hss).
    rewrite Htd in Hkey. rewrite Hkey in *. split; [|lia].
    intros _. rewrite Hr, Hss.
    destruct (Z.leb_spec (sun (dt_date (started_at (m_trip row)))).1
                         (started_at (m_trip row)));
      destruct (Z.leb_spec (started_at (m_trip row))
                           (sun (dt_date (started_at (m_trip row)))).2);
      simpl; split; intros; (done || lia).
  - split; [|done]. intros Hd. exfalso.
    apply (Hsun (mkSunRow (m_temp_date row)
                   (fst (sun (m_temp_date row))) (snd (sun (m_temp_date row))))).
    + apply get_sun_cycles_elem. simpl. rewrite Htd. done.
    + done.
Qed.

Lemma X11_is_day_against_built_table_witness :
  is_day (finish (mkMergedRow
            (Examples.clean_trip_at (at_time (day_2025_01_01 + 400) 12 0 0))
            (at_time (day_2025_01_01 + 400) 12 0 0) None
            (day_2025_01_01 + 400) None)) = 0.
Proof.
  apply (X11_is_day_against_built_table
           (λ d, (d * ns_per_day + 7 * ns_per_hour,
                  d * ns_per_day + 17 * ns_per_hour)) []
           [Examples.clean_trip_at (at_time (day_2025_01_01 + 400) 12 0 0)]).
  - vm_compute. left.
  - vm_compute. intros [_ H]. discriminate H.
Defined.

Lemma dt_date_shift_week (t : Timestamp) :
  dt_date (t + 7 * ns_per_day) = dt_date t + 7.
Proof.
  unfold dt_date. rewrite Z.div_add; [done|]. by vm_compute.
Qed.

(** X12: the weekend flag of an enriched trip is 0 or 1, is the same for all
    start times of one calendar day, repeats every seven days, and is 1
    exactly on the days whose number since 1970-01-01 (a Thursday) leaves
    remainder 2 or 3 modulo 7, the Saturdays and the Sundays. *)
Theorem X12_weekend_flag (t : Timestamp) :
  (is_weekend_of t = 0 ∨ is_weekend_of t = 1)
  ∧ (is_weekend_of t = 1 ↔ dt_date t mod 7 = 2 ∨ dt_date t mod 7 = 3)
  ∧ is_weekend_of (t + 7 * ns_per_day) = is_weekend_of t
  ∧ (∀ t', dt_date t' = dt_date t → is_weekend_of t' = is_weekend_of t)
  ∧ (∀ df_weather df_sun df_month e,
       e ∈ enrich_month df_weather df_sun df_month →
       is_weekend e = is_weekend_of (started_at (trip e))).
Proof.
  unfold is_weekend_of, dt_dayofweek. split_and!.
  - case_bool_decide; simpl; auto.
  - pose proof (Z.mod_pos_bound (dt_date t) 7 ltac:(lia)) as Hb.
    pose proof (Z.mod_pos_bound (dt_date t + 3) 7 ltac:(lia)) as Hb3.
    assert ((dt_date t + 3) mod 7 = (dt_date t mod 7 + 3) mod 7) as Hmod
      by (by rewrite Z.add_mod_idemp_l by lia).
    case_bool_decide as Hin; simpl.
    + split; [intros _|done].
      rewrite !elem_of_cons, elem_of_nil in Hin. rewrite Hmod in Hin.
      assert (dt_date t mod 7 = 0 ∨ dt_date t mod 7 = 1 ∨ dt_date t mod 7 = 2
              ∨ dt_date t mod 7 = 3 ∨ dt_date t mod 7 = 4
              ∨ dt_date t mod 7 = 5 ∨ dt_date t mod 7 = 6) as Hcases by lia.
      destruct Hcases as [H|[H|[H|[H|[H|[H|H]]]]]]; rewrite H in Hin;
        vm_compute in Hin; intuition congruence.
    + split; [done|]. intros Hd. exfalso. apply Hin.
      rewrite Hmod. destruct Hd as [-> | ->]; vm_compute; [left | right; left].
  - rewrite dt_date_shift_week.
    replace (dt_date t + 7 + 3) with (dt_date t + 3 + 1 * 7) by lia.
    by rewrite Z.mod_add by lia.
  - by intros t' ->.
  - by intros df_weather df_sun df_month e (row & _ & ->)%enrich_month_elem.
Qed.

(** 2025-01-04 was a Saturday and 2025-01-06 a Monday. *)
Example weekend_flag_first_week_of_2025 :
  is_weekend_of (at_time (day_2025_01_01 + 3) 23 59 59) = 1
  ∧ is_weekend_of (at_time (day_2025_01_01 + 4) 0 0 0) = 1
  ∧ is_weekend_of (at_time (day_2025_01_01 + 5) 0 0 0) = 0.
Proof. by vm_compute. Qed.

End EnrichMore.

Section RoundingMore.

Lemma ns_per_day_eq : ns_per_day = 86400000000000.
Proof. reflexivity. Qed.

Lemma round_h_cases (t : Timestamp) :
  ∃ q r, t = 3600000000000 * q + r ∧ 0 ≤ r < 3600000000000
    ∧ ((dt_round_h t = (q + 1) * 3600000000000
        ∧ (1800000000000 < r ∨ (r = 1800000000000 ∧ Z.odd q = true)))
       ∨ (dt_round_h t = q * 3600000000000
          ∧ (r < 1800000000000 ∨ (r = 1800000000000 ∧ Z.odd q = false)))).
Proof.
  unfold dt_round_h, round_nsint64. rewrite ns_per_hour_eq.
  change (3600000000000 / 2) with 1800000000000.
  pose proof (Z.div_mod t 3600000000000 ltac:(lia)) as Hdm.
  pose proof (Z.mod_pos_bound t 3600000000000 ltac:(lia)) as Hb.
  exists (t / 3600000000000), (t mod 3600000000000).
  set (q := t / 3600000000000) in *. set (r := t mod 3600000000000) in *.
  split; [done|]. split; [done|].
  destruct (Z.ltb_spec 1800000000000 r) as [Hlt | Hge]; simpl.
  - left. split; [done|]. by left.
  - destruct (Z.eqb_spec r 1800000000000) as [Heq | Hne]; simpl.
    + destruct (Z.odd q) eqn:Hodd.
      * left. split; [done|]. by right.
      * right. split; [done|]. by right.
    + right. split; [done|]. left. lia.
Qed.

Lemma dt_round_h_whole_hour (q : Z) :
  dt_round_h (q * ns_per_hour) = q * ns_per_hour.
Proof.
  unfold dt_round_h, round_nsint64. rewrite ns_per_hour_eq.
  rewrite Z.div_mul, Z.mod_mul by lia. reflexivity.
Qed.

(** X13: rounding the start time to the hour leaves whole hours unchanged,
    gives the same result when applied twice, and never reverses the order
    of two start times. *)
Theorem X13_round_h_idempotent_monotone (t t' : Timestamp) :
  (∀ q, dt_round_h (q * ns_per_hour) = q * ns_per_hour)
  ∧ dt_round_h (dt_round_h t) = dt_round_h t
  ∧ (t ≤ t' → dt_round_h t ≤ dt_round_h t').
Proof.
  split_and!.
  - apply dt_round_h_whole_hour.
  - destruct (round_h_cases t) as (q & r & _ & _ & [[-> _] | [-> _]]);
      rewrite <- ns_per_hour_eq; apply dt_round_h_whole_hour.
  - intros Hle.
    destruct (round_h_cases t) as (q & r & -> & Hr & Ht).
    destruct (round_h_cases t') as (q' & r' & -> & Hr' & Ht').
    assert (q < q' ∨ q = q' ∨ q' < q) as [Hq | [-> | Hq]] by lia.
    + destruct Ht as [[-> _] | [-> _]], Ht' as [[-> _] | [-> _]]; lia.
    + destruct Ht as [[-> Hm] | [-> Hm]], Ht' as [[-> Hm'] | [-> Hm']];
        try lia.
      destruct Hm as [Hm | [-> Hodd]], Hm' as [Hm' | [-> Hodd']];
        try lia; congruence.
    + lia.
Qed.

(** X14: rounding to the hour never moves a start time to an earlier
    calendar day, and moves it to another day only when the result is the
    midnight that opens the next day; so the hour of the weather lookup and
    the day of the solar lookup can differ by at most that one step. *)
Theorem X14_round_h_stays_in_day_or_next_midnight (t : Timestamp) :
  dt_date (dt_round_h t) = dt_date t
  ∨ dt_round_h t = (dt_date t + 1) * ns_per_day.
Proof.
  unfold dt_date. rewrite ns_per_day_eq.
  pose proof (Z.div_mod t 86400000000000 ltac:(lia)) as Hdm.
  pose proof (Z.mod_pos_bound t 86400000000000 ltac:(lia)) as Hb.
  set (d := t / 86400000000000) in *. set (s := t mod 86400000000000) in *.
  destruct (round_h_cases t) as (q & r & Ht & Hr & Hcase).
  assert (∀ k, dt_round_h t = k * 3600000000000 →
               24 * d ≤ k ≤ 24 * d + 24 →
               dt_round_h t `div` 86400000000000 = d
               ∨ dt_round_h t = (d + 1) * 86400000000000) as Hfin.
  { intros k Hk Hrange.
    assert (k = 24 * d + 24 ∨ k < 24 * d + 24) as [-> | Hlt] by lia.
    - right. lia.
    - left. symmetry.
      apply (Z.div_unique _ _ _ (dt_round_h t - 86400000000000 * d)); lia. }
  destruct Hcase as [[Hk _] | [Hk _]]; apply (Hfin _ Hk); lia.
Qed.

(** The last half hour of 2025-01-01 is looked up at midnight of
    2025-01-02. *)
Example round_h_late_evening :
  dt_round_h (at_time day_2025_01_01 23 45 0)
  = at_time (day_2025_01_01 + 1) 0 0 0
  ∧ dt_date (at_time day_2025_01_01 23 45 0) = day_2025_01_01.
Proof. by vm_compute. Qed.

End RoundingMore.

(** ** The month batches of the enrichment *)

Section MonthsMore.

Import Enrich.

#[local] Instance string_le_trans : Transitive string_le.
Proof. intros a b c. unfold string_le. apply string_leb_trans. Qed.

#[local] Instance string_le_total : Total string_le.
Proof. intros a b. unfold string_le. apply String.leb_total. Qed.

Lemma prefix_before_dash (s : string) :
  String.prefix (before_dash s) s = true.
Proof.
  induction s as [|c s IH]; simpl; [done|].
  destruct (Ascii.eqb c dash); simpl; [done|].
  by destruct (Ascii.ascii_dec c c).
Qed.

Lemma prefix_same_length (a b s : string) :
  String.prefix a s = true → String.prefix b s = true →
  String.length a = String.length b → a = b.
Proof.
  revert a b. induction s as [|c s IH]; intros [|x a] [|y b]; simpl; try done.
  destruct (Ascii.ascii_dec x c) as [->|]; [|done].
  destruct (Ascii.ascii_dec y c) as [->|]; [|done].
  intros Ha Hb [= Hlen]. f_equal. by apply IH.
Qed.

Lemma months_elem (all_files : list string) (m : string) :
  m ∈ months all_files ↔ ∃ f, f ∈ all_files ∧ m = before_dash f.
Proof.
  unfold months.
  rewrite merge_sort_Permutation, elem_of_remove_dups, list_elem_of_fmap.
  split; intros (f & H1 & H2); by exists f.
Qed.

Lemma months_NoDup (all_files : list string) : NoDup (months all_files).
Proof.
  unfold months. rewrite merge_sort_Permutation. apply NoDup_remove_dups.
Qed.

(** X15: the month labels are the distinct texts before the first dash of the
    file names, visited in ascending order; every file is read in the batch
    of its own label, and no label has an empty batch. *)
Theorem X15_month_batches (all_files : list string) :
  NoDup (months all_files)
  ∧ Sorted string_le (months all_files)
  ∧ (∀ m, m ∈ months all_files ↔ ∃ f, f ∈ all_files ∧ m = before_dash f)
  ∧ (∀ f, f ∈ all_files →
          before_dash f ∈ months all_files
          ∧ f ∈ month_files all_files (before_dash f))
  ∧ (∀ m, m ∈ months all_files → month_files all_files m ≠ []).
Proof.
  split_and!.
  - apply months_NoDup.
  - apply (Sorted_merge_sort string_le).
  - apply months_elem.
  - intros f Hf. split.
    + apply months_elem. by exists f.
    + apply list_elem_of_filter. split; [apply prefix_before_dash | done].
  - intros m (f & Hf & ->)%months_elem Hnil.
    assert (f ∈ month_files all_files (before_dash f)) as Hin
      by (apply list_elem_of_filter; split; [apply prefix_before_dash | done]).
    rewrite Hnil in Hin. by apply elem_of_nil in Hin.
Qed.

Lemma concat_fmap_nil {A K : Type} (ks : list K) :
  concat ((λ _, @nil A) <$> ks) = [].
Proof. induction ks as [|k ks IH]; [done|]. exact IH. Qed.

Lemma concat_filter_skip {A K : Type} (P : K → A → Prop)
    `{∀ k x, Decision (P k x)} (ks : list K) (x : A) (l : list A) :
  (∀ k, k ∈ ks → ¬ P k x) →
  (λ k, filter (P k) (x :: l)) <$> ks = (λ k, filter (P k) l) <$> ks.
Proof.
  intros Hno. apply fmap_pointwise. intros k Hk.
  by rewrite filter_cons_False by by apply Hno.
Qed.

Lemma concat_filter_once {A K : Type} (P : K → A → Prop)
    `{∀ k x, Decision (P k x)} (ks : list K) (x : A) (l : list A) (k : K) :
  NoDup ks → k ∈ ks → P k x → (∀ k', k' ∈ ks → P k' x → k' = k) →
  concat ((λ k, filter (P k) (x :: l)) <$> ks)
  ≡ₚ x :: concat ((λ k, filter (P k) l) <$> ks).
Proof.
  induction ks as [|k0 ks IH]; intros Hnd Hk HP Huniq.
  - by apply elem_of_nil in Hk.
  - apply NoDup_cons in Hnd as [Hk0 Hnd]. rewrite !fmap_cons. simpl.
    destruct (decide (P k0 x)) as [HP0 | HP0].
    + rewrite filter_cons_True by done.
      rewrite concat_filter_skip; [done|].
      intros k' Hk' HP'.
      assert (k' = k) as -> by (apply Huniq; [by right | done]).
      assert (k0 = k) as -> by (apply Huniq; [by left | done]). done.
    + rewrite filter_cons_False by done.
      apply elem_of_cons in Hk as [-> | Hk]; [done|].
      rewrite IH; [|done..|].
      * by rewrite Permutation_middle.
      * intros k' Hk' HP'. apply Huniq; [by right | done].
Qed.

Lemma concat_filter_partition {A K : Type} (P : K → A → Prop)
    `{∀ k x, Decision (P k x)} (ks : list K) (l : list A) :
  NoDup ks →
  (∀ x, x ∈ l → ∃ k, k ∈ ks ∧ P k x) →
  (∀ x k1 k2, x ∈ l → k1 ∈ ks → k2 ∈ ks → P k1 x → P k2 x → k1 = k2) →
  concat ((λ k, filter (P k) l) <$> ks) ≡ₚ l.
Proof.
  intros Hnd. induction l as [|x l IH]; intros Hcov Huniq.
  - assert (concat ((λ k, filter (P k) []) <$> ks) = []) as ->
      by apply (concat_fmap_nil ks).
    done.
  - destruct (Hcov x) as (k & Hk & HP); [by left|].
    rewrite (concat_filter_once P ks x l k); [|done..|].
    + f_equiv. apply IH.
      * intros y Hy. apply Hcov. by right.
      * intros y k1 k2 Hy. apply Huniq. by right.
    + intros k' Hk' HP'. apply (Huniq x); [by left | done..].
Qed.

Lemma concat_fmap_concat {A B : Type} (f : A → list B) (ls : list (list A)) :
  concat (f <$> concat ls) = concat ((λ l, concat (f <$> l)) <$> ls).
Proof.
  induction ls as [|l ls IH]; simpl; [done|].
  by rewrite fmap_app, concat_app, IH.
Qed.

Lemma concat_perm {A : Type} (ls ls' : list (list A)) :
  ls ≡ₚ ls' → concat ls ≡ₚ concat ls'.
Proof.
  induction 1 as [|l ls ls' _ IH|l1 l2 ls|ls1 ls2 ls3 _ IH1 _ IH2]; simpl.
  - done.
  - by rewrite IH.
  - by rewrite !(assoc_L (++)), (comm (++) l2 l1).
  - by etrans.
Qed.

Lemma enrich_month_trips (df_weather : list WeatherRow) (df_sun : list SunRow)
    (df_month : list CleanTrip) :
  NoDup (time <$> df_weather) → NoDup (date_key <$> df_sun) →
  trip <$> enrich_month df_weather df_sun df_month = df_month.
Proof.
  intros Hw Hs. unfold enrich_month.
  rewrite (fmap_fmap_pointwise trip finish m_trip id) by done.
  rewrite list_fmap_id. by apply merged_trips.
Qed.

(** X16: when both lookup tables have unique keys and all month labels have
    the same length, the enriched files together hold the trips of the
    cleaned files, each one exactly once. *)
Theorem X16_every_trip_enriched_once
    (df_weather : list WeatherRow) (df_sun : list SunRow)
    (read_parquet : string → list CleanTrip) (all_files : list string) :
  NoDup (time <$> df_weather) → NoDup (date_key <$> df_sun) →
  (∀ f g, f ∈ all_files → g ∈ all_files →
          String.length (before_dash f) = String.length (before_dash g)) →
  concat ((λ out : string * list EnrichedTrip, trip <$> out.2)
            <$> enrich_all df_weather df_sun read_parquet all_files)
  ≡ₚ concat (read_parquet <$> all_files).
Proof.
  intros Hw Hs Hlen. unfold enrich_all.
  rewrite (fmap_fmap_pointwise _ _
             (λ month, concat (read_parquet <$> month_files all_files month))
             id).
  2:{ intros month. simpl. by apply enrich_month_trips. }
  rewrite list_fmap_id.
  assert ((λ month, concat (read_parquet <$> month_files all_files month))
            <$> months all_files
          = (λ l, concat (read_parquet <$> l))
              <$> (month_files all_files <$> months all_files)) as ->
    by (by rewrite <- list_fmap_compose).
  rewrite <- concat_fmap_concat.
  apply concat_perm, fmap_Permutation.
  apply (concat_filter_partition (λ month f, String.prefix month f = true)).
  - apply months_NoDup.
  - intros f Hf. exists (before_dash f). split.
    + apply months_elem. by exists f.
    + apply prefix_before_dash.
  - intros f m1 m2 Hf (f1 & Hf1 & ->)%months_elem (f2 & Hf2 & ->)%months_elem
      H1 H2.
    apply (prefix_same_length _ _ f); [done..|]. by apply Hlen.
Qed.

Lemma X16_every_trip_enriched_once_witness :
  concat ((λ out : string * list EnrichedTrip, trip <$> out.2)
            <$> enrich_all Examples.weather_afternoon Examples.sun_new_year
                  (λ _, [Examples.clean_trip_at
                           (at_time day_2025_01_01 14 40 0)])
                  ["202501-a"; "202501-b"; "202502-a"]%string)
  ≡ₚ concat ((λ _, [Examples.clean_trip_at (at_time day_2025_01_01 14 40 0)])
               <$> ["202501-a"; "202501-b"; "202502-a"]%string).
Proof.
  apply (X16_every_trip_enriched_once Examples.weather_afternoon
           Examples.sun_new_year).
  - apply (bool_decide_unpack _). by vm_compute.
  - apply (bool_decide_unpack _). by vm_compute.
  - intros f g Hf Hg.
    repeat (apply elem_of_cons in Hf as [-> | Hf]);
      [| | |by apply elem_of_nil in Hf];
      repeat (apply elem_of_cons in Hg as [-> | Hg]);
      (reflexivity || by apply elem_of_nil in Hg).
Defined.

(** A label that is the beginning of another label takes that label's files
    as well: their trips are written to two enriched files. *)
Example short_label_reads_other_months_files :
  months ["2025-a"; "202501-b"]%string = ["2025"; "202501"]%string
  ∧ month_files ["2025-a"; "202501-b"]%string "2025"%string
    = ["2025-a"; "202501-b"]%string
  ∧ month_files ["2025-a"; "202501-b"]%string "202501"%string
    = ["202501-b"]%string.
Proof. by vm_compute. Qed.

End MonthsMore.

(** ** The rows and the counts of the signature files *)

Section SignaturesMore.

Import Signatures.

Lemma pivot_of_index_eq (flag : Z) (files : list (list Row)) :
  index (pivot_of flag files)
  = index (pivot (hourly_counts (subset_of flag (df_all files)))).
Proof.
  rewrite pivot_of_unfold, sort_columns_index. unfold ensure_hours.
  destruct (ensure_hours_spec (seqZ 0 24)
              (fillna_0 (pivot (hourly_counts (subset_of flag (df_all files))))))
    as (-> & _).
  apply fillna_0_index.
Qed.

Lemma pivot_index_unfold (counts : list (Z * Z * nat)) :
  index (pivot counts)
  = merge_sort Z.le (remove_dups ((λ c, fst (fst c)) <$> counts)).
Proof. reflexivity. Qed.

Lemma pivot_index_sorted (counts : list (Z * Z * nat)) :
  StronglySorted Z.lt (index (pivot counts)).
Proof.
  apply sorted_le_NoDup_lt.
  - apply Sorted_merge_sort, _.
  - rewrite pivot_index_unfold, merge_sort_Permutation. apply NoDup_remove_dups.
Qed.

Lemma subset_elem (flag : Z) (files : list (list Row)) (r : Row) :
  r ∈ subset_of flag (df_all files) ↔
  r ∈ concat files ∧ is_Some (start_station_id r) ∧ is_weekend r = flag.
Proof.
  unfold subset_of, df_all. rewrite !list_elem_of_filter. tauto.
Qed.

(** The stations of a pivot are those that start a trip of the partition. *)
Lemma pivot_of_index_trips (flag : Z) (files : list (list Row)) (station : Z) :
  station ∈ index (pivot_of flag files) ↔
  ∃ r, r ∈ concat files ∧ start_station_id r = Some station
       ∧ is_weekend r = flag.
Proof.
  rewrite pivot_of_index. split.
  - intros (h & _ & (r & Hr & Hs & _)%group_size_pos%observed_pairs_elem).
    apply subset_elem in Hr as (Hr & _ & Hflag). by exists r.
  - intros (r & Hr & Hs & Hflag). exists (hour r).
    split; [apply hour_range|].
    apply group_size_pos, observed_pairs_elem. exists r.
    split; [|done]. apply subset_elem. by rewrite Hs.
Qed.

Lemma df_signature_stations (flag : Z) (files : list (list Row))
    (rows : list (Z * list float)) :
  df_signature flag files = Some rows →
  rows.*1 = index (pivot_of flag files).
Proof. intros [_ ->]%df_signature_Some. by apply fmap_fmap_id. Qed.

(** A pass writes its file exactly when some trip of its partition has a
    start station. *)
Lemma df_signature_written (flag : Z) (files : list (list Row)) :
  is_Some (df_signature flag files) ↔
  ∃ station r, r ∈ concat files ∧ start_station_id r = Some station
               ∧ is_weekend r = flag.
Proof.
  rewrite df_signature_is_Some. split.
  - destruct (index (pivot_of flag files)) as [|station l] eqn:E; [done|].
    intros _. exists station. apply pivot_of_index_trips. rewrite E. left.
  - intros (station & Hr%pivot_of_index_trips) E. rewrite E in Hr.
    by apply elem_of_nil in Hr.
Qed.

Lemma df_signature_rows (flag : Z) (files : list (list Row))
    (rows : list (Z * list float)) :
  df_signature flag files = Some rows →
  StronglySorted Z.lt rows.*1
  ∧ ∀ station,
      station ∈ rows.*1 ↔
      ∃ r, r ∈ concat files ∧ start_station_id r = Some station
           ∧ is_weekend r = flag.
Proof.
  intros Hrows. rewrite (df_signature_stations _ _ _ Hrows). split.
  - rewrite pivot_of_index_eq. apply pivot_index_sorted.
  - apply pivot_of_index_trips.
Qed.

Lemma generate_signatures_unfold (files : list (list Row)) :
  generate_signatures files
  = match df_signature 0 files with
    | None => mkWritten None None
    | Some weekday => mkWritten (Some weekday) (df_signature 1 files)
    end.
Proof. by destruct files. Qed.

Lemma written_weekday (files : list (list Row)) :
  signatures_weekday (generate_signatures files) = df_signature 0 files.
Proof. rewrite generate_signatures_unfold. by destruct (df_signature 0 files). Qed.

Lemma written_weekend (files : list (list Row))
    (rows : list (Z * list float)) :
  signatures_weekend (generate_signatures files) = Some rows ↔
  is_Some (df_signature 0 files) ∧ df_signature 1 files = Some rows.
Proof.
  rewrite generate_signatures_unfold.
  destruct (df_signature 0 files) as [weekday|]; cbn [signatures_weekend].
  - split; [by intros ->; split | by intros [_ ->]].
  - split; [done | by intros [[? ?] _]].
Qed.

(** X17: the weekday file is written exactly when some weekday trip has a
    start station, and the weekend file exactly when, besides, some weekend
    trip has one: a call on weekend trips only raises in the weekday pass
    and writes nothing.  A file that is written has one row for each station
    that starts a trip of its partition and for no other station, in
    strictly ascending order of station id. *)
Theorem X17_signature_stations (files : list (list Row)) :
  let starts := λ (flag station : Z),
    ∃ r, r ∈ concat files ∧ start_station_id r = Some station
         ∧ is_weekend r = flag in
  let out := generate_signatures files in
  (is_Some (signatures_weekday out) ↔ ∃ station, starts 0 station)
  ∧ (is_Some (signatures_weekend out) ↔
     (∃ station, starts 0 station) ∧ (∃ station, starts 1 station))
  ∧ (∀ rows, signatures_weekday out = Some rows →
       StronglySorted Z.lt rows.*1
       ∧ ∀ station, station ∈ rows.*1 ↔ starts 0 station)
  ∧ (∀ rows, signatures_weekend out = Some rows →
       StronglySorted Z.lt rows.*1
       ∧ ∀ station, station ∈ rows.*1 ↔ starts 1 station).
Proof.
  intros starts out. subst starts out. cbv beta. split_and!.
  - rewrite written_weekday. apply df_signature_written.
  - rewrite <- !df_signature_written. split.
    + intros [rows [H0 H1]%written_weekend]. split; [done | by exists rows].
    + intros [H0 [rows H1]]. exists rows. by apply written_weekend.
  - intros rows Hrows. rewrite written_weekday in Hrows.
    by apply df_signature_rows.
  - intros rows [_ Hrows]%written_weekend. by apply df_signature_rows.
Qed.

(** Weekend trips alone leave no file; with one weekday trip added, both
    files are written. *)
Example weekend_file_needs_a_weekday_trip :
  generate_signatures [[Examples.weekend_trip_at 8]] = mkWritten None None
  ∧ is_Some (signatures_weekend
               (generate_signatures [[Examples.weekend_trip_at 8;
                                      Examples.weekday_trip_at 8]]))
  ∧ generate_signatures [] = mkWritten None None.
Proof.
  split_and!.
  - vm_compute. reflexivity.
  - vm_compute. eexists. reflexivity.
  - reflexivity.
Qed.

Lemma group_size_perm (station h : Z) (subset subset' : list Row) :
  subset ≡ₚ subset' → group_size station h subset = group_size station h subset'.
Proof. intros Hperm. unfold group_size. by rewrite Hperm. Qed.

Lemma pivot_of_index_perm (flag : Z) (files files' : list (list Row)) :
  subset_of flag (df_all files) ≡ₚ subset_of flag (df_all files') →
  index (pivot_of flag files) = index (pivot_of flag files').
Proof.
  intros Hperm.
  assert (∀ station, station ∈ index (pivot_of flag files)
                     ↔ station ∈ index (pivot_of flag files')) as Hsame.
  { intros station. rewrite !pivot_of_index.
    by setoid_rewrite (group_size_perm station _ _ _ Hperm). }
  rewrite !pivot_of_index_eq, !pivot_index_unfold in *.
  apply merge_sort_Z_perm.
  apply NoDup_Permutation; [apply NoDup_remove_dups..|].
  intros station. specialize (Hsame station).
  by rewrite !merge_sort_Permutation in Hsame.
Qed.

Lemma df_signature_of_subset (flag : Z) (files files' : list (list Row)) :
  subset_of flag (df_all files) ≡ₚ subset_of flag (df_all files') →
  df_signature flag files = df_signature flag files'.
Proof.
  intros Hperm. pose proof (pivot_of_index_perm flag files files' Hperm) as Hi.
  assert (∀ rows, df_signature flag files = Some rows
                  ↔ df_signature flag files' = Some rows) as Hsame.
  { intros rows. rewrite !df_signature_Some, Hi.
    assert ((λ station, (station, fit_transform (count_row flag files station)))
              <$> index (pivot_of flag files')
            = (λ station, (station, fit_transform (count_row flag files' station)))
                <$> index (pivot_of flag files')) as ->; [|done].
    apply fmap_pointwise. intros station _. do 2 f_equal.
    unfold count_row. apply fmap_pointwise.
    intros h _. by rewrite (group_size_perm station h _ _ Hperm). }
  destruct (df_signature flag files) as [rows|], (df_signature flag files')
    as [rows'|]; [| |by destruct (proj2 (Hsame rows') eq_refl)|done].
  - by destruct (proj1 (Hsame rows) eq_refl).
  - by destruct (proj1 (Hsame rows) eq_refl).
Qed.

(** X18: what a call writes depends only on the trips that have a start
    station, partition by partition, and not on their order: reading the
    files or their rows in another order (glob gives none) changes nothing.
    The weekday file depends on the weekday trips only.  The weekend file,
    when both calls write it, depends on the weekend trips only; whether it
    is written depends on the weekday trips too. *)
Theorem X18_signatures_ignore_order_and_other_rows
    (files files' : list (list Row)) :
  (concat files ≡ₚ concat files' →
   generate_signatures files = generate_signatures files')
  ∧ (subset_of 0 (df_all files) ≡ₚ subset_of 0 (df_all files') →
     signatures_weekday (generate_signatures files)
     = signatures_weekday (generate_signatures files'))
  ∧ (subset_of 0 (df_all files) ≡ₚ subset_of 0 (df_all files') →
     subset_of 1 (df_all files) ≡ₚ subset_of 1 (df_all files') →
     generate_signatures files = generate_signatures files')
  ∧ (∀ rows rows',
       signatures_weekend (generate_signatures files) = Some rows →
       signatures_weekend (generate_signatures files') = Some rows' →
       subset_of 1 (df_all files) ≡ₚ subset_of 1 (df_all files') →
       rows = rows').
Proof.
  assert (subset_of 0 (df_all files) ≡ₚ subset_of 0 (df_all files') →
          subset_of 1 (df_all files) ≡ₚ subset_of 1 (df_all files') →
          generate_signatures files = generate_signatures files') as Hboth.
  { intros H0 H1. rewrite !generate_signatures_unfold.
    by rewrite (df_signature_of_subset 0 files files' H0),
               (df_signature_of_subset 1 files files' H1). }
  split_and!.
  - intros Hperm. apply Hboth; unfold subset_of, df_all; by rewrite Hperm.
  - intros H0. rewrite !written_weekday. by apply df_signature_of_subset.
  - exact Hboth.
  - intros rows rows' [_ Hrows]%written_weekend [_ Hrows']%written_weekend H1.
    rewrite (df_signature_of_subset 1 files files' H1) in Hrows. congruence.
Qed.

Lemma X18_signatures_ignore_order_and_other_rows_witness :
  generate_signatures
    [[Examples.weekday_trip_at 8; Examples.weekday_trip_at 9]]
  = generate_signatures
      [[Examples.weekday_trip_at 9]; [Examples.weekday_trip_at 8]].
Proof.
  apply (proj1 (X18_signatures_ignore_order_and_other_rows
                  [[Examples.weekday_trip_at 8; Examples.weekday_trip_at 9]]
                  [[Examples.weekday_trip_at 9]; [Examples.weekday_trip_at 8]])).
  simpl. apply Permutation_swap.
Defined.

Lemma sum_list_fmap_add {A : Type} (f g : A → nat) (l : list A) :
  sum_list ((λ x, f x + g x)%nat <$> l)
  = (sum_list (f <$> l) + sum_list (g <$> l))%nat.
Proof.
  induction l as [|x l IH]; [done|].
  rewrite !fmap_cons. cbn [sum_list_with]. rewrite IH. unfold id. lia.
Qed.

Lemma sum_list_fmap_zero {A : Type} (l : list A) :
  sum_list ((λ _, 0%nat) <$> l) = 0%nat.
Proof. induction l as [|x l IH]; [done|]. exact IH. Qed.

Lemma sum_list_indicator (hs : list Z) (h0 : Z) :
  NoDup hs → h0 ∈ hs →
  sum_list ((λ h, if decide (h0 = h) then 1 else 0)%nat <$> hs) = 1%nat.
Proof.
  induction hs as [|h hs IH]; intros Hnd Hin; [by apply elem_of_nil in Hin|].
  apply NoDup_cons in Hnd as [Hh Hnd]. rewrite fmap_cons.
  cbn [sum_list_with].
  destruct (decide (h0 = h)) as [-> | Hne].
  - rewrite (fmap_pointwise _ (λ _, 0%nat)).
    + by rewrite sum_list_fmap_zero.
    + intros h' Hh'. destruct (decide (h = h')) as [-> | ?]; done.
  - apply elem_of_cons in Hin as [? | Hin]; [done|]. by rewrite IH.
Qed.

Lemma sum_group_size (station : Z) (subset : list Row) :
  sum_list ((λ h, group_size station h subset) <$> seqZ 0 24)
  = length (filter (λ r, start_station_id r = Some station) subset).
Proof.
  unfold group_size. induction subset as [|r subset IH].
  - by vm_compute.
  - rewrite (fmap_pointwise _
      (λ h, (if decide (start_station_id r = Some station)
             then if decide (hour r = h) then 1 else 0 else 0)
            + length (filter (λ r, start_station_id r = Some station
                                   ∧ hour r = h) subset))%nat).
    2:{ intros h _. rewrite filter_cons.
        destruct (decide (start_station_id r = Some station ∧ hour r = h))
          as [[Hs Hh] | Hno].
        - by rewrite !decide_True.
        - destruct (decide (start_station_id r = Some station)); [|done].
          rewrite decide_False; [done|]. intros ?. by apply Hno. }
    rewrite sum_list_fmap_add, IH, filter_cons.
    destruct (decide (start_station_id r = Some station)); cbv beta iota.
    + rewrite sum_list_indicator; [done|apply NoDup_seqZ|].
      apply elem_of_seqZ. pose proof (hour_range r). lia.
    + by rewrite sum_list_fmap_zero.
Qed.

(** X19: no trip is lost between the enriched files and the counts: the 24
    hourly counts of a station add up to the number of trips of the
    partition that start at that station. *)
Theorem X19_hourly_counts_add_up
    (flag : Z) (files : list (list Row)) (station : Z) :
  sum_list ((λ h, group_size station h (subset_of flag (df_all files)))
              <$> seqZ 0 24)
  = length (filter (λ r, start_station_id r = Some station
                         ∧ is_weekend r = flag) (concat files)).
Proof.
  rewrite sum_group_size. unfold subset_of, df_all.
  rewrite !list_filter_filter. f_equal. apply list_filter_iff.
  intros r. split.
  - tauto.
  - intros [Hs Hflag]. rewrite Hs. split_and!; done.
Qed.

End SignaturesMore.

(** ** Counts as floats *)

Section FloatMore.

Import Signatures.

Lemma pos_iter_xO (p k : positive) :
  Z.pos (Pos.iter xO p k) = Z.pos p * 2 ^ Z.pos k.
Proof.
  induction k as [|k IH] using Pos.peano_ind.
  - simpl. lia.
  - rewrite Pos.iter_succ, Pos2Z.inj_succ, Z.pow_succ_r by lia.
    rewrite Pos2Z.inj_xO, IH. lia.
Qed.

Lemma digits2_pos_ge (p : positive) (k : Z) :
  Z.pos (digits2_pos p) = k → 2 ^ k ≤ 2 * Z.pos p.
Proof.
  intros <-. rewrite digits2_pos_size.
  pose proof (Pos.size_le p) as H. apply Pos2Z.pos_le_pos in H.
  by rewrite Pos2Z.inj_pow in H.
Qed.

(** The float of a count has a full 53-bit mantissa: the count shifted left
    by the opposite of the exponent. *)
Lemma of_int_canonical (n : Z) :
  0 < n < 2 ^ 53 →
  ∃ m e, of_int n = S754_finite false m e
         ∧ Z.pos (digits2_pos m) = 53 ∧ -52 ≤ e ≤ 0
         ∧ Z.pos m = n * 2 ^ (- e).
Proof.
  intros [Hn0 Hn]. destruct n as [|p|p]; [lia| |lia].
  unfold of_int, prec, emax, binary_normalize, binary_round.
  pose proof (Zdigits2_bound (Z.pos p) 53 ltac:(lia) ltac:(lia)) as Hd.
  simpl in Hd. unfold fexp, emin.
  replace (Z.max (Z.pos (digits2_pos p) + 0 - 53) (3 - 1024 - 53))
    with (Z.pos (digits2_pos p) - 53) by lia.
  unfold shl_align.
  replace (Z.pos (digits2_pos p) - 53 - 0) with (Z.pos (digits2_pos p) - 53)
    by lia.
  destruct (Z.pos (digits2_pos p) - 53) as [|k|k] eqn:Ek; [|lia|].
  - exists p, 0. split_and!; [|lia|lia|lia|simpl; lia].
    apply binary_round_aux_exact; lia.
  - exists (Pos.iter xO p k), (Z.neg k).
    assert (Z.pos (digits2_pos (Pos.iter xO p k)) = 53) as Hd53
      by (rewrite digits2_pos_shift; lia).
    split_and!; [|done|lia|lia|].
    + apply binary_round_aux_exact; [done|lia].
    + rewrite pos_iter_xO. done.
Qed.

Lemma fltb_of_int (a b : Z) :
  0 ≤ a < 2 ^ 53 → 0 ≤ b < 2 ^ 53 →
  fltb (of_int a) (of_int b) = (a <? b).
Proof.
  intros Ha Hb.
  assert (a = 0 ∨ 0 < a) as [-> | Ha0] by lia;
    assert (b = 0 ∨ 0 < b) as [-> | Hb0] by lia.
  - done.
  - destruct (of_int_canonical b ltac:(lia)) as (mb & eb & -> & _).
    rewrite of_int_0. simpl. symmetry. by apply Z.ltb_lt.
  - destruct (of_int_canonical a ltac:(lia)) as (ma & ea & -> & _).
    rewrite of_int_0. simpl. symmetry. apply Z.ltb_ge. lia.
  - destruct (of_int_canonical a ltac:(lia)) as (ma & ea & -> & Hda & Hea & Hma).
    destruct (of_int_canonical b ltac:(lia)) as (mb & eb & -> & Hdb & Heb & Hmb).
    pose proof (digits2_pos_lt ma 53 Hda) as Hua.
    pose proof (digits2_pos_ge ma 53 Hda) as Hla.
    pose proof (digits2_pos_lt mb 53 Hdb) as Hub.
    pose proof (digits2_pos_ge mb 53 Hdb) as Hlb.
    unfold fltb, SFltb, SFcompare.
    destruct (Z.compare_spec ea eb) as [-> | Hlt | Hgt].
    + rewrite Pos.compare_cont_spec. simpl.
      assert (0 < 2 ^ (- eb)) as Hp by (apply Z.pow_pos_nonneg; lia).
      destruct (Pos.compare_spec ma mb) as [Heq | Hlt | Hgt]; symmetry.
      * apply Z.ltb_ge. assert (Z.pos ma = Z.pos mb) by congruence. nia.
      * apply Z.ltb_lt. apply Pos2Z.pos_lt_pos in Hlt. nia.
      * apply Z.ltb_ge. apply Pos2Z.pos_lt_pos in Hgt. nia.
    + symmetry. apply Z.ltb_lt.
      assert (2 ^ (- ea) = 2 ^ (- eb) * 2 ^ (eb - ea)) as Hsplit
        by (rewrite <- Z.pow_add_r by lia; f_equal; lia).
      assert (0 < 2 ^ (- eb)) as Hp by (apply Z.pow_pos_nonneg; lia).
      assert (2 ^ 1 ≤ 2 ^ (eb - ea)) as Hq by (apply Z.pow_le_mono_r; lia).
      change (2 ^ 1) with 2 in Hq. nia.
    + symmetry. apply Z.ltb_ge.
      assert (2 ^ (- eb) = 2 ^ (- ea) * 2 ^ (ea - eb)) as Hsplit
        by (rewrite <- Z.pow_add_r by lia; f_equal; lia).
      assert (0 < 2 ^ (- ea)) as Hp by (apply Z.pow_pos_nonneg; lia).
      assert (2 ^ 1 ≤ 2 ^ (ea - eb)) as Hq by (apply Z.pow_le_mono_r; lia).
      change (2 ^ 1) with 2 in Hq. nia.
Qed.

Lemma shr_1_div (mrs : shr_record) :
  0 ≤ shr_m mrs → shr_m (shr_1 mrs) = shr_m mrs / 2.
Proof.
  destruct mrs as [m r s]. simpl. intros Hm. rewrite <- Z.div2_div.
  destruct m as [|[p|p|]|p]; (done || lia).
Qed.

Lemma iter_shr_1_div (n : positive) (mrs : shr_record) :
  0 ≤ shr_m mrs →
  shr_m (SpecFloat.iter_pos shr_1 n mrs) = shr_m mrs / 2 ^ Z.pos n.
Proof.
  revert mrs. induction n as [n IH|n IH|]; intros mrs Hm; simpl.
  - pose proof (shr_1_m mrs Hm) as H1.
    pose proof (iter_shr_1_m n (shr_1 mrs) ltac:(lia)) as H2.
    rewrite IH, IH, shr_1_div by lia.
    assert (0 < 2 ^ Z.pos n) as Hp by (apply Z.pow_pos_nonneg; lia).
    rewrite !Z.div_div by lia. f_equal.
    rewrite Pos2Z.inj_xI.
    replace (2 * Z.pos n + 1) with (Z.pos n + Z.pos n + 1) by lia.
    rewrite !Z.pow_add_r by lia. change (2 ^ 1) with 2. lia.
  - pose proof (iter_shr_1_m n mrs Hm) as H2.
    rewrite IH, IH by lia.
    assert (0 < 2 ^ Z.pos n) as Hp by (apply Z.pow_pos_nonneg; lia).
    rewrite !Z.div_div by lia. f_equal.
    rewrite <- Z.pow_add_r by lia. f_equal. lia.
  - by apply shr_1_div.
Qed.

Lemma Zdigits2_lt (m : Z) : 0 ≤ m → m < 2 ^ Zdigits2 m.
Proof.
  destruct m as [|p|p]; [done| |lia]. intros _. simpl.
  by apply digits2_pos_lt.
Qed.

Lemma Zdigits2_nonneg (m : Z) : 0 ≤ Zdigits2 m.
Proof. destruct m; simpl; lia. Qed.

(** The first step of a rounding leaves a mantissa of at most 53 bits. *)
Lemma shr_fexp_canonical (m e : Z) (l : location) :
  0 ≤ m →
  0 ≤ shr_m (fst (shr_fexp 53 1024 m e l)) < 2 ^ 53
  ∧ snd (shr_fexp 53 1024 m e l)
    = Z.max e (Z.max (Zdigits2 m + e - 53) (-1074)).
Proof.
  intros Hm. pose proof (Zdigits2_lt m Hm) as Hd.
  pose proof (Zdigits2_nonneg m) as Hd0.
  unfold shr_fexp, shr, fexp, emin.
  change (3 - 1024 - 53) with (-1074).
  destruct (Z.max (Zdigits2 m + e - 53) (-1074) - e) as [|n|n] eqn:E;
    simpl; rewrite ?shr_record_of_loc_m.
  - split; [|lia]. split; [lia|].
    assert (2 ^ Zdigits2 m ≤ 2 ^ 53) by (apply Z.pow_le_mono_r; lia). lia.
  - rewrite iter_shr_1_div by (rewrite shr_record_of_loc_m; lia).
    rewrite shr_record_of_loc_m. split; [|lia].
    assert (0 < 2 ^ Z.pos n) as Hp by (apply Z.pow_pos_nonneg; lia).
    split; [by apply Z.div_pos|].
    apply Z.div_lt_upper_bound; [done|].
    rewrite <- Z.pow_add_r by lia.
    assert (2 ^ Zdigits2 m ≤ 2 ^ (Z.pos n + 53))
      by (apply Z.pow_le_mono_r; lia).
    lia.
  - split; [|lia]. split; [lia|].
    assert (2 ^ Zdigits2 m ≤ 2 ^ 53) by (apply Z.pow_le_mono_r; lia). lia.
Qed.

(** A rounding that cannot overflow gives the positive zero or a positive
    float with a mantissa below 2^53 and a bounded exponent. *)
Lemma binary_round_aux_bounded (m e : Z) (l : location) (k : Z) :
  0 ≤ k → 0 ≤ m < 2 ^ k →
  Z.max e (Z.max (k + e - 53) (-1074)) + 1 ≤ 971 →
  binary_round_aux 53 1024 false m e l = f0
  ∨ ∃ m' e', binary_round_aux 53 1024 false m e l = S754_finite false m' e'
             ∧ Z.pos m' < 2 ^ 53
             ∧ e' ≤ Z.max e (Z.max (k + e - 53) (-1074)) + 1.
Proof.
  intros Hk Hm He. unfold binary_round_aux.
  pose proof (Zdigits2_bound m k Hk Hm) as Hd.
  pose proof (shr_fexp_canonical m e l ltac:(lia)) as [Hm1 He1].
  destruct (shr_fexp 53 1024 m e l) as [mrs1 e1]. simpl in Hm1, He1.
  pose proof (round_nearest_even_bounds (shr_m mrs1) (loc_of_shr_record mrs1))
    as Hr.
  set (m2 := round_nearest_even (shr_m mrs1) (loc_of_shr_record mrs1)) in *.
  clearbody m2.
  pose proof (Zdigits2_bound m2 54 ltac:(lia)
                ltac:(change (2 ^ 54) with (2 * 2 ^ 53); lia)) as Hd2.
  pose proof (shr_fexp_canonical m2 e1 loc_Exact ltac:(lia)) as [Hm3 He3].
  destruct (shr_fexp 53 1024 m2 e1 loc_Exact) as [mrs2 e2]. simpl in Hm3, He3.
  destruct (shr_m mrs2) as [|p|p]; [by left| |lia].
  right. exists p, e2.
  rewrite (proj2 (Z.leb_le e2 (1024 - 53))) by lia.
  split_and!; [done|lia|lia].
Qed.

Lemma shl_align_fst (m : positive) (e ez : Z) :
  ez ≤ e → Z.pos (fst (shl_align m e ez)) = Z.pos m * 2 ^ (e - ez).
Proof.
  intros Hle. unfold shl_align.
  destruct (ez - e) as [|d|d] eqn:E; simpl; [|lia|].
  - replace (e - ez) with 0 by lia. lia.
  - rewrite pos_iter_xO. f_equal. f_equal. lia.
Qed.

(** The difference of two counts, the larger first, is the positive zero or
    a positive float of moderate exponent. *)
Lemma fsub_of_int_range (a b : Z) :
  0 ≤ b → b ≤ a → a < 2 ^ 53 →
  fsub (of_int a) (of_int b) = f0
  ∨ ∃ m e, fsub (of_int a) (of_int b) = S754_finite false m e
           ∧ Z.pos m < 2 ^ 53 ∧ e ≤ 53.
Proof.
  intros Hb Hab Ha.
  assert (b = 0 ∨ 0 < b) as [-> | Hb0] by lia.
  - rewrite of_int_0. assert (a = 0 ∨ 0 < a) as [-> | Ha0] by lia.
    + left. by rewrite of_int_0.
    + destruct (of_int_positive a ltac:(lia)) as (m & e & -> & Hm & He).
      right. exists m, e. split_and!; [done|done|lia].
  - assert (a = b ∨ b < a) as [-> | Hlt] by lia.
    + left. destruct (of_int_positive b ltac:(lia)) as (m & e & -> & _).
      apply fsub_self_finite.
    + destruct (of_int_canonical a ltac:(lia))
        as (ma & ea & -> & Hda & Hea & Hma).
      destruct (of_int_canonical b ltac:(lia))
        as (mb & eb & -> & Hdb & Heb & Hmb).
      unfold fsub, SFsub. cbn [cond_Zopp].
      set (ez := Z.min ea eb).
      assert (-52 ≤ ez ≤ 0) as Hez by (unfold ez; lia).
      rewrite !shl_align_fst by (unfold ez; lia).
      assert (Z.pos ma * 2 ^ (ea - ez) - Z.pos mb * 2 ^ (eb - ez)
              = (a - b) * 2 ^ (- ez)) as ->.
      { rewrite Hma, Hmb, <- !Z.mul_assoc, <- !Z.pow_add_r by lia.
        replace (- ea + (ea - ez)) with (- ez) by lia.
        replace (- eb + (eb - ez)) with (- ez) by lia. lia. }
      assert (0 < 2 ^ (- ez) ≤ 2 ^ 52) as Hp.
      { split; [apply Z.pow_pos_nonneg; lia | apply Z.pow_le_mono_r; lia]. }
      destruct ((a - b) * 2 ^ (- ez)) as [|D|D] eqn:ED; [nia| |nia].
      assert (Z.pos D < 2 ^ 105) as HD.
      { rewrite <- ED. change (2 ^ 105) with (2 ^ 53 * 2 ^ 52). nia. }
      unfold binary_normalize, binary_round, prec, emax.
      pose proof (Zdigits2_lt (Z.pos D) ltac:(lia)) as HdD. simpl in HdD.
      pose proof (Zdigits2_nonneg (Z.pos D)) as HdD0. simpl in HdD0.
      unfold shl_align, fexp, emin. change (3 - 1024 - 53) with (-1074).
      destruct (Z.max (Z.pos (digits2_pos D) + ez - 53) (-1074) - ez)
        as [|s|s] eqn:Es.
      * destruct (binary_round_aux_bounded (Z.pos D) ez loc_Exact 105)
          as [Hz | (m' & e' & Hf & Hm' & He')]; [lia|lia|lia|by left|].
        right. exists m', e'. split_and!; [done|done|lia].
      * destruct (binary_round_aux_bounded (Z.pos D) ez loc_Exact 105)
          as [Hz | (m' & e' & Hf & Hm' & He')]; [lia|lia|lia|by left|].
        right. exists m', e'. split_and!; [done|done|lia].
      * destruct (binary_round_aux_bounded (Z.pos (Pos.iter xO D s))
                    (Z.max (Z.pos (digits2_pos D) + ez - 53) (-1074))
                    loc_Exact 53)
          as [Hz | (m' & e' & Hf & Hm' & He')]; [lia| |lia|by left|].
        { split; [lia|]. rewrite pos_iter_xO.
          assert (2 ^ (Z.pos (digits2_pos D) + Z.pos s) ≤ 2 ^ 53)
            by (apply Z.pow_le_mono_r; lia).
          rewrite Z.pow_add_r in * by lia.
          assert (0 < 2 ^ Z.pos s) by (apply Z.pow_pos_nonneg; lia). nia. }
        right. exists m', e'. split_and!; [done|done|lia].
Qed.

(** The inverse of a range that is not replaced by 1. *)
Lemma fdiv_f1_bounded (m : positive) (e : Z) :
  Z.pos m < 2 ^ 53 → -101 ≤ e ≤ 53 →
  fdiv f1 (S754_finite false m e) = f0
  ∨ ∃ m' e', fdiv f1 (S754_finite false m e) = S754_finite false m' e'
             ∧ Z.pos m' < 2 ^ 53 ∧ e' ≤ 160.
Proof.
  intros Hm He. rewrite f1_eq.
  unfold fdiv, prec, emax, SFdiv, SFdiv_core_binary.
  set (m1 := 4503599627370496%positive).
  assert (Z.pos m1 < 2 ^ 53) as H1 by by vm_compute.
  set (d1 := Zdigits2 (Z.pos m1)). set (d2 := Zdigits2 (Z.pos m)).
  assert (0 < d1 ≤ 53) as Hd1.
  { split; [done|]. apply Zdigits2_bound; lia. }
  assert (0 < d2 ≤ 53) as Hd2.
  { split; [done|]. apply Zdigits2_bound; lia. }
  set (e' := Z.min (fexp 53 1024 (d1 + -52 - (d2 + e))) (-52 - e)).
  assert (e' ≤ -52 - e) as He' by (unfold e'; lia).
  assert (-52 - e - e' ≤ 106) as Hs.
  { unfold e', fexp, emin. lia. }
  set (m' := match -52 - e - e' with
             | 0 => Z.pos m1 | Z.pos _ => Z.shiftl (Z.pos m1) (-52 - e - e')
             | Z.neg _ => 0 end).
  assert (0 ≤ m' < 2 ^ 159) as Hm'.
  { unfold m'. destruct (-52 - e - e') as [|s|s] eqn:Es; [lia| |lia].
    rewrite Z.shiftl_mul_pow2 by lia.
    assert (2 ^ Z.pos s ≤ 2 ^ 106) by (apply Z.pow_le_mono_r; lia).
    assert (0 < 2 ^ Z.pos s) by (apply Z.pow_pos_nonneg; lia).
    change (2 ^ 159) with (2 ^ 53 * 2 ^ 106). nia. }
  pose proof (Z_div_mod m' (Z.pos m) ltac:(lia)) as Hdiv.
  destruct (Z.div_eucl m' (Z.pos m)) as [q r].
  destruct (binary_round_aux_bounded q e' (new_location (Z.pos m) r) 159)
    as [Hz | (m3 & e3 & Hf & Hm3 & He3)]; [lia| |lia|by left|].
  { destruct Hdiv as [Hq Hr]. nia. }
  right. exists m3, e3. split_and!; [done|done|lia].
Qed.

End FloatMore.

(** ** The scaler on rows of counts *)

Section ScalerMore.

Import Signatures.

Lemma fmax_of_int (a b : Z) :
  0 ≤ a < 2 ^ 53 → 0 ≤ b < 2 ^ 53 →
  fmax (of_int a) (of_int b) = of_int (Z.max a b).
Proof.
  intros Ha Hb. unfold fmax. rewrite fltb_of_int by done.
  destruct (Z.ltb_spec a b); [by rewrite Z.max_r by lia | by rewrite Z.max_l].
Qed.

Lemma fmin_of_int (a b : Z) :
  0 ≤ a < 2 ^ 53 → 0 ≤ b < 2 ^ 53 →
  fmin (of_int a) (of_int b) = of_int (Z.min a b).
Proof.
  intros Ha Hb. unfold fmin. rewrite fltb_of_int by done.
  destruct (Z.ltb_spec b a); [by rewrite Z.min_r by lia | by rewrite Z.min_l].
Qed.

Lemma foldl_fmax_of_int (a : Z) (zs : list Z) :
  0 ≤ a < 2 ^ 53 → Forall (λ z, 0 ≤ z < 2 ^ 53) zs →
  foldl fmax (of_int a) (of_int <$> zs) = of_int (foldl Z.max a zs).
Proof.
  revert a. induction zs as [|z zs IH]; intros a Ha Hzs; [done|].
  apply Forall_cons in Hzs as [Hz Hzs]. rewrite fmap_cons. simpl.
  rewrite fmax_of_int by done. apply IH; [lia | done].
Qed.

Lemma foldl_fmin_of_int (a : Z) (zs : list Z) :
  0 ≤ a < 2 ^ 53 → Forall (λ z, 0 ≤ z < 2 ^ 53) zs →
  foldl fmin (of_int a) (of_int <$> zs) = of_int (foldl Z.min a zs).
Proof.
  revert a. induction zs as [|z zs IH]; intros a Ha Hzs; [done|].
  apply Forall_cons in Hzs as [Hz Hzs]. rewrite fmap_cons. simpl.
  rewrite fmin_of_int by done. apply IH; [lia | done].
Qed.

Lemma foldl_max_spec (a : Z) (zs : list Z) :
  foldl Z.max a zs ∈ a :: zs ∧ ∀ z, z ∈ a :: zs → z ≤ foldl Z.max a zs.
Proof.
  revert a. induction zs as [|z zs IH]; intros a; simpl.
  - split; [left|]. by intros z ->%list_elem_of_singleton.
  - destruct (IH (Z.max a z)) as [Hin Hle]. split.
    + apply elem_of_cons in Hin as [Heq | Hin]; [|by do 2 right].
      rewrite Heq. destruct (Z.max_spec a z) as [[_ ->] | [_ ->]];
        [right; left | left].
    + intros z' Hz'.
      assert (Z.max a z ≤ foldl Z.max (Z.max a z) zs) by (apply Hle; left).
      apply elem_of_cons in Hz' as [-> | [-> | Hz']%elem_of_cons]; [lia..|].
      apply Hle. by right.
Qed.

Lemma foldl_min_spec (a : Z) (zs : list Z) :
  foldl Z.min a zs ∈ a :: zs ∧ ∀ z, z ∈ a :: zs → foldl Z.min a zs ≤ z.
Proof.
  revert a. induction zs as [|z zs IH]; intros a; simpl.
  - split; [left|]. by intros z ->%list_elem_of_singleton.
  - destruct (IH (Z.min a z)) as [Hin Hle]. split.
    + apply elem_of_cons in Hin as [Heq | Hin]; [|by do 2 right].
      rewrite Heq. destruct (Z.min_spec a z) as [[_ ->] | [_ ->]];
        [left | right; left].
    + intros z' Hz'.
      assert (foldl Z.min (Z.min a z) zs ≤ Z.min a z) by (apply Hle; left).
      apply elem_of_cons in Hz' as [-> | [-> | Hz']%elem_of_cons]; [lia..|].
      apply Hle. by right.
Qed.

(** The largest and the smallest cell of a row of counts are the floats of
    the largest and of the smallest count. *)
Lemma np_max_of_int (zs : list Z) :
  zs ≠ [] → Forall (λ z, 0 ≤ z < 2 ^ 53) zs →
  ∃ top, top ∈ zs ∧ (∀ z, z ∈ zs → z ≤ top)
         ∧ np_max (of_int <$> zs) = of_int top.
Proof.
  destruct zs as [|a zs]; [done|]. intros _ [Ha Hzs]%Forall_cons.
  destruct (foldl_max_spec a zs) as [Hin Hle].
  exists (foldl Z.max a zs). split_and!; [done..|].
  rewrite fmap_cons. by apply foldl_fmax_of_int.
Qed.

Lemma np_min_of_int (zs : list Z) :
  zs ≠ [] → Forall (λ z, 0 ≤ z < 2 ^ 53) zs →
  ∃ low, low ∈ zs ∧ (∀ z, z ∈ zs → low ≤ z)
         ∧ np_min (of_int <$> zs) = of_int low.
Proof.
  destruct zs as [|a zs]; [done|]. intros _ [Ha Hzs]%Forall_cons.
  destruct (foldl_min_spec a zs) as [Hin Hle].
  exists (foldl Z.min a zs). split_and!; [done..|].
  rewrite fmap_cons. by apply foldl_fmin_of_int.
Qed.

Lemma fmul_f0_finite (s : float) : finite_nonneg s → fmul f0 s = f0.
Proof. by destruct s as [[|]|[|]| |[|] ? ?]. Qed.

Lemma fadd_fmul_f0 (x s : float) :
  finite_nonneg x → finite_nonneg s → fadd (fmul x s) f0 = fmul x s.
Proof.
  destruct x as [[|]|[|]| |[|] mx ex]; try done;
    destruct s as [[|]|[|]| |[|] ms es]; try done.
  intros _ _. unfold fmul. simpl. apply binary_round_aux_add_0.
Qed.

Lemma of_int_finite_nonneg (z : Z) : 0 ≤ z < 2 ^ 53 → finite_nonneg (of_int z).
Proof.
  intros Hz. assert (z = 0 ∨ 0 < z) as [-> | Hz0] by lia; [done|].
  by destruct (of_int_positive z ltac:(lia)) as (m & e & -> & _).
Qed.

(** A row of counts with an empty hour: every cell is multiplied by the
    rounded inverse of the largest count, and nothing is added. *)
Lemma fit_transform_with_zero (zs : list Z) :
  Forall (λ z, 0 ≤ z < 2 ^ 53) zs → 0 ∈ zs → (∃ z, z ∈ zs ∧ 0 < z) →
  ∃ top, top ∈ zs ∧ 0 < top ∧ (∀ z, z ∈ zs → z ≤ top)
         ∧ fit_transform (of_int <$> zs)
           = (λ z, fmul (of_int z) (fdiv f1 (of_int top))) <$> zs.
Proof.
  intros Hzs H0 (z1 & Hz1 & Hpos).
  assert (zs ≠ []) as Hne by (intros ->; by apply elem_of_nil in H0).
  destruct (np_max_of_int zs Hne Hzs) as (top & Htop & Hle & Hmax).
  destruct (np_min_of_int zs Hne Hzs) as (low & Hlow & Hge & Hmin).
  rewrite Forall_forall in Hzs.
  assert (low = 0) as ->.
  { pose proof (Hge 0 H0). pose proof (Hzs low Hlow). lia. }
  assert (0 < top) as Htop0 by (pose proof (Hle z1 Hz1); lia).
  exists top. split_and!; [done..|].
  destruct (of_int_positive top ltac:(pose proof (Hzs top Htop); lia))
    as (m & e & Hf & Hm & He).
  assert (scale_ (of_int <$> zs) = fdiv f1 (of_int top)) as Hscale.
  { unfold scale_. rewrite Hmax, Hmin, of_int_0, Hf.
    assert (fsub (S754_finite false m e) f0 = S754_finite false m e) as ->
      by done.
    by rewrite handle_zeros_peak. }
  assert (finite_nonneg (fdiv f1 (of_int top))) as Hfin.
  { rewrite Hf, f1_eq. apply fdiv_finite; [by vm_compute | done | lia]. }
  unfold fit_transform, min_. rewrite Hscale, Hmin, of_int_0.
  rewrite fmul_f0_finite by done. assert (fsub f0 f0 = f0) as -> by done.
  rewrite <- list_fmap_compose. apply fmap_pointwise. intros z Hz. simpl.
  apply fadd_fmul_f0; [|done]. by apply of_int_finite_nonneg, Hzs.
Qed.

(** The range handed to the division is 1 or a positive float that is not
    below [10 * eps]. *)
Lemma handle_zeros_range (r : float) :
  r = f0 ∨ (∃ m e, r = S754_finite false m e ∧ Z.pos m < 2 ^ 53 ∧ e ≤ 53) →
  ∃ m e, handle_zeros_in_scale r = S754_finite false m e
         ∧ Z.pos m < 2 ^ 53 ∧ -101 ≤ e ≤ 53.
Proof.
  unfold handle_zeros_in_scale.
  assert (fmul (of_int 10) eps = S754_finite false 5629499534213120 (-101))
    as -> by by vm_compute.
  intros [-> | (m & e & -> & Hm & He)].
  - exists 4503599627370496%positive, (-52). by vm_compute.
  - unfold fltb, SFltb, SFcompare.
    destruct (Z.compare_spec e (-101)) as [-> | Hlt | Hgt].
    + destruct (Pos.compare_cont Eq m 5629499534213120).
      * exists m, (-101). split_and!; (done || lia).
      * exists 4503599627370496%positive, (-52). by vm_compute.
      * exists m, (-101). split_and!; (done || lia).
    + exists 4503599627370496%positive, (-52). by vm_compute.
    + exists m, e. split_and!; (done || lia).
Qed.

(** In a row of counts, each cell that holds the smallest count is mapped
    to the positive zero: the product subtracted is the product added. *)
Lemma fit_transform_min_is_zero (zs : list Z) (i : nat) (z : Z) :
  Forall (λ z, 0 ≤ z < 2 ^ 53) zs →
  zs !! i = Some z → (∀ z', z' ∈ zs → z ≤ z') →
  fit_transform (of_int <$> zs) !! i = Some f0.
Proof.
  intros Hzs Hi Hmin.
  assert (z ∈ zs) as Hz by by eapply list_elem_of_lookup_2.
  assert (zs ≠ []) as Hne by (intros ->; by apply elem_of_nil in Hz).
  destruct (np_max_of_int zs Hne Hzs) as (top & Htop & Hle & Hmax).
  destruct (np_min_of_int zs Hne Hzs) as (low & Hlow & Hge & Hlowf).
  assert (low = z) as -> by (pose proof (Hge z Hz); pose proof (Hmin low Hlow); lia).
  rewrite Forall_forall in Hzs.
  pose proof (Hzs z Hz) as Hzb. pose proof (Hzs top Htop) as Htb.
  destruct (handle_zeros_range (fsub (of_int top) (of_int z)))
    as (mr & er & Hr & Hmr & Her).
  { apply fsub_of_int_range; [lia | by apply Hle | lia]. }
  unfold fit_transform, min_, scale_.
  rewrite list_lookup_fmap, list_lookup_fmap, Hi.
  cbn [fmap option_fmap option_map]. f_equal.
  rewrite Hmax, Hlowf, Hr, of_int_0.
  change (of_int (1 - 0)) with f1.
  apply fadd_fsub_0_cancel.
  destruct (fdiv_f1_bounded mr er Hmr Her) as [-> | (ms & es & -> & Hms & Hes)].
  - assert (z = 0 ∨ 0 < z) as [-> | Hz0] by lia; [by rewrite of_int_0|].
    by destruct (of_int_positive z ltac:(lia)) as (m & e & -> & _).
  - assert (z = 0 ∨ 0 < z) as [-> | Hz0] by lia; [by rewrite of_int_0|].
    destruct (of_int_positive z ltac:(lia)) as (m & e & -> & Hm & He).
    apply fmul_finite; [done | done | lia].
Qed.

Lemma group_size_bound (station h : Z) (flag : Z) (files : list (list Row)) :
  Z.of_nat (length (concat files)) < 2 ^ 53 →
  0 ≤ Z.of_nat (group_size station h (subset_of flag (df_all files))) < 2 ^ 53.
Proof.
  intros Hlen. split; [lia|]. unfold group_size, subset_of, df_all.
  pose proof (length_filter (λ r, start_station_id r = Some station ∧ hour r = h)
    (filter (λ r, is_weekend r = flag)
       (filter (λ r, is_Some (start_station_id r)) (concat files)))).
  pose proof (length_filter (λ r, is_weekend r = flag)
       (filter (λ r, is_Some (start_station_id r)) (concat files))).
  pose proof (length_filter (λ r, is_Some (start_station_id r)) (concat files)).
  lia.
Qed.

Lemma count_row_of_int (flag : Z) (files : list (list Row)) (station : Z) :
  count_row flag files station
  = of_int <$> ((λ h, Z.of_nat (group_size station h
                                  (subset_of flag (df_all files))))
                  <$> seqZ 0 24).
Proof. unfold count_row. by rewrite <- list_fmap_compose. Qed.

Lemma lookup_hours {A : Type} (f : Z → A) (h : Z) :
  0 ≤ h < 24 → (f <$> seqZ 0 24) !! Z.to_nat h = Some (f h).
Proof.
  intros Hh. rewrite list_lookup_fmap.
  rewrite (proj2 (lookup_seqZ 0 24 (Z.to_nat h) h)) by lia. done.
Qed.

Lemma fmul_count_scale_finite (c top : Z) :
  0 ≤ c < 2 ^ 53 → 0 < top < 2 ^ 53 →
  finite_nonneg (fmul (of_int c) (fdiv f1 (of_int top))).
Proof.
  intros Hc Htop.
  destruct (of_int_positive top Htop) as (mt & et & -> & Hmt & Het).
  destruct (fdiv_f1_bounded mt et Hmt ltac:(lia))
    as [-> | (ms & es & -> & Hms & Hes)].
  - assert (c = 0 ∨ 0 < c) as [-> | Hc0] by lia; [by rewrite of_int_0|].
    by destruct (of_int_positive c ltac:(lia)) as (m & e & -> & _).
  - assert (c = 0 ∨ 0 < c) as [-> | Hc0] by lia; [by rewrite of_int_0|].
    destruct (of_int_positive c ltac:(lia)) as (m & e & -> & Hm & He).
    apply fmul_finite; [done | done | lia].
Qed.

(** X20: for a station with at least one hour without trips, and fewer than
    2^53 trips read, each hourly value is the product, rounded, of the
    hour's count and the rounded inverse of the station's largest hourly
    count; nothing is added or subtracted, and every value is zero or a
    positive finite number. *)
Theorem X20_rows_with_an_empty_hour
    (flag : Z) (files : list (list Row)) (rows : list (Z * list float))
    (station : Z) (vals : list float) :
  df_signature flag files = Some rows →
  (station, vals) ∈ rows →
  Z.of_nat (length (concat files)) < 2 ^ 53 →
  let count := λ h, group_size station h (subset_of flag (df_all files)) in
  (∃ h, 0 ≤ h < 24 ∧ count h = 0%nat) →
  ∃ h_peak,
    0 ≤ h_peak < 24 ∧ (0 < count h_peak)%nat
    ∧ (∀ h, 0 ≤ h < 24 → (count h ≤ count h_peak)%nat)
    ∧ vals = (λ h, fmul (of_int (Z.of_nat (count h)))
                        (fdiv f1 (of_int (Z.of_nat (count h_peak)))))
               <$> seqZ 0 24
    ∧ Forall finite_nonneg vals.
Proof.
  intros Hrows Hin Hlen count (h0 & Hh0 & Hzero).
  apply (df_signature_elem _ _ _ _ _ Hrows) in Hin as [Hidx ->].
  subst count. cbv beta in *.
  apply pivot_of_index in Hidx as (h1 & Hh1 & Hpos).
  rewrite count_row_of_int.
  set (subset := subset_of flag (df_all files)) in *.
  destruct (fit_transform_with_zero
              ((λ h, Z.of_nat (group_size station h subset)) <$> seqZ 0 24))
    as (top & (hp & -> & Hhp%elem_of_seqZ)%list_elem_of_fmap & Hpeak & Hle & Heq).
  - apply Forall_forall. intros z (h & -> & _)%list_elem_of_fmap.
    by apply group_size_bound.
  - apply list_elem_of_fmap. exists h0. split; [by rewrite Hzero|].
    apply elem_of_seqZ. lia.
  - exists (Z.of_nat (group_size station h1 subset)). split; [|lia].
    apply list_elem_of_fmap. exists h1. split; [done|]. apply elem_of_seqZ. lia.
  - exists hp. split_and!; [lia | lia | lia | | |].
    + intros h Hh. apply Nat2Z.inj_le. apply Hle.
      apply list_elem_of_fmap. exists h. split; [done|]. apply elem_of_seqZ. lia.
    + rewrite Heq. by rewrite <- list_fmap_compose.
    + rewrite Heq. apply Forall_forall.
      intros x (z & -> & (h & -> & _)%list_elem_of_fmap)%list_elem_of_fmap.
      apply fmul_count_scale_finite; [by apply group_size_bound|].
      split; [done|]. by apply group_size_bound.
Qed.

(** X21: with fewer than 2^53 trips read, every hour in which a station has
    its fewest trips gets exactly the value 0, with no rounding error,
    whatever the other counts of the station are. *)
Theorem X21_quietest_hours_are_exactly_zero
    (flag : Z) (files : list (list Row)) (rows : list (Z * list float))
    (station : Z) (vals : list float) (h : Z) :
  df_signature flag files = Some rows →
  (station, vals) ∈ rows →
  Z.of_nat (length (concat files)) < 2 ^ 53 →
  let count := λ h, group_size station h (subset_of flag (df_all files)) in
  0 ≤ h < 24 →
  (∀ h', 0 ≤ h' < 24 → (count h ≤ count h')%nat) →
  vals !! Z.to_nat h = Some f0.
Proof.
  intros Hrows Hin Hlen count Hh Hmin.
  apply (df_signature_elem _ _ _ _ _ Hrows) in Hin as [Hidx ->].
  subst count. cbv beta in *. rewrite count_row_of_int.
  set (subset := subset_of flag (df_all files)) in *.
  apply (fit_transform_min_is_zero _ _ (Z.of_nat (group_size station h subset))).
  - apply Forall_forall. intros z (h' & -> & _)%list_elem_of_fmap.
    by apply group_size_bound.
  - by apply (lookup_hours (λ h, Z.of_nat (group_size station h subset))).
  - intros z (h' & -> & Hh'%elem_of_seqZ)%list_elem_of_fmap.
    apply Nat2Z.inj_le, Hmin. lia.
Qed.

Lemma X20_rows_with_an_empty_hour_witness :
  ∃ h_peak,
    0 ≤ h_peak < 24
    ∧ (0 < group_size 7 h_peak (subset_of 0 (df_all Examples.files_morning)))%nat
    ∧ (∀ h, 0 ≤ h < 24 →
            (group_size 7 h (subset_of 0 (df_all Examples.files_morning))
             ≤ group_size 7 h_peak (subset_of 0 (df_all Examples.files_morning)))%nat)
    ∧ fit_transform (count_row 0 Examples.files_morning 7)
      = (λ h, fmul (of_int (Z.of_nat (group_size 7 h
                                        (subset_of 0 (df_all Examples.files_morning)))))
                   (fdiv f1 (of_int (Z.of_nat (group_size 7 h_peak
                                        (subset_of 0 (df_all Examples.files_morning)))))))
          <$> seqZ 0 24
    ∧ Forall finite_nonneg (fit_transform (count_row 0 Examples.files_morning 7)).
Proof.
  apply (X20_rows_with_an_empty_hour 0 Examples.files_morning
           [(7, fit_transform (count_row 0 Examples.files_morning 7))] 7).
  - vm_compute. reflexivity.
  - left.
  - by vm_compute.
  - exists 0. by vm_compute.
Defined.

Lemma X21_quietest_hours_are_exactly_zero_witness :
  fit_transform (count_row 0 Examples.files_busy_all_day 7) !! Z.to_nat 3
  = Some f0.
Proof.
  apply (X21_quietest_hours_are_exactly_zero 0 Examples.files_busy_all_day
           [(7, fit_transform (count_row 0 Examples.files_busy_all_day 7))] 7).
  - vm_compute. reflexivity.
  - left.
  - by vm_compute.
  - lia.
  - intros h' Hh'. assert (h' ∈ seqZ 0 24) as Hin by (apply elem_of_seqZ; lia).
    vm_compute in Hin.
    repeat (apply elem_of_cons in Hin as [-> | Hin]; [vm_compute; lia|]).
    by apply elem_of_nil in Hin.
Defined.

End ScalerMore.

(** ** Rounding a product never reverses an order *)

Section RoundingFacts.

Import Signatures.





















End RoundingFacts.

(** ** The range of the signature values *)

Section SignatureRange.

Import Signatures.




(** Two trips in every hour: 24 zeros. *)
Example signature_two_every_hour :
  df_signature 0 Examples.files_two_every_hour = Some [(7, replicate 24 f0)].
Proof. vm_compute. reflexivity. Qed.


End SignatureRange.
